(** * rl_sar: behaviour state machine, action decoder and safety monitors

    A shallow embedding of [library/core/rl_sdk/rl_sdk.cpp] (the FSM state
    classes, [RL::ComputeObservation], [RL::InitRL], [RL::ComputeOutput],
    [RL::QuatRotateInverse], [RL::TorqueProtect], [RL::AttitudeProtect]), with
    the robot state and command placed as [RL_Real::RobotControl] of
    [src/rl_real_go2.cpp] hands them to the state machine.

    Conventions of the embedding.
    - [float] and [double] values are the rationals they stand for ([Qc]);
      infinities and NaN are abstracted away, and so is IEEE rounding, with
      one exception: the additions to the progress counter
      [running_percent], on which the end of a ramp depends, round to IEEE
      single precision as module [Binary32] defines it.
    - A [torch::Tensor] of shape 1 x N is a row of N numbers, or undefined.
    - Operations that throw in the C++ (tensor indexing out of range, shape
      mismatch, use of an undefined tensor) or that have no defined result
      (an out-of-range [std::vector] subscript, the read of an unassigned
      local) yield [None].  [InitRL], whose exceptions are caught by the
      learned-mode [enter], reports them as values.
    - [std::cout] is a list of structured log lines kept in the machine
      state. *)

From Stdlib Require Import QArith Qcanon Qcabs ZArith Lia Lqa String.
From Stdlib Require Floats.SpecFloat.
From stdpp Require Import base numbers list strings option.

Open Scope string_scope.
Open Scope Qc_scope.
Open Scope list_scope.

(** ** Numbers *)

Definition Qcmin (x y : Qc) : Qc := if decide (y < x) then y else x.
Definition Qcmax (x y : Qc) : Qc := if decide (x < y) then y else x.

(** [Q2Qc] of a decimal literal of the source. *)
Definition dec (num : Z) (den : positive) : Qc := Q2Qc (num # den).

(** [std::copysign(m, s)]: magnitude of [m], sign of [s]. *)
Definition copysign (m s : Qc) : Qc :=
  if decide (s < 0) then - Qcabs m else Qcabs m.

(** [torch::clamp(x, lo, hi)] on one entry: [min(max(x, lo), hi)]. *)
Definition clamp (x lo hi : Qc) : Qc := Qcmin (Qcmax x lo) hi.

(** Truncation towards zero. *)
Definition Qctrunc (x : Qc) : Z := Z.quot (Qnum (this x)) (Zpos (Qden (this x))).

(** ** Tensors of shape 1 x N *)

Inductive Tensor :=
| Undefined
| Row (data : list Qc).

Global Instance Tensor_eq_dec : EqDecision Tensor.
Proof. solve_decision. Defined.

Definition defined (t : Tensor) : bool :=
  match t with Undefined => false | Row _ => true end.

Definition numel (t : Tensor) : Z :=
  match t with Undefined => 0 | Row l => Z.of_nat (length l) end.

Definition row (t : Tensor) : option (list Qc) :=
  match t with Undefined => None | Row l => Some l end.

(** Index normalisation of [tensor[0][i]]: a negative [i] counts from the
    end; anything outside [-n, n) throws. *)
Definition norm_index (n : nat) (i : Z) : option nat :=
  if decide (0 ≤ i < Z.of_nat n)%Z then Some (Z.to_nat i)
  else if decide (- Z.of_nat n ≤ i < 0)%Z then Some (Z.to_nat (Z.of_nat n + i))
  else None.

(** [t[0][i].item<double>()] *)
Definition item (t : Tensor) (i : Z) : option Qc :=
  l ← row t; k ← norm_index (length l) i; l !! k.

(** [t[0][i] = v] *)
Definition set_item (t : Tensor) (i : Z) (v : Qc) : option Tensor :=
  l ← row t; k ← norm_index (length l) i; Some (Row (<[k := v]> l)).

(** Elementwise binary operation with broadcasting of a length-1 row. *)
Definition broadcast (f : Qc → Qc → Qc) (a b : list Qc) : option (list Qc) :=
  if decide (length a = length b) then Some (zip_with f a b)
  else match a, b with
       | [x], _ => Some (map (f x) b)
       | _, [y] => Some (map (λ x, f x y) a)
       | _, _ => None
       end.

Definition tensor_op (f : Qc → Qc → Qc) (a b : Tensor) : option Tensor :=
  x ← row a; y ← row b; Row <$> broadcast f x y.

Definition tensor_add := tensor_op Qcplus.
Definition tensor_sub := tensor_op Qcminus.
Definition tensor_mul := tensor_op Qcmult.

(** [t * s] for a scalar [s]. *)
Definition tensor_scale (t : Tensor) (s : Qc) : option Tensor :=
  l ← row t; Some (Row (map (λ x, x * s) l)).

Definition tensor_neg (t : Tensor) : option Tensor :=
  l ← row t; Some (Row (map Qcopp l)).

(** [torch::clamp(t, lo, hi)] with tensor bounds. *)
Definition tensor_clamp (t lo hi : Tensor) : option Tensor :=
  m ← tensor_op Qcmax t lo; tensor_op Qcmin m hi.

(** [torch::clamp(t, lo, hi)] with scalar bounds. *)
Definition tensor_clamp_scalar (t : Tensor) (lo hi : Qc) : option Tensor :=
  l ← row t; Some (Row (map (λ x, clamp x lo hi) l)).

(** [torch::zeros({1, n})]: a negative size throws. *)
Definition torch_zeros (n : Z) : option Tensor :=
  if decide (n < 0)%Z then None else Some (Row (replicate (Z.to_nat n) 0)).

(** [torch::zeros_like(t)] *)
Definition zeros_like (t : Tensor) : option Tensor :=
  l ← row t; Some (Row (replicate (length l) 0)).

(** [torch::cat(ts, 1)] of 1 x k rows: an empty list throws. *)
Definition torch_cat (ts : list Tensor) : option Tensor :=
  match ts with
  | [] => None
  | _ => ls ← mapM row ts; Some (Row (mjoin ls))
  end.

(** ** Console *)

Inductive LogLine :=
| InfoGettingUp (percent : Qc)
| InfoGettingDown (percent : Qc)
| InfoRLController (x y yaw : Qc)
| ErrorInitRLFailed (what : string)
| ErrorFileDoesNotExist (path : string)
| WarningTorque (index : Z) (value limit_lower limit_upper : Qc)
| WarningRoll (threshold current : Qc)
| WarningPitch (threshold current : Qc).

(** ** Robot state, command and control target *)

(** [enum STATE].  The header that declares it is not part of the sources;
    the enumerators are the ones the two source files name. *)
Inductive STATE :=
| STATE_WAITING
| STATE_POS_GETUP
| STATE_POS_GETDOWN
| STATE_RL_LOCOMOTION
| STATE_RL_NAVIGATION
| STATE_RESET_SIMULATION
| STATE_TOGGLE_SIMULATION.

Global Instance STATE_eq_dec : EqDecision STATE.
Proof. solve_decision. Defined.

Record Control := mkControl {
  control_state : STATE;
  ctl_x : Qc;
  ctl_y : Qc;
  ctl_yaw : Qc
}.

Definition SetControlState (s : STATE) (c : Control) : Control :=
  mkControl s (ctl_x c) (ctl_y c) (ctl_yaw c).

Record MotorState := mkMotorState {
  ms_q : list Qc;
  ms_dq : list Qc;
  ms_tau_est : list Qc
}.

Record Imu := mkImu {
  quaternion : list Qc;
  gyroscope : list Qc
}.

Record RobotState := mkRobotState {
  imu : Imu;
  motor_state : MotorState
}.

Record MotorCommand := mkMotorCommand {
  mc_q : list Qc;
  mc_dq : list Qc;
  mc_tau : list Qc;
  mc_kp : list Qc;
  mc_kd : list Qc
}.

Record RobotCommand := mkRobotCommand {
  motor_command : MotorCommand
}.

(** ** Configuration and observations *)

(** [ModelParams]: the fields [ReadYamlBase] and [ReadYamlRL] assign. *)
Record ModelParams := mkModelParams {
  model_name : string;
  framework : string;
  dt : Qc;
  decimation : Z;
  num_observations : Z;
  observations : list string;
  observations_history : list Z;
  clip_obs : Qc;
  clip_actions_lower : Tensor;
  clip_actions_upper : Tensor;
  action_scale : Tensor;
  wheel_indices : list Z;
  num_of_dofs : Z;
  lin_vel_scale : Qc;
  ang_vel_scale : Qc;
  dof_pos_scale : Qc;
  dof_vel_scale : Qc;
  commands_scale : Tensor;
  rl_kp : Tensor;
  rl_kd : Tensor;
  fixed_kp : Tensor;
  fixed_kd : Tensor;
  torque_limits : Tensor;
  default_dof_pos : Tensor;
  joint_controller_names : list string;
  command_mapping : list Z;
  state_mapping : list Z
}.

Definition set_observations (v : list string) (p : ModelParams) : ModelParams :=
  mkModelParams (model_name p) (framework p) (dt p) (decimation p)
    (num_observations p) v (observations_history p) (clip_obs p)
    (clip_actions_lower p) (clip_actions_upper p) (action_scale p)
    (wheel_indices p) (num_of_dofs p) (lin_vel_scale p) (ang_vel_scale p)
    (dof_pos_scale p) (dof_vel_scale p) (commands_scale p) (rl_kp p) (rl_kd p)
    (fixed_kp p) (fixed_kd p) (torque_limits p) (default_dof_pos p)
    (joint_controller_names p) (command_mapping p) (state_mapping p).

Record Observations := mkObservations {
  lin_vel : Tensor;
  ang_vel : Tensor;
  gravity_vec : Tensor;
  commands : Tensor;
  base_quat : Tensor;
  dof_pos : Tensor;
  dof_vel : Tensor;
  actions : Tensor
}.

(** ** The controller object

    [RL] together with the members of [RL_Real] the state machine works on:
    [RL_Real::RobotControl] hands [&robot_state] and [&robot_command] to
    [StateController], which stores them in every state as [fsm_state] and
    [fsm_command]. *)
Record RL := mkRL {
  params : ModelParams;
  obs : Observations;
  control : Control;
  running_percent : Qc;
  now_state : RobotState;
  start_state : RobotState;
  rl_init_done : bool;
  robot_name : string;
  config_name : string;
  default_rl_config : string;
  is_simulation : bool;
  episode_length_buf : Z;
  model : option string;
  history_obs_buf : option (Z * Z * Z);
  output_dof_pos : Tensor;
  output_dof_vel : Tensor;
  output_dof_tau : Tensor;
  output_dof_pos_queue : list Tensor;
  output_dof_vel_queue : list Tensor;
  output_dof_tau_queue : list Tensor;
  robot_state : RobotState;
  robot_command : RobotCommand;
  stdout : list LogLine
}.

Definition set_params (v : ModelParams) (r : RL) : RL :=
  mkRL v (obs r) (control r) (running_percent r) (now_state r) (start_state r)
    (rl_init_done r) (robot_name r) (config_name r) (default_rl_config r)
    (is_simulation r) (episode_length_buf r) (model r) (history_obs_buf r)
    (output_dof_pos r) (output_dof_vel r) (output_dof_tau r)
    (output_dof_pos_queue r) (output_dof_vel_queue r) (output_dof_tau_queue r)
    (robot_state r) (robot_command r) (stdout r).

Definition set_obs (v : Observations) (r : RL) : RL :=
  mkRL (params r) v (control r) (running_percent r) (now_state r)
    (start_state r) (rl_init_done r) (robot_name r) (config_name r)
    (default_rl_config r) (is_simulation r) (episode_length_buf r) (model r)
    (history_obs_buf r) (output_dof_pos r) (output_dof_vel r)
    (output_dof_tau r) (output_dof_pos_queue r) (output_dof_vel_queue r)
    (output_dof_tau_queue r) (robot_state r) (robot_command r) (stdout r).

Definition set_control (v : Control) (r : RL) : RL :=
  mkRL (params r) (obs r) v (running_percent r) (now_state r) (start_state r)
    (rl_init_done r) (robot_name r) (config_name r) (default_rl_config r)
    (is_simulation r) (episode_length_buf r) (model r) (history_obs_buf r)
    (output_dof_pos r) (output_dof_vel r) (output_dof_tau r)
    (output_dof_pos_queue r) (output_dof_vel_queue r) (output_dof_tau_queue r)
    (robot_state r) (robot_command r) (stdout r).

Definition set_running_percent (v : Qc) (r : RL) : RL :=
  mkRL (params r) (obs r) (control r) v (now_state r) (start_state r)
    (rl_init_done r) (robot_name r) (config_name r) (default_rl_config r)
    (is_simulation r) (episode_length_buf r) (model r) (history_obs_buf r)
    (output_dof_pos r) (output_dof_vel r) (output_dof_tau r)
    (output_dof_pos_queue r) (output_dof_vel_queue r) (output_dof_tau_queue r)
    (robot_state r) (robot_command r) (stdout r).

Definition set_now_state (v : RobotState) (r : RL) : RL :=
  mkRL (params r) (obs r) (control r) (running_percent r) v (start_state r)
    (rl_init_done r) (robot_name r) (config_name r) (default_rl_config r)
    (is_simulation r) (episode_length_buf r) (model r) (history_obs_buf r)
    (output_dof_pos r) (output_dof_vel r) (output_dof_tau r)
    (output_dof_pos_queue r) (output_dof_vel_queue r) (output_dof_tau_queue r)
    (robot_state r) (robot_command r) (stdout r).

Definition set_start_state (v : RobotState) (r : RL) : RL :=
  mkRL (params r) (obs r) (control r) (running_percent r) (now_state r) v
    (rl_init_done r) (robot_name r) (config_name r) (default_rl_config r)
    (is_simulation r) (episode_length_buf r) (model r) (history_obs_buf r)
    (output_dof_pos r) (output_dof_vel r) (output_dof_tau r)
    (output_dof_pos_queue r) (output_dof_vel_queue r) (output_dof_tau_queue r)
    (robot_state r) (robot_command r) (stdout r).

Definition set_rl_init_done (v : bool) (r : RL) : RL :=
  mkRL (params r) (obs r) (control r) (running_percent r) (now_state r)
    (start_state r) v (robot_name r) (config_name r) (default_rl_config r)
    (is_simulation r) (episode_length_buf r) (model r) (history_obs_buf r)
    (output_dof_pos r) (output_dof_vel r) (output_dof_tau r)
    (output_dof_pos_queue r) (output_dof_vel_queue r) (output_dof_tau_queue r)
    (robot_state r) (robot_command r) (stdout r).

Definition set_config_name (v : string) (r : RL) : RL :=
  mkRL (params r) (obs r) (control r) (running_percent r) (now_state r)
    (start_state r) (rl_init_done r) (robot_name r) v (default_rl_config r)
    (is_simulation r) (episode_length_buf r) (model r) (history_obs_buf r)
    (output_dof_pos r) (output_dof_vel r) (output_dof_tau r)
    (output_dof_pos_queue r) (output_dof_vel_queue r) (output_dof_tau_queue r)
    (robot_state r) (robot_command r) (stdout r).

Definition set_model (v : option string) (r : RL) : RL :=
  mkRL (params r) (obs r) (control r) (running_percent r) (now_state r)
    (start_state r) (rl_init_done r) (robot_name r) (config_name r)
    (default_rl_config r) (is_simulation r) (episode_length_buf r) v
    (history_obs_buf r) (output_dof_pos r) (output_dof_vel r)
    (output_dof_tau r) (output_dof_pos_queue r) (output_dof_vel_queue r)
    (output_dof_tau_queue r) (robot_state r) (robot_command r) (stdout r).

Definition set_history_obs_buf (v : option (Z * Z * Z)) (r : RL) : RL :=
  mkRL (params r) (obs r) (control r) (running_percent r) (now_state r)
    (start_state r) (rl_init_done r) (robot_name r) (config_name r)
    (default_rl_config r) (is_simulation r) (episode_length_buf r) (model r) v
    (output_dof_pos r) (output_dof_vel r) (output_dof_tau r)
    (output_dof_pos_queue r) (output_dof_vel_queue r) (output_dof_tau_queue r)
    (robot_state r) (robot_command r) (stdout r).

Definition set_output_dof_pos (v : Tensor) (r : RL) : RL :=
  mkRL (params r) (obs r) (control r) (running_percent r) (now_state r)
    (start_state r) (rl_init_done r) (robot_name r) (config_name r)
    (default_rl_config r) (is_simulation r) (episode_length_buf r) (model r)
    (history_obs_buf r) v (output_dof_vel r) (output_dof_tau r)
    (output_dof_pos_queue r) (output_dof_vel_queue r) (output_dof_tau_queue r)
    (robot_state r) (robot_command r) (stdout r).

Definition set_output_dof_vel (v : Tensor) (r : RL) : RL :=
  mkRL (params r) (obs r) (control r) (running_percent r) (now_state r)
    (start_state r) (rl_init_done r) (robot_name r) (config_name r)
    (default_rl_config r) (is_simulation r) (episode_length_buf r) (model r)
    (history_obs_buf r) (output_dof_pos r) v (output_dof_tau r)
    (output_dof_pos_queue r) (output_dof_vel_queue r) (output_dof_tau_queue r)
    (robot_state r) (robot_command r) (stdout r).

Definition set_output_dof_tau (v : Tensor) (r : RL) : RL :=
  mkRL (params r) (obs r) (control r) (running_percent r) (now_state r)
    (start_state r) (rl_init_done r) (robot_name r) (config_name r)
    (default_rl_config r) (is_simulation r) (episode_length_buf r) (model r)
    (history_obs_buf r) (output_dof_pos r) (output_dof_vel r) v
    (output_dof_pos_queue r) (output_dof_vel_queue r) (output_dof_tau_queue r)
    (robot_state r) (robot_command r) (stdout r).

Definition set_output_dof_pos_queue (v : list Tensor) (r : RL) : RL :=
  mkRL (params r) (obs r) (control r) (running_percent r) (now_state r)
    (start_state r) (rl_init_done r) (robot_name r) (config_name r)
    (default_rl_config r) (is_simulation r) (episode_length_buf r) (model r)
    (history_obs_buf r) (output_dof_pos r) (output_dof_vel r)
    (output_dof_tau r) v (output_dof_vel_queue r) (output_dof_tau_queue r)
    (robot_state r) (robot_command r) (stdout r).

Definition set_output_dof_vel_queue (v : list Tensor) (r : RL) : RL :=
  mkRL (params r) (obs r) (control r) (running_percent r) (now_state r)
    (start_state r) (rl_init_done r) (robot_name r) (config_name r)
    (default_rl_config r) (is_simulation r) (episode_length_buf r) (model r)
    (history_obs_buf r) (output_dof_pos r) (output_dof_vel r)
    (output_dof_tau r) (output_dof_pos_queue r) v (output_dof_tau_queue r)
    (robot_state r) (robot_command r) (stdout r).

Definition set_output_dof_tau_queue (v : list Tensor) (r : RL) : RL :=
  mkRL (params r) (obs r) (control r) (running_percent r) (now_state r)
    (start_state r) (rl_init_done r) (robot_name r) (config_name r)
    (default_rl_config r) (is_simulation r) (episode_length_buf r) (model r)
    (history_obs_buf r) (output_dof_pos r) (output_dof_vel r)
    (output_dof_tau r) (output_dof_pos_queue r) (output_dof_vel_queue r) v
    (robot_state r) (robot_command r) (stdout r).

Definition set_robot_state (v : RobotState) (r : RL) : RL :=
  mkRL (params r) (obs r) (control r) (running_percent r) (now_state r)
    (start_state r) (rl_init_done r) (robot_name r) (config_name r)
    (default_rl_config r) (is_simulation r) (episode_length_buf r) (model r)
    (history_obs_buf r) (output_dof_pos r) (output_dof_vel r)
    (output_dof_tau r) (output_dof_pos_queue r) (output_dof_vel_queue r)
    (output_dof_tau_queue r) v (robot_command r) (stdout r).

Definition set_robot_command (v : RobotCommand) (r : RL) : RL :=
  mkRL (params r) (obs r) (control r) (running_percent r) (now_state r)
    (start_state r) (rl_init_done r) (robot_name r) (config_name r)
    (default_rl_config r) (is_simulation r) (episode_length_buf r) (model r)
    (history_obs_buf r) (output_dof_pos r) (output_dof_vel r)
    (output_dof_tau r) (output_dof_pos_queue r) (output_dof_vel_queue r)
    (output_dof_tau_queue r) (robot_state r) v (stdout r).

Definition set_stdout (v : list LogLine) (r : RL) : RL :=
  mkRL (params r) (obs r) (control r) (running_percent r) (now_state r)
    (start_state r) (rl_init_done r) (robot_name r) (config_name r)
    (default_rl_config r) (is_simulation r) (episode_length_buf r) (model r)
    (history_obs_buf r) (output_dof_pos r) (output_dof_vel r)
    (output_dof_tau r) (output_dof_pos_queue r) (output_dof_vel_queue r)
    (output_dof_tau_queue r) (robot_state r) (robot_command r) v.

Definition print (line : LogLine) (r : RL) : RL :=
  set_stdout (stdout r ++ [line]) r.

(** ** Subscripts and loops *)

(** [v[i] = x] on a [std::vector]: defined inside the vector only. *)
Definition vec_set (i : nat) (x : Qc) (v : list Qc) : option (list Qc) :=
  if decide (i < length v)%nat then Some (<[i := x]> v) else None.

Definition write_q (i : nat) (x : Qc) (c : MotorCommand) : option MotorCommand :=
  v ← vec_set i x (mc_q c);
  Some (mkMotorCommand v (mc_dq c) (mc_tau c) (mc_kp c) (mc_kd c)).

Definition write_dq (i : nat) (x : Qc) (c : MotorCommand) : option MotorCommand :=
  v ← vec_set i x (mc_dq c);
  Some (mkMotorCommand (mc_q c) v (mc_tau c) (mc_kp c) (mc_kd c)).

Definition write_tau (i : nat) (x : Qc) (c : MotorCommand) : option MotorCommand :=
  v ← vec_set i x (mc_tau c);
  Some (mkMotorCommand (mc_q c) (mc_dq c) v (mc_kp c) (mc_kd c)).

Definition write_kp (i : nat) (x : Qc) (c : MotorCommand) : option MotorCommand :=
  v ← vec_set i x (mc_kp c);
  Some (mkMotorCommand (mc_q c) (mc_dq c) (mc_tau c) v (mc_kd c)).

Definition write_kd (i : nat) (x : Qc) (c : MotorCommand) : option MotorCommand :=
  v ← vec_set i x (mc_kd c);
  Some (mkMotorCommand (mc_q c) (mc_dq c) (mc_tau c) (mc_kp c) v).

(** A loop over the indices [ix], threading the state through the body. *)
Fixpoint for_each {S : Type} (body : nat → S → option S) (ix : list nat) (s : S)
  : option S :=
  match ix with
  | [] => Some s
  | i :: ix' => s' ← body i s; for_each body ix' s'
  end.

(** [for (int i = 0; i < n; ++i) body] *)
Definition for_dofs {S : Type} (n : Z) (body : nat → S → option S) (s : S)
  : option S :=
  for_each body (seq 0 (Z.to_nat n)) s.

(** ** Hand-off queues *)

(** Modelled from the spec: the queue class of [output_dof_pos_queue] and
    [output_dof_vel_queue] is declared in a header that is not part of the
    sources.  Section 4.6 gives it non-blocking pop semantics on a FIFO:
    [try_pop] takes the oldest element if there is one and reports failure,
    without waiting, if there is none. *)
Definition try_pop (queue : list Tensor) : option (Tensor * list Tensor) :=
  match queue with
  | [] => None
  | t :: rest => Some (t, rest)
  end.

(** ** Single precision

    [running_percent] is a [float], and whether a ramp is complete is
    decided by comparing it with [1.0f]: its additions are rounded as IEEE
    binary32 ([prec] 24, [emax] 128) rounds them, to nearest, ties to even.
    The first half of this module is the counter on the floats themselves;
    the second half relates a float to the rational it stands for. *)
Module Binary32.
Import SpecFloat.

Definition prec : Z := 24%Z.
Definition emax : Z := 128%Z.

Definition f32 (m e : Z) : spec_float := binary_normalize prec emax m e false.

Definition zero : spec_float := S754_zero false.
Definition one : spec_float := f32 1%Z 0%Z.

(** [1.0f / 500.0f] *)
Definition step : spec_float := SFdiv prec emax one (f32 500%Z 0%Z).

(** [std::min(a, b)] *)
Definition min (a b : spec_float) : spec_float := if SFltb b a then b else a.

(** Lines 65 to 68 of [GetUp::run] and 127 to 130 of [GetDown::run]. *)
Definition run (running_percent : spec_float) : spec_float :=
  if SFltb running_percent one then
    let running_percent := SFadd prec emax running_percent step in
    min running_percent one
  else running_percent.

(** The counter [n] ticks after [enter] has set it to [0.0f]. *)
Definition progress (n : nat) : spec_float := Nat.iter n run zero.

(** The first [n] values of the counter, in order. *)
Fixpoint trajectory (n : nat) (p : spec_float) : list spec_float :=
  match n with
  | O => []
  | S n' => p :: trajectory n' (run p)
  end.

Definition in_range (p : spec_float) : bool := SFleb zero p && SFleb p one.

Fixpoint non_decreasing (l : list spec_float) : bool :=
  match l with
  | a :: (b :: _) as rest => SFleb a b && non_decreasing rest
  | _ => true
  end.

(** The rational a finite float stands for: its mantissa times two to its
    exponent. *)
Definition value (x : spec_float) : Qc :=
  match x with
  | S754_finite s m e =>
      Q2Qc (inject_Z (if s then Zneg m else Zpos m) * Qpower 2 e)
  | _ => 0
  end.

(** The float that holds the rational [m / 2^k]; every value of a [float]
    variable is of this form.  One that needs more than 24 bits is
    rounded. *)
Definition float (q : Qc) : spec_float :=
  binary_normalize prec emax (Qnum q) (- Z.log2 (Zpos (Qden q))) false.

(** [a + b] in single precision, for a [float] variable holding [a]. *)
Definition add (a : Qc) (b : spec_float) : Qc :=
  value (SFadd prec emax (float a) b).

End Binary32.

(** ** The states of the behaviour state machine *)

Module RLFSMStateWaiting.

Definition _stateName : string := "RLFSMStateWaiting".

Definition enter (rl : RL) : RL := set_running_percent 0 rl.

Definition body (st : RobotState) (i : nat) (c : MotorCommand)
  : option MotorCommand :=
  x ← ms_q (motor_state st) !! i; write_q i x c.

Definition run (rl : RL) : option RL :=
  c ← for_dofs (num_of_dofs (params rl)) (body (robot_state rl))
        (motor_command (robot_command rl));
  Some (set_robot_command (mkRobotCommand c) rl).

Definition checkChange (rl : RL) : string :=
  if decide (control_state (control rl) = STATE_POS_GETUP)
  then "RLFSMStateGetUp"
  else _stateName.

Definition exit (rl : RL) : RL := rl.

End RLFSMStateWaiting.

Module RLFSMStateGetUp.

Definition _stateName : string := "RLFSMStateGetUp".

Definition enter (rl : RL) : RL :=
  let rl := set_running_percent 0 rl in
  let rl := set_now_state (robot_state rl) rl in
  set_start_state (now_state rl) rl.

Definition body (rl : RL) (i : nat) (c : MotorCommand) : option MotorCommand :=
  x ← ms_q (motor_state (now_state rl)) !! i;
  d ← item (default_dof_pos (params rl)) (Z.of_nat i);
  c ← write_q i ((1 - running_percent rl) * x + running_percent rl * d) c;
  c ← write_dq i 0 c;
  kp ← item (fixed_kp (params rl)) (Z.of_nat i);
  c ← write_kp i kp c;
  kd ← item (fixed_kd (params rl)) (Z.of_nat i);
  c ← write_kd i kd c;
  write_tau i 0 c.

Definition run (rl : RL) : option RL :=
  if decide (running_percent rl < 1) then
    let rl := set_running_percent
                (Binary32.add (running_percent rl) Binary32.step) rl in
    let rl := set_running_percent (Qcmin (running_percent rl) 1) rl in
    c ← for_dofs (num_of_dofs (params rl)) (body rl)
          (motor_command (robot_command rl));
    let rl := set_robot_command (mkRobotCommand c) rl in
    Some (print (InfoGettingUp (running_percent rl * dec 100 1)) rl)
  else Some rl.

Definition checkChange (rl : RL) : string :=
  if decide (1 ≤ running_percent rl) then
    if decide (control_state (control rl) = STATE_RL_LOCOMOTION)
    then "RLFSMStateRL_Locomotion"
    else if decide (control_state (control rl) = STATE_RL_NAVIGATION)
    then "RLFSMStateRL_Navigation"
    else if decide (control_state (control rl) = STATE_POS_GETDOWN)
    then "RLFSMStateGetDown"
    else if decide (control_state (control rl) = STATE_WAITING)
    then "RLFSMStateWaiting"
    else _stateName
  else _stateName.

Definition exit (rl : RL) : RL := rl.

End RLFSMStateGetUp.

Module RLFSMStateGetDown.

Definition _stateName : string := "RLFSMStateGetDown".

Definition enter (rl : RL) : RL :=
  let rl := set_running_percent 0 rl in
  set_now_state (robot_state rl) rl.

Definition body (rl : RL) (i : nat) (c : MotorCommand) : option MotorCommand :=
  x ← ms_q (motor_state (now_state rl)) !! i;
  y ← ms_q (motor_state (start_state rl)) !! i;
  c ← write_q i ((1 - running_percent rl) * x + running_percent rl * y) c;
  c ← write_dq i 0 c;
  kp ← item (fixed_kp (params rl)) (Z.of_nat i);
  c ← write_kp i kp c;
  kd ← item (fixed_kd (params rl)) (Z.of_nat i);
  c ← write_kd i kd c;
  write_tau i 0 c.

Definition run (rl : RL) : option RL :=
  if decide (running_percent rl < 1) then
    let rl := set_running_percent
                (Binary32.add (running_percent rl) Binary32.step) rl in
    let rl := set_running_percent (Qcmin (running_percent rl) 1) rl in
    c ← for_dofs (num_of_dofs (params rl)) (body rl)
          (motor_command (robot_command rl));
    let rl := set_robot_command (mkRobotCommand c) rl in
    Some (print (InfoGettingDown (running_percent rl * dec 100 1)) rl)
  else Some rl.

Definition checkChange (rl : RL) : string :=
  if decide (1 ≤ running_percent rl) then "RLFSMStateWaiting"
  else if decide (control_state (control rl) = STATE_POS_GETUP)
  then "RLFSMStateGetUp"
  else _stateName.

Definition exit (rl : RL) : RL := rl.

End RLFSMStateGetDown.

(** ** External collaborators

    What the controller obtains from outside the two source files: the
    build-time macro [CMAKE_CURRENT_SOURCE_DIR], the YAML files, the
    TorchScript loader, and the transcendental functions of the C and
    torch libraries. *)

(** Outcome of [YAML::LoadFile(config_path)[robot_path]] followed by the
    [as<T>()] conversions of [ReadYamlRL]. *)
Inductive YamlLoad :=
| YamlBadFile
    (* [YAML::BadFile]: no such file *)
| YamlException (what : string) (assigned : ModelParams → ModelParams)
    (* another YAML exception, after [assigned] has been stored *)
| YamlNode (config : ModelParams).
    (* every field converts; [dt] and [decimation] of [config] are unused *)

(** Outcome of [torch::jit::load(model_path)]. *)
Inductive JitLoad :=
| JitException (what : string)
| JitModule (handle : string).

Record Env := mkEnv {
  CMAKE_CURRENT_SOURCE_DIR : string;
  yaml_load : string → string → YamlLoad;
  jit_load : string → JitLoad;
  sin : Qc → Qc;
  cos : Qc → Qc;
  atan2 : Qc → Qc → Qc;
  asin : Qc → Qc
}.

(** [std::asin]: a domain error outside [-1, 1]. *)
Definition std_asin (env : Env) (x : Qc) : option Qc :=
  if decide (Qcabs x ≤ 1) then Some (asin env x) else None.

(** A computation of the controller that may throw: the state it leaves
    behind, and [e.what()] if it threw. *)
Inductive Exceptional :=
| Normal (rl : RL)
| Raised (what : string) (rl : RL).

Definition and_then (r : Exceptional) (k : RL → Exceptional) : Exceptional :=
  match r with
  | Normal rl => k rl
  | Raised what rl => Raised what rl
  end.

(** ** Initialisation *)

Definition InitObservations (rl : RL) : Exceptional :=
  (* the six assignments before the first [torch::zeros] *)
  let o := mkObservations (Row [0; 0; 0]) (Row [0; 0; 0]) (Row [0; 0; - (1)])
             (Row [0; 0; 0]) (Row [0; 0; 0; 1]) (default_dof_pos (params rl))
             (dof_vel (obs rl)) (actions (obs rl)) in
  match torch_zeros (num_of_dofs (params rl)) with
  | None => Raised "zeros: negative dimension" (set_obs o rl)
  | Some z =>
      Normal (set_obs (mkObservations (lin_vel o) (ang_vel o) (gravity_vec o)
                         (commands o) (base_quat o) (dof_pos o) z z) rl)
  end.

Definition InitOutputs (rl : RL) : Exceptional :=
  match torch_zeros (num_of_dofs (params rl)) with
  | None => Raised "zeros: negative dimension" rl
  | Some z =>
      let rl := set_output_dof_tau z rl in
      let rl := set_output_dof_pos (default_dof_pos (params rl)) rl in
      Normal (set_output_dof_vel z rl)
  end.

Definition InitControl (rl : RL) : RL :=
  set_control (mkControl (control_state (control rl)) 0 0 0) rl.

Definition ReadYamlRL (env : Env) (robot_path : string) (rl : RL) : Exceptional :=
  let config_path :=
    CMAKE_CURRENT_SOURCE_DIR env +:+ "/models/" +:+ robot_path +:+ "/config.yaml" in
  match yaml_load env config_path robot_path with
  | YamlBadFile => Normal (print (ErrorFileDoesNotExist config_path) rl)
  | YamlException what assigned => Raised what (set_params (assigned (params rl)) rl)
  | YamlNode c =>
      let p := params rl in
      Normal (set_params
        (mkModelParams (model_name c) (framework c) (dt p) (decimation p)
           (num_observations c) (observations c) (observations_history c)
           (clip_obs c) (clip_actions_lower c) (clip_actions_upper c)
           (action_scale c) (wheel_indices c) (num_of_dofs c) (lin_vel_scale c)
           (ang_vel_scale c) (dof_pos_scale c) (dof_vel_scale c)
           (commands_scale c) (rl_kp c) (rl_kd c) (fixed_kp c) (fixed_kd c)
           (torque_limits c) (default_dof_pos c) (joint_controller_names c)
           (command_mapping c) (state_mapping c)) rl)
  end.

(** The loop of [InitRL] over [params.observations], by reference. *)
Definition resolve_ang_vel (is_simulation : bool) (observation : string) : string :=
  if decide (observation = "ang_vel") then
    if is_simulation then "ang_vel_world" else "ang_vel_body"
  else observation.

Definition InitRL (env : Env) (robot_path : string) (rl : RL) : Exceptional :=
  and_then (ReadYamlRL env robot_path rl) (λ rl,
    let rl := set_params
                (set_observations
                   (map (resolve_ang_vel (is_simulation rl))
                      (observations (params rl))) (params rl)) rl in
    let rl :=
      match observations_history (params rl) with
      | [] => rl
      | h => set_history_obs_buf
               (Some (1, num_observations (params rl), Z.of_nat (length h)))%Z rl
      end in
    let model_path :=
      CMAKE_CURRENT_SOURCE_DIR env +:+ "/models/" +:+ robot_path +:+ "/"
        +:+ model_name (params rl) in
    match jit_load env model_path with
    | JitException what => Raised what rl
    | JitModule handle =>
        let rl := set_model (Some handle) rl in
        and_then (InitObservations rl) (λ rl,
          and_then (InitOutputs rl) (λ rl, Normal (InitControl rl)))
    end).

(** ** Observation assembly *)

(** [t.index({Slice(), Slice(lo, hi)})]: the columns [lo .. hi-1] that exist. *)
Definition slice (lo hi : nat) (l : list Qc) : list Qc := take (hi - lo) (drop lo l).

(** [torch::cross(a, b, -1)]: both rows must have three entries. *)
Definition cross (a b : list Qc) : option (list Qc) :=
  match a, b with
  | [a1; a2; a3], [b1; b2; b3] =>
      Some [a2 * b3 - a3 * b2; a3 * b1 - a1 * b3; a1 * b2 - a2 * b1]
  | _, _ => None
  end.

(** [torch::bmm(a.view({1, 1, 3}), b.view({1, 3, 1})).squeeze(-1)] *)
Definition bmm3 (a b : list Qc) : option Qc :=
  match a, b with
  | [a1; a2; a3], [b1; b2; b3] => Some (a1 * b1 + a2 * b2 + a3 * b3)
  | _, _ => None
  end.

(** The two assignments to [q_w] and [q_vec]; [None] when neither branch
    is taken and both tensors stay undefined. *)
Definition quat_parts (q : list Qc) (framework : string) : option (Qc * list Qc) :=
  if decide (framework = "isaacsim") then
    w ← q !! 0%nat; Some (w, slice 1 4 q)
  else if decide (framework = "isaacgym") then
    w ← q !! 3%nat; Some (w, slice 0 3 q)
  else None.

Definition QuatRotateInverse (q v : Tensor) (framework : string) : option Tensor :=
  ql ← row q; vl ← row v;
  '(q_w, q_vec) ← quat_parts ql framework;
  let a := map (λ x, x * (2 * (q_w * q_w) - 1)) vl in
  cr ← cross q_vec vl;
  let b := map (λ x, x * q_w * 2) cr in
  d ← bmm3 q_vec vl;
  let c := map (λ x, x * d * 2) q_vec in
  ab ← broadcast Qcminus a b;
  Row <$> broadcast Qcplus ab c.

(** [torch::fmod(x, y) = x - trunc(x / y) * y], for the non-zero constant
    period of the source. *)
Definition torch_fmod (x y : Qc) : Qc := x - Qc_of_Z (Qctrunc (x / y)) * y.

(** [for (int i : wheel_indices) t[0][i] = 0.0;] *)
Fixpoint zero_wheels (wheels : list Z) (t : Tensor) : option Tensor :=
  match wheels with
  | [] => Some t
  | i :: rest => t' ← set_item t i 0; zero_wheels rest t'
  end.

Inductive Pushed :=
| Skip
| PushBack (t : Tensor).

(** One pass through the body of the loop of [ComputeObservation]: the
    tensor pushed onto [obs_list], if any. *)
Definition observation_term (env : Env) (rl : RL) (observation : string)
  : option Pushed :=
  let p := params rl in
  let o := obs rl in
  if decide (observation = "lin_vel") then
    PushBack <$> tensor_scale (lin_vel o) (lin_vel_scale p)
  else if decide (observation = "ang_vel_body") then
    PushBack <$> tensor_scale (ang_vel o) (ang_vel_scale p)
  else if decide (observation = "ang_vel_world") then
    r ← QuatRotateInverse (base_quat o) (ang_vel o) (framework p);
    PushBack <$> tensor_scale r (ang_vel_scale p)
  else if decide (observation = "gravity_vec") then
    PushBack <$> QuatRotateInverse (base_quat o) (gravity_vec o) (framework p)
  else if decide (observation = "commands") then
    PushBack <$> tensor_mul (commands o) (commands_scale p)
  else if decide (observation = "dof_pos") then
    dof_pos_rel ← tensor_sub (dof_pos o) (default_dof_pos p);
    dof_pos_rel ← zero_wheels (wheel_indices p) dof_pos_rel;
    PushBack <$> tensor_scale dof_pos_rel (dof_pos_scale p)
  else if decide (observation = "dof_vel") then
    PushBack <$> tensor_scale (dof_vel o) (dof_vel_scale p)
  else if decide (observation = "actions") then
    Some (PushBack (actions o))
  else if decide (observation = "phase") then
    let phase := dec 31415926 10000000 * Qc_of_Z (episode_length_buf rl) * dt p
                 * Qc_of_Z (decimation p) / dec 2 1 in
    Some (PushBack (Row [sin env phase; cos env phase;
                         sin env (phase / dec 2 1); cos env (phase / dec 2 1);
                         sin env (phase / dec 4 1); cos env (phase / dec 4 1)]))
  else if decide (observation = "g1_phase") then
    let period := dec 8 10 in
    let count := Qc_of_Z (episode_length_buf rl) * dt p * Qc_of_Z (decimation p) in
    let phase := torch_fmod count period / period in
    Some (PushBack (Row [sin env (dec 2 1 * dec 31415926 10000000 * phase);
                         cos env (dec 2 1 * dec 31415926 10000000 * phase)]))
  else Some Skip.

Fixpoint build_obs_list (env : Env) (rl : RL) (names : list string)
  (obs_list : list Tensor) : option (list Tensor) :=
  match names with
  | [] => Some obs_list
  | observation :: rest =>
      r ← observation_term env rl observation;
      build_obs_list env rl rest
        (match r with Skip => obs_list | PushBack t => obs_list ++ [t] end)
  end.

Definition ComputeObservation (env : Env) (rl : RL) : option Tensor :=
  obs_list ← build_obs_list env rl (observations (params rl)) [];
  o ← torch_cat obs_list;
  tensor_clamp_scalar o (- clip_obs (params rl)) (clip_obs (params rl)).

(** ** Action decoding *)

(** The loop of [ComputeOutput] over [wheel_indices]. *)
Fixpoint split_wheels (wheels : list Z) (actions_scaled : Tensor)
  (pv : Tensor * Tensor) : option (Tensor * Tensor) :=
  match wheels with
  | [] => Some pv
  | i :: rest =>
      pos ← set_item (fst pv) i 0;
      x ← item actions_scaled i;
      vel ← set_item (snd pv) i x;
      split_wheels rest actions_scaled (pos, vel)
  end.

(** [ComputeOutput]: the values stored in [output_dof_pos], [output_dof_vel]
    and [output_dof_tau]. *)
Definition ComputeOutput (rl : RL) (actions : Tensor)
  : option (Tensor * Tensor * Tensor) :=
  let p := params rl in
  actions_scaled ← tensor_mul actions (action_scale p);
  let pos_actions_scaled := actions_scaled in
  vel_actions_scaled ← zeros_like actions;
  '(pos_actions_scaled, vel_actions_scaled) ←
    split_wheels (wheel_indices p) actions_scaled
      (pos_actions_scaled, vel_actions_scaled);
  all_actions_scaled ← tensor_add pos_actions_scaled vel_actions_scaled;
  output_dof_pos ← tensor_add pos_actions_scaled (default_dof_pos p);
  let output_dof_vel := vel_actions_scaled in
  target ← tensor_add all_actions_scaled (default_dof_pos p);
  err ← tensor_sub target (dof_pos (obs rl));
  prop ← tensor_mul (rl_kp p) err;
  damp ← tensor_mul (rl_kd p) (dof_vel (obs rl));
  output_dof_tau ← tensor_sub prop damp;
  lower ← tensor_neg (torque_limits p);
  output_dof_tau ← tensor_clamp output_dof_tau lower (torque_limits p);
  Some (output_dof_pos, output_dof_vel, output_dof_tau).

(** ** Safety monitors *)

(** First loop of [TorqueProtect]: the indices and values out of range. *)
Definition torque_scan_body (rl : RL) (tau : Tensor) (i : nat)
  (found : list (Z * Qc)) : option (list (Z * Qc)) :=
  torque_value ← item tau (Z.of_nat i);
  limit ← item (torque_limits (params rl)) (Z.of_nat i);
  let limit_lower := - limit in
  let limit_upper := limit in
  if decide (torque_value < limit_lower ∨ limit_upper < torque_value)
  then Some (found ++ [(Z.of_nat i, torque_value)])
  else Some found.

(** Second loop of [TorqueProtect]: one warning per recorded index. *)
Fixpoint torque_warn (rl : RL) (found : list (Z * Qc)) (out : list LogLine)
  : option (list LogLine) :=
  match found with
  | [] => Some out
  | (index, value) :: rest =>
      limit ← item (torque_limits (params rl)) index;
      torque_warn rl rest (out ++ [WarningTorque (index + 1) value (- limit) limit])
  end.

Definition TorqueProtect (rl : RL) (origin_output_dof_tau : Tensor) : option RL :=
  l ← row origin_output_dof_tau;
  found ← for_each (torque_scan_body rl origin_output_dof_tau)
            (seq 0 (length l)) [];
  out ← torque_warn rl found (stdout rl);
  Some (set_stdout out rl).

Record Attitude := mkAttitude {
  att_roll : Qc;
  att_pitch : Qc
}.

(** The assignments to [w], [x], [y], [z]; [None] when neither branch is
    taken and the four locals are read unassigned. *)
Definition attitude_parts (quaternion : list Qc) (framework : string)
  : option (Qc * Qc * Qc * Qc) :=
  if decide (framework = "isaacgym") then
    w ← quaternion !! 3%nat; x ← quaternion !! 0%nat;
    y ← quaternion !! 1%nat; z ← quaternion !! 2%nat; Some (w, x, y, z)
  else if decide (framework = "isaacsim") then
    w ← quaternion !! 0%nat; x ← quaternion !! 1%nat;
    y ← quaternion !! 2%nat; z ← quaternion !! 3%nat; Some (w, x, y, z)
  else None.

Definition rad2deg : Qc := dec 572958 10000.

(** Roll and pitch, in degrees, as [AttitudeProtect] computes them. *)
Definition attitude (env : Env) (quaternion : list Qc) (framework : string)
  : option Attitude :=
  '(w, x, y, z) ← attitude_parts quaternion framework;
  let sinr_cosp := 2 * (w * x + y * z) in
  let cosr_cosp := 1 - 2 * (x * x + y * y) in
  let roll := atan2 env sinr_cosp cosr_cosp * rad2deg in
  let sinp := 2 * (w * y - z * x) in
  pitch ← (if decide (1 ≤ Qcabs sinp) then Some (copysign (dec 90 1) sinp)
            else a ← std_asin env sinp; Some (a * rad2deg));
  Some (mkAttitude roll pitch).

Definition AttitudeProtect (env : Env) (rl : RL) (quaternion : list Qc)
  (pitch_threshold roll_threshold : Qc) : option RL :=
  a ← attitude env quaternion (framework (params rl));
  let rl := if decide (roll_threshold < Qcabs (att_roll a))
            then print (WarningRoll roll_threshold (att_roll a)) rl else rl in
  let rl := if decide (pitch_threshold < Qcabs (att_pitch a))
            then print (WarningPitch pitch_threshold (att_pitch a)) rl else rl in
  Some rl.

(** ** The learned modes *)

(** [enter] of both learned states. *)
Definition learned_enter (env : Env) (rl : RL) : RL :=
  let rl := set_config_name (default_rl_config rl) rl in
  let robot_path := robot_name rl +:+ "/" +:+ config_name rl in
  match InitRL env robot_path rl with
  | Normal rl => set_rl_init_done true rl
  | Raised what rl =>
      let rl := print (ErrorInitRLFailed what) rl in
      let rl := set_rl_init_done false rl in
      set_control (mkControl STATE_POS_GETUP (ctl_x (control rl))
                     (ctl_y (control rl)) (ctl_yaw (control rl))) rl
  end.

(** Body of the loop of [run] of both learned states. *)
Definition learned_body (rl : RL) (_output_dof_pos _output_dof_vel : Tensor)
  (i : nat) (c : MotorCommand) : option MotorCommand :=
  c ← (if defined _output_dof_pos && bool_decide (0 < numel _output_dof_pos)%Z
       then x ← item (output_dof_pos rl) (Z.of_nat i); write_q i x c
       else Some c);
  c ← (if defined _output_dof_vel && bool_decide (0 < numel _output_dof_vel)%Z
       then x ← item (output_dof_vel rl) (Z.of_nat i); write_dq i x c
       else Some c);
  kp ← item (rl_kp (params rl)) (Z.of_nat i);
  c ← write_kp i kp c;
  kd ← item (rl_kd (params rl)) (Z.of_nat i);
  c ← write_kd i kd c;
  write_tau i 0 c.

(** [run] of both learned states. *)
Definition learned_run (rl : RL) : option RL :=
  let rl := print (InfoRLController (ctl_x (control rl)) (ctl_y (control rl))
                     (ctl_yaw (control rl))) rl in
  match try_pop (output_dof_pos_queue rl) with
  | None => Some rl
  | Some (_output_dof_pos, rest) =>
      let rl := set_output_dof_pos_queue rest rl in
      match try_pop (output_dof_vel_queue rl) with
      | None => Some rl
      | Some (_output_dof_vel, rest) =>
          let rl := set_output_dof_vel_queue rest rl in
          c ← for_dofs (num_of_dofs (params rl))
                (learned_body rl _output_dof_pos _output_dof_vel)
                (motor_command (robot_command rl));
          Some (set_robot_command (mkRobotCommand c) rl)
      end
  end.

(** The chain of comparisons of [checkChange] of both learned states. *)
Definition learned_checkChange (_stateName : string) (rl : RL) : string :=
  if decide (control_state (control rl) = STATE_POS_GETDOWN)
  then "RLFSMStateGetDown"
  else if decide (control_state (control rl) = STATE_POS_GETUP)
  then "RLFSMStateGetUp"
  else if decide (control_state (control rl) = STATE_RL_LOCOMOTION)
  then "RLFSMStateRL_Locomotion"
  else if decide (control_state (control rl) = STATE_RL_NAVIGATION)
  then "RLFSMStateRL_Navigation"
  else if decide (control_state (control rl) = STATE_WAITING)
  then "RLFSMStateWaiting"
  else _stateName.

Module RLFSMStateRL_Locomotion.

Definition _stateName : string := "RLFSMStateRL_Locomotion".
Definition enter (env : Env) (rl : RL) : RL := learned_enter env rl.
Definition run (rl : RL) : option RL := learned_run rl.
Definition checkChange (rl : RL) : string := learned_checkChange _stateName rl.
Definition exit (rl : RL) : RL := set_rl_init_done false rl.

End RLFSMStateRL_Locomotion.

Module RLFSMStateRL_Navigation.

Definition _stateName : string := "RLFSMStateRL_Navigation".
Definition enter (env : Env) (rl : RL) : RL := learned_enter env rl.
Definition run (rl : RL) : option RL := learned_run rl.
Definition checkChange (rl : RL) : string := learned_checkChange _stateName rl.
Definition exit (rl : RL) : RL := set_rl_init_done false rl.

End RLFSMStateRL_Navigation.

(** ** Virtual dispatch over the five registered states *)

Inductive StateId :=
| Waiting
| GetUp
| GetDown
| RL_Locomotion
| RL_Navigation.

Global Instance StateId_eq_dec : EqDecision StateId.
Proof. solve_decision. Defined.

Definition getStateName (s : StateId) : string :=
  match s with
  | Waiting => RLFSMStateWaiting._stateName
  | GetUp => RLFSMStateGetUp._stateName
  | GetDown => RLFSMStateGetDown._stateName
  | RL_Locomotion => RLFSMStateRL_Locomotion._stateName
  | RL_Navigation => RLFSMStateRL_Navigation._stateName
  end.

Definition state_enter (env : Env) (s : StateId) (rl : RL) : RL :=
  match s with
  | Waiting => RLFSMStateWaiting.enter rl
  | GetUp => RLFSMStateGetUp.enter rl
  | GetDown => RLFSMStateGetDown.enter rl
  | RL_Locomotion => RLFSMStateRL_Locomotion.enter env rl
  | RL_Navigation => RLFSMStateRL_Navigation.enter env rl
  end.

Definition state_run (s : StateId) (rl : RL) : option RL :=
  match s with
  | Waiting => RLFSMStateWaiting.run rl
  | GetUp => RLFSMStateGetUp.run rl
  | GetDown => RLFSMStateGetDown.run rl
  | RL_Locomotion => RLFSMStateRL_Locomotion.run rl
  | RL_Navigation => RLFSMStateRL_Navigation.run rl
  end.

Definition state_checkChange (s : StateId) (rl : RL) : string :=
  match s with
  | Waiting => RLFSMStateWaiting.checkChange rl
  | GetUp => RLFSMStateGetUp.checkChange rl
  | GetDown => RLFSMStateGetDown.checkChange rl
  | RL_Locomotion => RLFSMStateRL_Locomotion.checkChange rl
  | RL_Navigation => RLFSMStateRL_Navigation.checkChange rl
  end.

Definition state_exit (s : StateId) (rl : RL) : RL :=
  match s with
  | Waiting => RLFSMStateWaiting.exit rl
  | GetUp => RLFSMStateGetUp.exit rl
  | GetDown => RLFSMStateGetDown.exit rl
  | RL_Locomotion => RLFSMStateRL_Locomotion.exit rl
  | RL_Navigation => RLFSMStateRL_Navigation.exit rl
  end.

(** ** Traces

    The class that calls [enter], [run], [checkChange] and [exit] is declared
    in a header that is not part of the sources, so no particular calling
    order is assumed: a trace is any sequence of handler calls, interleaved
    with what the other tasks do to the shared data ([GetState] storing a
    new sensor reading, the input task storing a new control target). *)

Inductive Event :=
| Sense (st : RobotState)
| Operator (c : Control)
| Enter (s : StateId)
| Run (s : StateId)
| Exit (s : StateId).

Definition exec (env : Env) (e : Event) (rl : RL) : option RL :=
  match e with
  | Sense st => Some (set_robot_state st rl)
  | Operator c => Some (set_control c rl)
  | Enter s => Some (state_enter env s rl)
  | Run s => state_run s rl
  | Exit s => Some (state_exit s rl)
  end.

Fixpoint execs (env : Env) (es : list Event) (rl : RL) : option RL :=
  match es with
  | [] => Some rl
  | e :: es' => rl' ← exec env e rl; execs env es' rl'
  end.

(** What can happen while state [s] stays active: ticks of [s], sensor
    readings and operator input. *)
Definition during (s : StateId) (e : Event) : Prop :=
  match e with
  | Sense _ | Operator _ => True
  | Run s' => s' = s
  | Enter _ | Exit _ => False
  end.

Definition is_run (e : Event) : bool :=
  match e with Run _ => true | _ => false end.

(** The number of ticks in a trace. *)
Fixpoint runs (es : list Event) : nat :=
  match es with
  | [] => 0
  | e :: es' => (if is_run e then 1 else 0) + runs es'
  end.

(** ** The transition table of the specification

    Section 4.5, with Idle, StandUp, SitDown, Locomotion and Navigation
    standing for [Waiting], [GetUp], [GetDown], [RL_Locomotion] and
    [RL_Navigation]. *)

(** The mode a request asks for; the two simulation requests ask for none. *)
Definition requested_mode (request : STATE) : option StateId :=
  match request with
  | STATE_WAITING => Some Waiting
  | STATE_POS_GETUP => Some GetUp
  | STATE_POS_GETDOWN => Some GetDown
  | STATE_RL_LOCOMOTION => Some RL_Locomotion
  | STATE_RL_NAVIGATION => Some RL_Navigation
  | STATE_RESET_SIMULATION | STATE_TOGGLE_SIMULATION => None
  end.

Definition transition_table (s : StateId) (request : STATE) (progress : Qc)
  : StateId :=
  match s with
  | Waiting =>
      (* if requested mode = StandUp, StandUp; else remain *)
      match requested_mode request with
      | Some GetUp => GetUp
      | _ => Waiting
      end
  | GetUp =>
      (* only once progress >= 1: to Locomotion, Navigation, SitDown or Idle
         per requested mode; otherwise remain *)
      if decide (1 ≤ progress) then
        match requested_mode request with
        | Some RL_Locomotion => RL_Locomotion
        | Some RL_Navigation => RL_Navigation
        | Some GetDown => GetDown
        | Some Waiting => Waiting
        | _ => GetUp
        end
      else GetUp
  | GetDown =>
      (* progress >= 1: Idle; requested mode = StandUp: StandUp; else remain *)
      if decide (1 ≤ progress) then Waiting
      else match requested_mode request with
           | Some GetUp => GetUp
           | _ => GetDown
           end
  | RL_Locomotion | RL_Navigation =>
      (* immediate, to the requested mode, the current one included *)
      match requested_mode request with
      | Some m => m
      | None => s
      end
  end.

(** ** Size conditions and the closed form of the per-DOF loops *)

(** The number of iterations of [for (int i = 0; i < num_of_dofs; ++i)]. *)
Definition dofs (rl : RL) : nat := Z.to_nat (num_of_dofs (params rl)).

(** The tensor is defined and has at least [n] columns. *)
Definition tensor_covers (n : nat) (t : Tensor) : Prop :=
  match t with Undefined => False | Row l => (n ≤ length l)%nat end.

(** Each of the five command vectors has at least [n] entries. *)
Definition command_covers (n : nat) (c : MotorCommand) : Prop :=
  (n ≤ length (mc_q c) ∧ n ≤ length (mc_dq c) ∧ n ≤ length (mc_tau c)
   ∧ n ≤ length (mc_kp c) ∧ n ≤ length (mc_kd c))%nat.

Definition put (i : nat) (x : option Qc) (l : list Qc) : list Qc :=
  match x with Some v => <[i := v]> l | None => l end.

(** [l] with entry [j] replaced by [f j], where given, for every [j < n]. *)
Definition prefix (n : nat) (f : nat → option Qc) (l : list Qc) : list Qc :=
  imap (λ j x, if decide (j < n)%nat then default x (f j) else x) l.

(** What one pass of a loop body writes at index [i]. *)
Definition dof_write (fq fdq ftau fkp fkd : nat → option Qc) (i : nat)
  (c : MotorCommand) : MotorCommand :=
  mkMotorCommand (put i (fq i) (mc_q c)) (put i (fdq i) (mc_dq c))
    (put i (ftau i) (mc_tau c)) (put i (fkp i) (mc_kp c)) (put i (fkd i) (mc_kd c)).

(** What the whole loop over [n] DOFs leaves. *)
Definition dof_prefix (fq fdq ftau fkp fkd : nat → option Qc) (n : nat)
  (c : MotorCommand) : MotorCommand :=
  mkMotorCommand (prefix n fq (mc_q c)) (prefix n fdq (mc_dq c))
    (prefix n ftau (mc_tau c)) (prefix n fkp (mc_kp c)) (prefix n fkd (mc_kd c)).

(** The position [GetUp::run] commands for DOF [i]. *)
Definition getup_q (rl : RL) (i : nat) : option Qc :=
  x ← ms_q (motor_state (now_state rl)) !! i;
  d ← item (default_dof_pos (params rl)) (Z.of_nat i);
  Some ((1 - running_percent rl) * x + running_percent rl * d).

(** The position [GetDown::run] commands for DOF [i]. *)
Definition getdown_q (rl : RL) (i : nat) : option Qc :=
  x ← ms_q (motor_state (now_state rl)) !! i;
  y ← ms_q (motor_state (start_state rl)) !! i;
  Some ((1 - running_percent rl) * x + running_percent rl * y).

(** Everything [GetUp::run] subscripts has an entry for every DOF. *)
Definition getup_ready (rl : RL) : Prop :=
  (dofs rl ≤ length (ms_q (motor_state (now_state rl))))%nat
  ∧ tensor_covers (dofs rl) (default_dof_pos (params rl))
  ∧ tensor_covers (dofs rl) (fixed_kp (params rl))
  ∧ tensor_covers (dofs rl) (fixed_kd (params rl))
  ∧ command_covers (dofs rl) (motor_command (robot_command rl)).

(** Everything [GetDown::run] subscripts has an entry for every DOF. *)
Definition getdown_ready (rl : RL) : Prop :=
  (dofs rl ≤ length (ms_q (motor_state (now_state rl))))%nat
  ∧ (dofs rl ≤ length (ms_q (motor_state (start_state rl))))%nat
  ∧ tensor_covers (dofs rl) (fixed_kp (params rl))
  ∧ tensor_covers (dofs rl) (fixed_kd (params rl))
  ∧ command_covers (dofs rl) (motor_command (robot_command rl)).

Definition ramp_ready (s : StateId) (rl : RL) : Prop :=
  match s with
  | GetUp => getup_ready rl
  | GetDown => getdown_ready rl
  | _ => False
  end.

(** The two assignments to [running_percent] of a ramp tick. *)
Definition advance (rl : RL) : RL :=
  set_running_percent
    (Qcmin (Binary32.add (running_percent rl) Binary32.step) 1) rl.

(** The counter after one [run] of a ramp state. *)
Definition ramp (p : Qc) : Qc :=
  if decide (p < 1) then Qcmin (Binary32.add p Binary32.step) 1 else p.

(** The counter [n] ticks after entry. *)
Definition ramp_value (n : nat) : Qc := Nat.iter n ramp 0.

(** The first [n] values of the counter from [p] on, in order. *)
Fixpoint ramp_trajectory (n : nat) (p : Qc) : list Qc :=
  match n with
  | O => []
  | S n' => p :: ramp_trajectory n' (ramp p)
  end.

(** The counter after 500 ticks: [0x3f7fff9f] as a [float]. *)
Definition after_500_ticks : Qc := Q2Qc (16777119 # 16777216).

(** Single precision carries 24 bits: [2^-24]. *)
Definition ulp_24 : Qc := Q2Qc (1 # 16777216).

(** What holds of the counter [p] that [k] ticks have left, for the ticks
    up to the one that completes the ramp: it is the value of the float
    counter; it lies in [0, 1] and the next tick does not lower it; it is
    below 1 exactly up to tick 500, and 0 only before the first tick; and
    each of the first 500 ticks adds 1/500 to within [2^-24]. *)
Definition ramp_tick_ok (k : nat) (p : Qc) : bool :=
  Qc_eq_bool p (Binary32.value (Binary32.progress k))
  && bool_decide (0 ≤ p) && bool_decide (p ≤ 1) && bool_decide (p ≤ ramp p)
  && eqb (bool_decide (p < 1)) (bool_decide (k ≤ 500)%nat)
  && (bool_decide (k = 0%nat) || negb (Qc_eq_bool p 0))
  && (bool_decide (500 ≤ k)%nat
      || bool_decide (Qcabs (ramp p - p - 1 / dec 500 1) ≤ ulp_24)).

(** [check] holds of each of the first [n] values of the counter. *)
Definition ramp_holds (check : nat → Qc → bool) (n : nat) : bool :=
  forallb (λ kp, check (fst kp) (snd kp)) (imap pair (ramp_trajectory n 0)).

(** The commanded positions follow the SitDown interpolation. *)
Definition sitdown_tracks (rl : RL) : Prop :=
  ∀ i, (i < dofs rl)%nat →
       is_Some (getdown_q rl i)
       ∧ mc_q (motor_command (robot_command rl)) !! i = getdown_q rl i.

Definition outcome_state (r : Exceptional) : RL :=
  match r with Normal rl => rl | Raised _ rl => rl end.

(** ** The learned tick as the specification words it *)

(** A popped tensor that carries a value: [t.defined() && t.numel() > 0]. *)
Definition usable (t : Tensor) : bool := defined t && bool_decide (0 < numel t)%Z.

(** Section 4.5: try to pop the position and the velocity target, each on
    its own; for each DOF overwrite only the fields for which a value was
    available this tick; gains are the learned-mode gains, torque is 0. *)
Definition per_field_tick (rl : RL) : option RL :=
  let rl := print (InfoRLController (ctl_x (control rl)) (ctl_y (control rl))
                     (ctl_yaw (control rl))) rl in
  let popped_pos := try_pop (output_dof_pos_queue rl) in
  let popped_vel := try_pop (output_dof_vel_queue rl) in
  let rl := match popped_pos with
            | Some (_, rest) => set_output_dof_pos_queue rest rl
            | None => rl
            end in
  let rl := match popped_vel with
            | Some (_, rest) => set_output_dof_vel_queue rest rl
            | None => rl
            end in
  c ← for_dofs (num_of_dofs (params rl))
        (learned_body rl (from_option fst Undefined popped_pos)
           (from_option fst Undefined popped_vel))
        (motor_command (robot_command rl));
  Some (set_robot_command (mkRobotCommand c) rl).

(** Everything the loop of the learned [run] subscripts has an entry for
    every DOF, given the two popped tensors. *)
Definition learned_ready (rl : RL) (popped_pos popped_vel : Tensor) : Prop :=
  (usable popped_pos = true → tensor_covers (dofs rl) (output_dof_pos rl))
  ∧ (usable popped_vel = true → tensor_covers (dofs rl) (output_dof_vel rl))
  ∧ tensor_covers (dofs rl) (rl_kp (params rl))
  ∧ tensor_covers (dofs rl) (rl_kd (params rl))
  ∧ command_covers (dofs rl) (motor_command (robot_command rl)).

(** What the learned [run] writes for DOF [i], given the popped tensors. *)
Definition learned_q (rl : RL) (popped : Tensor) (i : nat) : option Qc :=
  if usable popped then item (output_dof_pos rl) (Z.of_nat i) else None.

Definition learned_dq (rl : RL) (popped : Tensor) (i : nat) : option Qc :=
  if usable popped then item (output_dof_vel rl) (Z.of_nat i) else None.

(** One of the two hand-off queues has nothing to pop. *)
Definition starved (rl : RL) : Prop :=
  output_dof_pos_queue rl = [] ∨ output_dof_vel_queue rl = [].

(** ** Observation terms *)

(** The term names section 4.1 lists. *)
Definition recognized_terms : list string :=
  ["lin_vel"; "ang_vel_body"; "ang_vel_world"; "gravity_vec"; "commands";
   "dof_pos"; "dof_vel"; "actions"; "phase"; "g1_phase"].

Definition recognized (name : string) : bool :=
  bool_decide (name ∈ recognized_terms).

(** The controller with another term list. *)
Definition with_observations (names : list string) (rl : RL) : RL :=
  set_params (set_observations names (params rl)) rl.

(** ** Quaternion conventions and the rotation formula of section 4.1 *)

Definition vec3 : Type := Qc * Qc * Qc.

Definition vscale (k : Qc) (v : vec3) : vec3 :=
  let '(v1, v2, v3) := v in (k * v1, k * v2, k * v3).

Definition vadd (a b : vec3) : vec3 :=
  let '(a1, a2, a3) := a in let '(b1, b2, b3) := b in (a1 + b1, a2 + b2, a3 + b3).

Definition vsub (a b : vec3) : vec3 :=
  let '(a1, a2, a3) := a in let '(b1, b2, b3) := b in (a1 - b1, a2 - b2, a3 - b3).

Definition vcross (a b : vec3) : vec3 :=
  let '(a1, a2, a3) := a in
  let '(b1, b2, b3) := b in
  (a2 * b3 - a3 * b2, a3 * b1 - a1 * b3, a1 * b2 - a2 * b1).

Definition vdot (a b : vec3) : Qc :=
  let '(a1, a2, a3) := a in let '(b1, b2, b3) := b in a1 * b1 + a2 * b2 + a3 * b3.

Definition vrow (v : vec3) : Tensor := let '(v1, v2, v3) := v in Row [v1; v2; v3].

(** out = v (2 w^2 - 1) - 2 w (q_vec x v) + 2 q_vec (q_vec . v) *)
Definition inverse_rotation (w : Qc) (q_vec v : vec3) : vec3 :=
  vadd (vsub (vscale (2 * (w * w) - 1) v) (vscale (2 * w) (vcross q_vec v)))
    (vscale (2 * vdot q_vec v) q_vec).

(** Scalar first for isaacsim, scalar last for isaacgym. *)
Definition scalar_and_vector (framework : string) (q0 q1 q2 q3 : Qc)
  : option (Qc * vec3) :=
  if decide (framework = "isaacsim") then Some (q0, (q1, q2, q3))
  else if decide (framework = "isaacgym") then Some (q3, (q0, q1, q2))
  else None.


(** ** The safety checks as section 4.4 words them *)

(** One warning per DOF whose torque magnitude exceeds its limit, with the
    one-based index, the value and the two bounds. *)
Definition torque_warning (tau limits : list Qc) (i : nat) : list LogLine :=
  match tau !! i, limits !! i with
  | Some t, Some l =>
      if decide (l < Qcabs t)
      then [WarningTorque (Z.of_nat i + 1) t (- l) l] else []
  | _, _ => []
  end.

Definition torque_warnings (tau limits : list Qc) : list LogLine :=
  mjoin (map (torque_warning tau limits) (seq 0 (length tau))).

Definition spec_roll (env : Env) (w x y z : Qc) : Qc :=
  atan2 env (2 * (w * x + y * z)) (1 - 2 * (x * x + y * y)) * rad2deg.

Definition spec_pitch (env : Env) (w x y z : Qc) : Qc :=
  let sinp := 2 * (w * y - z * x) in
  if decide (1 ≤ Qcabs sinp) then
    if decide (sinp < 0) then - dec 90 1 else dec 90 1
  else asin env sinp * rad2deg.

Definition attitude_warnings (pitch_threshold roll_threshold roll pitch : Qc)
  : list LogLine :=
  (if decide (roll_threshold < Qcabs roll)
   then [WarningRoll roll_threshold roll] else [])
  ++ (if decide (pitch_threshold < Qcabs pitch)
      then [WarningPitch pitch_threshold pitch] else []).

(** What the first loop of [TorqueProtect] records at index [i]. *)
Definition found_at (tau limits : list Qc) (i : nat) : list (Z * Qc) :=
  match tau !! i, limits !! i with
  | Some t, Some l =>
      if decide (t < - l ∨ l < t) then [(Z.of_nat i, t)] else []
  | _, _ => []
  end.

(** ** A two-DOF robot

    The robot of the end-to-end example of section 8: measured position
    [0.5, -0.3], default pose [0, 0]; DOF 1 is a wheel. *)
Module Sample.

Definition params0 : ModelParams :=
  {| model_name := "policy.pt";
     framework := "isaacgym";
     dt := dec 2 1000;
     decimation := 4;
     num_observations := 15;
     observations :=
       ["ang_vel"; "gravity_vec"; "commands"; "dof_pos"; "dof_vel"; "actions"];
     observations_history := [];
     clip_obs := dec 100 1;
     clip_actions_lower := Row [];
     clip_actions_upper := Row [];
     action_scale := Row [dec 1 4; dec 1 4];
     wheel_indices := [1%Z];
     num_of_dofs := 2;
     lin_vel_scale := dec 2 1;
     ang_vel_scale := dec 1 4;
     dof_pos_scale := 1;
     dof_vel_scale := dec 5 100;
     commands_scale := Row [dec 2 1; dec 2 1; dec 1 4];
     rl_kp := Row [dec 20 1; dec 20 1];
     rl_kd := Row [dec 1 2; dec 1 2];
     fixed_kp := Row [dec 80 1; dec 80 1];
     fixed_kd := Row [dec 3 1; dec 3 1];
     torque_limits := Row [dec 10 1; dec 10 1];
     default_dof_pos := Row [0; 0];
     joint_controller_names := ["hip"; "wheel"];
     command_mapping := [0%Z; 1%Z];
     state_mapping := [0%Z; 1%Z] |}.

Definition obs0 : Observations :=
  {| lin_vel := Row [0; 0; 0];
     ang_vel := Row [0; 0; 0];
     gravity_vec := Row [0; 0; - (1)];
     commands := Row [0; 0; 0];
     base_quat := Row [0; 0; 0; 1];
     dof_pos := Row [dec 1 2; dec (-3) 10];
     dof_vel := Row [dec 1 1; dec (-2) 1];
     actions := Row [0; 0] |}.

Definition measured : RobotState :=
  {| imu := {| quaternion := [0; 0; 0; 1]; gyroscope := [0; 0; 0] |};
     motor_state := {| ms_q := [dec 1 2; dec (-3) 10];
                       ms_dq := [0; 0];
                       ms_tau_est := [0; 0] |} |}.

(** The reading once the robot stands in its default pose. *)
Definition standing : RobotState :=
  {| imu := {| quaternion := [0; 0; 0; 1]; gyroscope := [0; 0; 0] |};
     motor_state := {| ms_q := [0; 0];
                       ms_dq := [0; 0];
                       ms_tau_est := [0; 0] |} |}.

Definition command0 : RobotCommand :=
  {| motor_command := {| mc_q := [dec 1 2; dec (-3) 10];
                         mc_dq := [0; 0];
                         mc_tau := [0; 0];
                         mc_kp := [dec 80 1; dec 80 1];
                         mc_kd := [dec 3 1; dec 3 1] |} |}.

Definition rl0 : RL :=
  {| params := params0;
     obs := obs0;
     control := mkControl STATE_WAITING 0 0 0;
     running_percent := 0;
     now_state := measured;
     start_state := measured;
     rl_init_done := false;
     robot_name := "go2w";
     config_name := "";
     default_rl_config := "robot_lab";
     is_simulation := false;
     episode_length_buf := 0;
     model := None;
     history_obs_buf := None;
     output_dof_pos := Row [dec 1 10; 0];
     output_dof_vel := Row [0; dec 3 1];
     output_dof_tau := Row [0; 0];
     output_dof_pos_queue := [];
     output_dof_vel_queue := [];
     output_dof_tau_queue := [];
     robot_state := measured;
     robot_command := command0;
     stdout := [] |}.

(** Standing, with Locomotion requested by the operator. *)
Definition locomotion_requested : RL :=
  set_control (mkControl STATE_RL_LOCOMOTION 0 0 0) rl0.

(** The position target has arrived, the velocity target has not. *)
Definition half_fed : RL :=
  set_output_dof_pos_queue [Row [dec 1 10; 0]] rl0.

(** Both targets have arrived. *)
Definition fed : RL :=
  set_output_dof_vel_queue [Row [0; dec 3 1]] half_fed.

(** The velocity target has arrived, the position target has not. *)
Definition velocity_only : RL :=
  set_output_dof_vel_queue [Row [0; dec 3 1]] rl0.

(** A profile naming an observation term that does not exist. *)
Definition misspelt : ModelParams :=
  set_observations ["dof_pos"; "dof_velocity"; "actions"] params0.

(** Stand-ins for the transcendental functions, to run the code on. *)
Definition env_with (yaml : string → string → YamlLoad) (jit : string → JitLoad)
  : Env :=
  {| CMAKE_CURRENT_SOURCE_DIR := "/rl_sar";
     yaml_load := yaml;
     jit_load := jit;
     sin := λ x, x;
     cos := λ _, 1;
     atan2 := λ y _, y;
     asin := λ x, x |}.

(** The profile loads and so does the policy. *)
Definition env0 : Env := env_with (λ _ _, YamlNode params0) JitModule.

(** The policy file cannot be loaded. *)
Definition env_no_policy : Env :=
  env_with (λ _ _, YamlNode params0) (λ _, JitException "open file failed").

(** There is no profile file; the policy loads. *)
Definition env_no_profile : Env := env_with (λ _ _, YamlBadFile) JitModule.

(** The profile with the misspelt term loads, and so does the policy. *)
Definition env_misspelt : Env := env_with (λ _ _, YamlNode misspelt) JitModule.

(** Locomotion entered with the misspelt profile. *)
Definition entered_misspelt : RL :=
  state_enter env_misspelt RL_Locomotion locomotion_requested.

(** Locomotion entered without a profile file. *)
Definition entered_no_profile : RL :=
  state_enter env_no_profile RL_Locomotion locomotion_requested.

(** Locomotion entered without a policy file. *)
Definition entered_no_policy : RL :=
  state_enter env_no_policy RL_Locomotion locomotion_requested.

End Sample.

(** ** The ramps of StandUp and SitDown *)

(** The position a ramp tick commands for DOF [i]. *)
Definition ramp_q (s : StateId) (rl : RL) (i : nat) : option Qc :=
  match s with
  | GetUp => getup_q rl i
  | GetDown => getdown_q rl i
  | _ => None
  end.

(** The five fields of every DOF are as the last ramp tick wrote them. *)
Definition ramp_tracks (s : StateId) (rl : RL) : Prop :=
  ∀ i, (i < dofs rl)%nat →
       let c := motor_command (robot_command rl) in
       is_Some (ramp_q s rl i)
       ∧ mc_q c !! i = ramp_q s rl i
       ∧ mc_dq c !! i = Some 0
       ∧ mc_kp c !! i = item (fixed_kp (params rl)) (Z.of_nat i)
       ∧ mc_kd c !! i = item (fixed_kd (params rl)) (Z.of_nat i)
       ∧ mc_tau c !! i = Some 0.

(** The pose a ramp ends in. *)
Definition ramp_target (s : StateId) (rl : RL) (i : nat) : option Qc :=
  match s with
  | GetUp => item (default_dof_pos (params rl)) (Z.of_nat i)
  | GetDown => ms_q (motor_state (start_state rl)) !! i
  | _ => None
  end.

(** ** What a successful activation leaves *)

(** The observations [InitObservations] stores for [n] DOFs and default
    pose [d]. *)
Definition initial_observations (n : Z) (d : Tensor) : Observations :=
  let z := Row (replicate (Z.to_nat n) 0) in
  mkObservations (Row [0; 0; 0]) (Row [0; 0; 0]) (Row [0; 0; - (1)])
    (Row [0; 0; 0]) (Row [0; 0; 0; 1]) d z z.

(** The file [ReadYamlRL] opens for the robot and profile of [rl]. *)
Definition profile_path (env : Env) (rl : RL) : string :=
  CMAKE_CURRENT_SOURCE_DIR env +:+ "/models/"
    +:+ (robot_name rl +:+ "/" +:+ default_rl_config rl) +:+ "/config.yaml".

(** The file [InitRL] loads the policy [name] from. *)
Definition policy_path (env : Env) (rl : RL) (name : string) : string :=
  CMAKE_CURRENT_SOURCE_DIR env +:+ "/models/"
    +:+ (robot_name rl +:+ "/" +:+ default_rl_config rl) +:+ "/" +:+ name.

(** The allocation of the observation history by [InitRL]. *)
Definition with_history (rl : RL) : RL :=
  match observations_history (params rl) with
  | [] => rl
  | h => set_history_obs_buf
           (Some (1, num_observations (params rl), Z.of_nat (length h)))%Z rl
  end.

(** What [InitRL] leaves once the policy [handle] has loaded. *)
Definition initialised (handle : string) (rl : RL) : RL :=
  let z := Row (replicate (Z.to_nat (num_of_dofs (params rl))) 0) in
  InitControl
    (set_output_dof_vel z
       (set_output_dof_pos (default_dof_pos (params rl))
          (set_output_dof_tau z
             (set_obs (initial_observations (num_of_dofs (params rl))
                         (default_dof_pos (params rl)))
                (set_model (Some handle) rl))))).

(** ** The inference task of [rl_real_go2.cpp]

    [RL_Real::RunModel] runs on its own thread, every [dt * decimation]
    seconds; here one call is one atomic step. *)

Definition set_episode_length_buf (v : Z) (r : RL) : RL :=
  mkRL (params r) (obs r) (control r) (running_percent r) (now_state r)
    (start_state r) (rl_init_done r) (robot_name r) (config_name r)
    (default_rl_config r) (is_simulation r) v (model r) (history_obs_buf r)
    (output_dof_pos r) (output_dof_vel r) (output_dof_tau r)
    (output_dof_pos_queue r) (output_dof_vel_queue r) (output_dof_tau_queue r)
    (robot_state r) (robot_command r) (stdout r).

(** [torch::tensor(v).narrow(0, 0, length)]: throws unless
    [0 <= length <= v.size()]. *)
Definition narrow (v : list Qc) (length_ : Z) : option (list Qc) :=
  if decide (0 ≤ length_ ≤ Z.of_nat (length v))%Z
  then Some (take (Z.to_nat length_) v) else None.

(** What the loaded TorchScript module and the observation history answer
    during one call of [Forward]; neither class is part of the sources.
    [None] stands for an exception. *)
Record Inference := mkInference {
  (* [model.forward({x}).toTensor()] *)
  model_forward : Tensor → option Tensor;
  (* [history_obs_buf.insert(x)] followed by
     [history_obs_buf.get_obs_vec(params.observations_history)] *)
  get_obs_vec : Tensor → option Tensor
}.

(** The two branches of [Forward] that run the policy. *)
Definition infer (inf : Inference) (rl : RL) (clamped_obs : Tensor) : option Tensor :=
  if decide (observations_history (params rl) ≠ []) then
    history_obs ← get_obs_vec inf clamped_obs;
    model_forward inf history_obs
  else model_forward inf clamped_obs.

Definition Forward (env : Env) (inf : Inference) (rl : RL) : option Tensor :=
  clamped_obs ← ComputeObservation env rl;
  actions ← infer inf rl clamped_obs;
  if decide (numel (clip_actions_upper (params rl)) ≠ 0%Z
             ∧ numel (clip_actions_lower (params rl)) ≠ 0%Z)
  then tensor_clamp actions (clip_actions_lower (params rl))
         (clip_actions_upper (params rl))
  else Some actions.

(** Lines 173 to 187 of [RunModel]: the episode counter and the
    observations taken from the robot state and the control target.
    [current] is the name of the state the machine is in; [cmd_vel] is the
    velocity command of the ROS build, absent from a build without ROS. *)
Definition update_observations (current : string) (cmd_vel : option (Qc * Qc * Qc))
  (rl : RL) : option RL :=
  let rl := set_episode_length_buf (episode_length_buf rl + 1) rl in
  let st := robot_state rl in
  let commands' :=
    if decide (current = "RLFSMStateRL_Navigation") then
      match cmd_vel with
      | Some (x, y, z) => Row [x; y; z]
      | None => commands (obs rl)
      end
    else Row [ctl_x (control rl); ctl_y (control rl); ctl_yaw (control rl)] in
  q ← narrow (ms_q (motor_state st)) (num_of_dofs (params rl));
  dq ← narrow (ms_dq (motor_state st)) (num_of_dofs (params rl));
  Some (set_obs
          (mkObservations (lin_vel (obs rl)) (Row (gyroscope (imu st)))
             (gravity_vec (obs rl)) commands' (Row (quaternion (imu st)))
             (Row q) (Row dq) (actions (obs rl))) rl).

(** [if (t.defined() && t.numel() > 0) queue.push(t);] *)
Definition push_if_usable (t : Tensor) (queue : list Tensor) : list Tensor :=
  if defined t && bool_decide (0 < numel t)%Z then queue ++ [t] else queue.

(** Lines 189 to 203 of [RunModel]: the action is stored, decoded and
    handed over. *)
Definition store_outputs (a : Tensor) (rl : RL) : option RL :=
  let o := obs rl in
  let rl := set_obs
              (mkObservations (lin_vel o) (ang_vel o) (gravity_vec o) (commands o)
                 (base_quat o) (dof_pos o) (dof_vel o) a) rl in
  '(pos, vel, tau) ← ComputeOutput rl a;
  let rl := set_output_dof_pos pos rl in
  let rl := set_output_dof_vel vel rl in
  let rl := set_output_dof_tau tau rl in
  let rl := set_output_dof_pos_queue
              (push_if_usable (output_dof_pos rl) (output_dof_pos_queue rl)) rl in
  let rl := set_output_dof_vel_queue
              (push_if_usable (output_dof_vel rl) (output_dof_vel_queue rl)) rl in
  Some (set_output_dof_tau_queue
          (push_if_usable (output_dof_tau rl) (output_dof_tau_queue rl)) rl).

Definition RunModel (env : Env) (inf : Inference) (current : string)
  (cmd_vel : option (Qc * Qc * Qc)) (rl : RL) : option RL :=
  if rl_init_done rl then
    rl ← update_observations current cmd_vel rl;
    a ← Forward env inf rl;
    store_outputs a rl
  else Some rl.

(** The two periodic tasks that share the controller: the control task,
    whose steps are the events of a trace, and the inference task. *)
Inductive Task :=
| Fast (e : Event)
| Slow (inf : Inference) (current : string) (cmd_vel : option (Qc * Qc * Qc)).

Definition perform (env : Env) (t : Task) (rl : RL) : option RL :=
  match t with
  | Fast e => exec env e rl
  | Slow inf current cmd_vel => RunModel env inf current cmd_vel rl
  end.

Fixpoint performs (env : Env) (ts : list Task) (rl : RL) : option RL :=
  match ts with
  | [] => Some rl
  | t :: ts' => rl' ← perform env t rl; performs env ts' rl'
  end.

(** The number of calls of [RunModel] in a schedule that find the learned
    mode initialised is not known in advance; this counts all calls. *)
Fixpoint slow_steps (ts : list Task) : nat :=
  match ts with
  | [] => 0
  | Fast _ :: ts' => slow_steps ts'
  | Slow _ _ _ :: ts' => S (slow_steps ts')
  end.

(** The profile has one entry per action in every row [ComputeOutput]
    combines, and its wheel indices are DOF indices. *)
Definition decodable (rl : RL) (n : nat) : Prop :=
  numel (action_scale (params rl)) = Z.of_nat n
  ∧ numel (default_dof_pos (params rl)) = Z.of_nat n
  ∧ numel (dof_pos (obs rl)) = Z.of_nat n
  ∧ numel (dof_vel (obs rl)) = Z.of_nat n
  ∧ numel (rl_kp (params rl)) = Z.of_nat n
  ∧ numel (rl_kd (params rl)) = Z.of_nat n
  ∧ numel (torque_limits (params rl)) = Z.of_nat n
  ∧ defined (action_scale (params rl)) = true
  ∧ defined (default_dof_pos (params rl)) = true
  ∧ defined (dof_pos (obs rl)) = true
  ∧ defined (dof_vel (obs rl)) = true
  ∧ defined (rl_kp (params rl)) = true
  ∧ defined (rl_kd (params rl)) = true
  ∧ defined (torque_limits (params rl)) = true
  ∧ Forall (λ i, (0 ≤ i < Z.of_nat n)%Z) (wheel_indices (params rl)).

(** ** The hand-off between the two tasks *)

Definition queues (rl : RL) : list Tensor * list Tensor * list Tensor :=
  (output_dof_pos_queue rl, output_dof_vel_queue rl, output_dof_tau_queue rl).

(** As many position targets as velocity targets are waiting. *)
Definition balanced (rl : RL) : Prop :=
  length (output_dof_pos_queue rl) = length (output_dof_vel_queue rl).

(** ** The shape of the observation *)

(** A defined tensor with exactly [n] columns. *)
Definition is_row (t : Tensor) (n : nat) : Prop := ∃ l, t = Row l ∧ length l = n.

(** The number of columns a term contributes for a robot with [n] DOFs. *)
Definition term_width (n : nat) (name : string) : nat :=
  if bool_decide (name ∈ ["lin_vel"; "ang_vel_body"; "ang_vel_world";
                          "gravity_vec"; "commands"]) then 3
  else if bool_decide (name ∈ ["dof_pos"; "dof_vel"; "actions"]) then n
  else if bool_decide (name = "phase") then 6
  else if bool_decide (name = "g1_phase") then 2
  else 0.

(** Every tensor [ComputeObservation] reads has the shape its term needs. *)
Definition observable (rl : RL) (n : nat) : Prop :=
  is_row (lin_vel (obs rl)) 3 ∧ is_row (ang_vel (obs rl)) 3
  ∧ is_row (gravity_vec (obs rl)) 3 ∧ is_row (commands (obs rl)) 3
  ∧ is_row (commands_scale (params rl)) 3 ∧ is_row (base_quat (obs rl)) 4
  ∧ is_row (dof_pos (obs rl)) n ∧ is_row (default_dof_pos (params rl)) n
  ∧ is_row (dof_vel (obs rl)) n ∧ is_row (actions (obs rl)) n
  ∧ (framework (params rl) = "isaacsim" ∨ framework (params rl) = "isaacgym")
  ∧ Forall (λ i, (0 ≤ i < Z.of_nat n)%Z) (wheel_indices (params rl)).

(** ** The robot side of [rl_real_go2.cpp]

    [unitree_low_state], [unitree_low_command] and [joystick] are message
    types of the robot's SDK; they appear here with the fields the two
    source files read and write. *)

Record MotorReading := mkMotorReading {
  mr_q : Qc;
  mr_dq : Qc;
  mr_tau_est : Qc
}.

Record LowState := mkLowState {
  imu_quaternion : list Qc;   (* w, x, y, z *)
  imu_gyroscope : list Qc;
  low_motor_state : list MotorReading
}.

Record Joystick := mkJoystick {
  joy_lx : Qc;
  joy_ly : Qc;
  joy_rx : Qc;
  joy_R1 : bool;
  joy_R2 : bool;
  joy_L2 : bool
}.

Record MotorCmd := mkMotorCmd {
  cmd_mode : Z;
  cmd_q : Qc;
  cmd_dq : Qc;
  cmd_kp : Qc;
  cmd_kd : Qc;
  cmd_tau : Qc
}.

(** [a[i]] with an [int] subscript. *)
Definition at_index {A : Type} (a : list A) (i : Z) : option A :=
  if decide (0 ≤ i)%Z then a !! Z.to_nat i else None.

(** Lines 100 to 115 of [GetState]: the velocity intent and the mode the
    buttons request. *)
Definition read_controls (joy : Joystick) (c : Control) : Control :=
  let c := mkControl (control_state c) (joy_ly joy) (- joy_lx joy) (- joy_rx joy) in
  if joy_R2 joy then SetControlState STATE_POS_GETUP c
  else if joy_R1 joy then SetControlState STATE_RL_LOCOMOTION c
  else if joy_L2 joy then SetControlState STATE_POS_GETDOWN c
  else c.

(** Lines 117 to 130 of [GetState]. *)
Definition read_quaternion (framework : string) (reported q : list Qc)
  : option (list Qc) :=
  if decide (framework = "isaacgym") then
    w ← reported !! 0%nat; q ← vec_set 3 w q;
    x ← reported !! 1%nat; q ← vec_set 0 x q;
    y ← reported !! 2%nat; q ← vec_set 1 y q;
    z ← reported !! 3%nat; vec_set 2 z q
  else if decide (framework = "isaacsim") then
    w ← reported !! 0%nat; q ← vec_set 0 w q;
    x ← reported !! 1%nat; q ← vec_set 1 x q;
    y ← reported !! 2%nat; q ← vec_set 2 y q;
    z ← reported !! 3%nat; vec_set 3 z q
  else Some q.

(** Lines 132 to 135 of [GetState]. *)
Definition read_gyroscope (reported g : list Qc) : option (list Qc) :=
  for_each (λ i g, x ← reported !! i; vec_set i x g) (seq 0 3) g.

(** Body of the loop of lines 136 to 141 of [GetState]. *)
Definition read_motor (rl : RL) (low : LowState) (i : nat) (ms : MotorState)
  : option MotorState :=
  m ← state_mapping (params rl) !! i;
  r ← at_index (low_motor_state low) m;
  q ← vec_set i (mr_q r) (ms_q ms);
  dq ← vec_set i (mr_dq r) (ms_dq ms);
  tau_est ← vec_set i (mr_tau_est r) (ms_tau_est ms);
  Some (mkMotorState q dq tau_est).

Definition GetState (low : LowState) (joy : Joystick) (rl : RL) : option RL :=
  let rl := set_control (read_controls joy (control rl)) rl in
  let st := robot_state rl in
  q ← read_quaternion (framework (params rl)) (imu_quaternion low)
        (quaternion (imu st));
  g ← read_gyroscope (imu_gyroscope low) (gyroscope (imu st));
  ms ← for_dofs (num_of_dofs (params rl)) (read_motor rl low) (motor_state st);
  Some (set_robot_state (mkRobotState (mkImu q g) ms) rl).

(** Body of the loop of [SetCommand]. *)
Definition send_motor (rl : RL) (command : RobotCommand) (i : nat)
  (motor_cmd : list MotorCmd) : option (list MotorCmd) :=
  let c := motor_command command in
  j ← command_mapping (params rl) !! i;
  q ← at_index (mc_q c) j;
  dq ← at_index (mc_dq c) j;
  kp ← at_index (mc_kp c) j;
  kd ← at_index (mc_kd c) j;
  tau ← at_index (mc_tau c) j;
  if decide (i < length motor_cmd)%nat
  then Some (<[i := mkMotorCmd 1 q dq kp kd tau]> motor_cmd)
  else None.

(** The motor commands [SetCommand] leaves in [unitree_low_command]; the
    checksum it then stores is [Crc32Core] of the message as it lies in
    memory, and the message is published. *)
Definition SetCommand (rl : RL) (command : RobotCommand) (motor_cmd : list MotorCmd)
  : option (list MotorCmd) :=
  for_dofs (num_of_dofs (params rl)) (send_motor rl command) motor_cmd.

(** [QueryServiceName] *)
Definition QueryServiceName (form name : string) : string :=
  if decide (form = "0") then
    if decide (name = "normal") then "sport_mode"
    else if decide (name = "ai") then "ai_sport"
    else if decide (name = "advanced") then "advanced_sport"
    else ""
  else
    if decide (name = "ai-w") then "wheeled_sport(go2W)"
    else if decide (name = "normal-w") then "wheeled_sport(b2W)"
    else "".

(** The two-DOF robot with its two motors wired in the opposite order. *)
Module Crossed.

Definition rl : RL :=
  set_params
    (mkModelParams "policy.pt" "isaacgym" (dec 2 1000) 4 15
       ["dof_pos"; "actions"] [] (dec 100 1) (Row []) (Row [])
       (Row [dec 1 4; dec 1 4]) [1%Z] 2 (dec 2 1) (dec 1 4) 1 (dec 5 100)
       (Row [dec 2 1; dec 2 1; dec 1 4]) (Row [dec 20 1; dec 20 1])
       (Row [dec 1 2; dec 1 2]) (Row [dec 80 1; dec 80 1]) (Row [dec 3 1; dec 3 1])
       (Row [dec 10 1; dec 10 1]) (Row [0; 0]) ["hip"; "wheel"] [1%Z; 0%Z]
       [1%Z; 0%Z]) Sample.rl0.

Definition low : LowState :=
  mkLowState [dec 3 5; 0; dec 4 5; 0] [0; 0; 0]
    [mkMotorReading (dec 7 1) 0 0; mkMotorReading (dec 9 1) 0 0].

Definition joy : Joystick := mkJoystick 0 0 0 false false false.

(** Three motor slots, of which the robot uses two. *)
Definition slots : list MotorCmd :=
  [mkMotorCmd 0 0 0 0 0 0; mkMotorCmd 0 0 0 0 0 0; mkMotorCmd 0 0 0 0 0 0].

End Crossed.

(** The squared length of a row of three numbers. *)
Definition norm2 (v : list Qc) : Qc := foldr (λ x acc, x * x + acc) 0 v.

(** ** The checksum of the command message

    [RL_Real::Crc32Core] on [uint32_t] values: an integer with the
    wrap-around of the left shift written out. *)
Section Crc32.
Local Open Scope Z_scope.

(** The value an [unsigned int] keeps of [z]. *)
Definition u32 (z : Z) : Z := z mod 2 ^ 32.

Definition dwPolynomial : Z := 0x04c11db7.

(** One pass through the loop over [bits]: the new [CRC32] and [xbit]. *)
Definition crc_bit (data : Z) (st : Z * Z) : Z * Z :=
  let '(CRC32, xbit) := st in
  let CRC32 :=
    if decide (Z.land CRC32 0x80000000 ≠ 0)
    then Z.lxor (u32 (Z.shiftl CRC32 1)) dwPolynomial
    else u32 (Z.shiftl CRC32 1) in
  let CRC32 :=
    if decide (Z.land data xbit ≠ 0) then Z.lxor CRC32 dwPolynomial else CRC32 in
  (CRC32, Z.shiftr xbit 1).

(** One pass through the loop over [i]. *)
Definition crc_word (CRC32 data : Z) : Z :=
  fst (Nat.iter 32 (crc_bit data) (CRC32, u32 (Z.shiftl 1 31))).

(** [Crc32Core(ptr, len)]; reading past the end of [ptr] has no defined
    result. *)
Definition Crc32Core (ptr : list Z) (len : nat) : option Z :=
  if decide (len ≤ length ptr)%nat
  then Some (fold_left crc_word (take len ptr) 0xFFFFFFFF)
  else None.

(** The shift-and-reduce step of one bit. *)
Definition crc_shift (s : Z) : Z :=
  if Z.testbit s 31 then Z.lxor (u32 (Z.shiftl s 1)) dwPolynomial
  else u32 (Z.shiftl s 1).

(** The step of one bit, given the data bit. *)
Definition crc_feed (b : bool) (s : Z) : Z :=
  if b then Z.lxor (crc_shift s) dwPolynomial else crc_shift s.

(** The state after the [n] most significant bits of [data]. *)
Fixpoint crc_prefix (data s : Z) (n : nat) : Z :=
  match n with
  | O => s
  | S n' => crc_feed (Z.testbit data (31 - Z.of_nat n')) (crc_prefix data s n')
  end.

(** A value of an [unsigned int]. *)
Definition is_u32 (z : Z) : Prop := 0 ≤ z < 2 ^ 32.

End Crc32.

(** ** The keyboard *)

(** The value [fgetc] returns for the character in a one-character
    string, and for a line feed. *)
Definition char (s : string) : Z :=
  match s with
  | String a _ => Z.of_nat (Ascii.nat_of_ascii a)
  | EmptyString => 0
  end.

Definition line_feed : Z := 10.

(** [KeyboardInterface], given what [kbhit()] answers and what
    [fgetc(stdin)] would return. *)
Definition KeyboardInterface (kbhit : bool) (c : Z) (rl : RL) : RL :=
  if kbhit then
    let ctl := control rl in
    if decide (c = char "0") then
      set_control (SetControlState STATE_POS_GETUP ctl) rl
    else if decide (c = char "p") then
      set_control (SetControlState STATE_RL_LOCOMOTION ctl) rl
    else if decide (c = char "n") then
      set_control (SetControlState STATE_RL_NAVIGATION ctl) rl
    else if decide (c = char "1") then
      set_control (SetControlState STATE_POS_GETDOWN ctl) rl
    else if decide (c = char "q") then rl
    else if decide (c = char "w") then
      set_control (mkControl (control_state ctl) (ctl_x ctl + dec 1 10) (ctl_y ctl)
                     (ctl_yaw ctl)) rl
    else if decide (c = char "s") then
      set_control (mkControl (control_state ctl) (ctl_x ctl - dec 1 10) (ctl_y ctl)
                     (ctl_yaw ctl)) rl
    else if decide (c = char "a") then
      set_control (mkControl (control_state ctl) (ctl_x ctl) (ctl_y ctl)
                     (ctl_yaw ctl + dec 1 10)) rl
    else if decide (c = char "d") then
      set_control (mkControl (control_state ctl) (ctl_x ctl) (ctl_y ctl)
                     (ctl_yaw ctl - dec 1 10)) rl
    else if decide (c = char "i") then rl
    else if decide (c = char "k") then rl
    else if decide (c = char "j") then
      set_control (mkControl (control_state ctl) (ctl_x ctl) (ctl_y ctl + dec 1 10)
                     (ctl_yaw ctl)) rl
    else if decide (c = char "l") then
      set_control (mkControl (control_state ctl) (ctl_x ctl) (ctl_y ctl - dec 1 10)
                     (ctl_yaw ctl)) rl
    else if decide (c = char " ") then
      set_control (mkControl (control_state ctl) 0 0 0) rl
    else if decide (c = char "r") then
      set_control (SetControlState STATE_RESET_SIMULATION ctl) rl
    else if decide (c = line_feed) then
      set_control (SetControlState STATE_TOGGLE_SIMULATION ctl) rl
    else rl
  else rl.

(** The keys whose case calls [SetControlState]. *)
Definition mode_keys : list Z :=
  [char "0"; char "p"; char "n"; char "1"; char "r"; line_feed].

(** ** Motors the profile does not use *)

(** The loop of [InitLowCmd] over the 20 motor commands of the message;
    [PosStopF] and [VelStopF] are constants of the robot's SDK. *)
Definition InitLowCmd (PosStopF VelStopF : Qc) (motor_cmd : list MotorCmd)
  : option (list MotorCmd) :=
  for_each
    (λ i m, if decide (i < length m)%nat
            then Some (<[i := mkMotorCmd 1 PosStopF VelStopF 0 0 0]> m)
            else None)
    (seq 0 20) motor_cmd.

(** Successive calls of [SetCommand], each with the parameters and the
    command of its control tick. *)
Fixpoint SetCommands (ticks : list (RL * RobotCommand)) (motor_cmd : list MotorCmd)
  : option (list MotorCmd) :=
  match ticks with
  | [] => Some motor_cmd
  | (rl, command) :: ticks' =>
      m ← SetCommand rl command motor_cmd; SetCommands ticks' m
  end.

(** A command for a robot of two joints. *)
Definition two_joint_command : RobotCommand :=
  mkRobotCommand
    (mkMotorCommand [dec 1 1; dec 2 1] [dec 3 1; dec 4 1] [dec 5 1; dec 6 1]
       [dec 7 1; dec 8 1] [dec 9 1; dec 10 1]).

(** * Properties *)

(** ** Transitions *)

Lemma getStateName_inj (s t : StateId) : getStateName s = getStateName t → s = t.
Proof. destruct s, t; simpl; intros H; try reflexivity; discriminate H. Qed.

(** C1. One evaluation of [checkChange] in state [s] names exactly the
    state the transition table of section 4.5 gives for [s], the requested
    mode and the progress counter as they are at that moment; nothing else
    of the machine (no timer, no count of earlier requests) enters the
    answer, which is a name of one of the five states and determines it. *)
Theorem checkChange_transition_table (s : StateId) (rl : RL) :
  state_checkChange s rl
  = getStateName
      (transition_table s (control_state (control rl)) (running_percent rl))
  ∧ (∀ t, getStateName t = state_checkChange s rl →
          t = transition_table s (control_state (control rl)) (running_percent rl)).
Proof.
  assert (E : state_checkChange s rl
    = getStateName
        (transition_table s (control_state (control rl)) (running_percent rl))).
  { destruct s; simpl;
      unfold RLFSMStateWaiting.checkChange, RLFSMStateGetUp.checkChange,
        RLFSMStateGetDown.checkChange, RLFSMStateRL_Locomotion.checkChange,
        RLFSMStateRL_Navigation.checkChange, learned_checkChange;
      destruct (control_state (control rl)); simpl;
      repeat case_decide; try reflexivity; try congruence. }
  split; [exact E|].
  intros t Ht. rewrite E in Ht. by apply getStateName_inj.
Qed.

(** ** Auxiliary lemmas: subscripts, loops, rational arithmetic *)

Lemma for_each_app {S : Type} (body : nat → S → option S) (l1 l2 : list nat) (s : S) :
  for_each body (l1 ++ l2) s = for_each body l1 s ≫= for_each body l2.
Proof.
  revert s. induction l1 as [|i l1 IH]; intros s; simpl; [done|].
  destruct (body i s) as [s'|]; simpl; [apply IH | done].
Qed.

Lemma vec_set_Some (i : nat) (x : Qc) (v : list Qc) :
  (i < length v)%nat → vec_set i x v = Some (<[i := x]> v).
Proof. intros H. unfold vec_set. by rewrite decide_True. Qed.

Lemma norm_index_nat (n i : nat) : (i < n)%nat → norm_index n (Z.of_nat i) = Some i.
Proof.
  intros H. unfold norm_index. rewrite decide_True by lia. by rewrite Nat2Z.id.
Qed.

Lemma item_Row (l : list Qc) (i : nat) (x : Qc) :
  l !! i = Some x → item (Row l) (Z.of_nat i) = Some x.
Proof.
  intros H. unfold item. simpl.
  rewrite norm_index_nat by (by eapply lookup_lt_Some). simpl. done.
Qed.

Lemma prefix_0 f l : prefix 0 f l = l.
Proof.
  apply list_eq. intros j. unfold prefix. rewrite list_lookup_imap.
  by destruct (l !! j).
Qed.

Lemma prefix_length n f l : length (prefix n f l) = length l.
Proof. unfold prefix. by rewrite length_imap. Qed.

Lemma prefix_S_Some n f l x :
  (n < length l)%nat → f n = Some x → <[n := x]> (prefix n f l) = prefix (S n) f l.
Proof.
  intros Hn Hf. apply list_eq. intros j. unfold prefix.
  destruct (decide (j = n)) as [->|Hne].
  - rewrite list_lookup_insert_eq by (by rewrite length_imap).
    rewrite list_lookup_imap. destruct (lookup_lt_is_Some_2 l n Hn) as [y ->]. simpl.
    rewrite decide_True by lia. by rewrite Hf.
  - rewrite list_lookup_insert_ne by done. rewrite !list_lookup_imap.
    destruct (l !! j); simpl; [|done]. f_equal.
    destruct (decide (j < n)%nat), (decide (j < S n)%nat); try done; lia.
Qed.

Lemma prefix_S_None n f l :
  f n = None → prefix n f l = prefix (S n) f l.
Proof.
  intros Hf. apply list_eq. intros j. unfold prefix. rewrite !list_lookup_imap.
  destruct (l !! j); simpl; [|done]. f_equal.
  destruct (decide (j < n)%nat), (decide (j < S n)%nat); try done; try lia.
  assert (j = n) as -> by lia. by rewrite Hf.
Qed.

Lemma prefix_lookup_lt n f l j x :
  (j < n)%nat → (j < length l)%nat → f j = Some x → prefix n f l !! j = Some x.
Proof.
  intros Hj Hl Hf. unfold prefix. rewrite list_lookup_imap.
  destruct (lookup_lt_is_Some_2 l j Hl) as [y ->]. simpl.
  rewrite decide_True by done. by rewrite Hf.
Qed.

Lemma put_prefix n f l :
  (n < length l)%nat → put n (f n) (prefix n f l) = prefix (S n) f l.
Proof.
  intros Hn. unfold put. destruct (f n) as [x|] eqn:E.
  - by apply prefix_S_Some.
  - by apply prefix_S_None.
Qed.

Lemma dof_prefix_covers fq fdq ftau fkp fkd m n c :
  command_covers n c → command_covers n (dof_prefix fq fdq ftau fkp fkd m c).
Proof. unfold command_covers, dof_prefix; simpl. by rewrite !prefix_length. Qed.

Lemma for_each_dof_prefix (body : nat → MotorCommand → option MotorCommand)
  fq fdq ftau fkp fkd (n : nat) (c : MotorCommand) :
  command_covers n c →
  (∀ i c', (i < n)%nat → command_covers n c' →
           body i c' = Some (dof_write fq fdq ftau fkp fkd i c')) →
  for_each body (seq 0 n) c = Some (dof_prefix fq fdq ftau fkp fkd n c).
Proof.
  intros Hc Hbody.
  assert (G : ∀ m, (m ≤ n)%nat →
    for_each body (seq 0 m) c = Some (dof_prefix fq fdq ftau fkp fkd m c)).
  { induction m as [|m IH]; intros Hm.
    - simpl. unfold dof_prefix. rewrite !prefix_0. by destruct c.
    - rewrite seq_S, for_each_app, IH by lia. simpl.
      rewrite Hbody by (try lia; by apply dof_prefix_covers). simpl.
      destruct Hc as (?&?&?&?&?).
      unfold dof_write, dof_prefix; simpl.
      rewrite !put_prefix by lia. done. }
  by apply G.
Qed.

Lemma tensor_covers_item n t i :
  tensor_covers n t → (i < n)%nat → is_Some (item t (Z.of_nat i)).
Proof.
  destruct t as [|l]; simpl; [done|]. intros Hn Hi.
  destruct (lookup_lt_is_Some_2 l i) as [x Hx]; [lia|].
  exists x. by apply item_Row.
Qed.

Lemma getup_body_write rl i c :
  getup_ready rl → (i < dofs rl)%nat → command_covers (dofs rl) c →
  RLFSMStateGetUp.body rl i c
  = Some (dof_write (getup_q rl) (λ _, Some 0) (λ _, Some 0)
            (λ i, item (fixed_kp (params rl)) (Z.of_nat i))
            (λ i, item (fixed_kd (params rl)) (Z.of_nat i)) i c).
Proof.
  intros (Hq & Hd & Hkp & Hkd & _) Hi (?&?&?&?&?).
  unfold RLFSMStateGetUp.body, dof_write, getup_q.
  destruct (lookup_lt_is_Some_2 (ms_q (motor_state (now_state rl))) i) as [x ->];
    [lia|].
  destruct (tensor_covers_item _ _ i Hd Hi) as [d ->].
  destruct (tensor_covers_item _ _ i Hkp Hi) as [kp ->].
  destruct (tensor_covers_item _ _ i Hkd Hi) as [kd ->].
  simpl.
  unfold write_q, write_dq, write_kp, write_kd, write_tau.
  rewrite vec_set_Some by lia. simpl.
  rewrite vec_set_Some by lia. simpl.
  rewrite vec_set_Some by lia. simpl.
  rewrite vec_set_Some by lia. simpl.
  rewrite vec_set_Some by lia. simpl. done.
Qed.

Lemma getdown_body_write rl i c :
  getdown_ready rl → (i < dofs rl)%nat → command_covers (dofs rl) c →
  RLFSMStateGetDown.body rl i c
  = Some (dof_write (getdown_q rl) (λ _, Some 0) (λ _, Some 0)
            (λ i, item (fixed_kp (params rl)) (Z.of_nat i))
            (λ i, item (fixed_kd (params rl)) (Z.of_nat i)) i c).
Proof.
  intros (Hq & Hs & Hkp & Hkd & _) Hi (?&?&?&?&?).
  unfold RLFSMStateGetDown.body, dof_write, getdown_q.
  destruct (lookup_lt_is_Some_2 (ms_q (motor_state (now_state rl))) i) as [x ->];
    [lia|].
  destruct (lookup_lt_is_Some_2 (ms_q (motor_state (start_state rl))) i) as [y ->];
    [lia|].
  destruct (tensor_covers_item _ _ i Hkp Hi) as [kp ->].
  destruct (tensor_covers_item _ _ i Hkd Hi) as [kd ->].
  simpl.
  unfold write_q, write_dq, write_kp, write_kd, write_tau.
  rewrite vec_set_Some by lia. simpl.
  rewrite vec_set_Some by lia. simpl.
  rewrite vec_set_Some by lia. simpl.
  rewrite vec_set_Some by lia. simpl.
  rewrite vec_set_Some by lia. simpl. done.
Qed.

Lemma getup_run_lt rl :
  getup_ready rl → running_percent rl < 1 →
  RLFSMStateGetUp.run rl
  = Some (print (InfoGettingUp (running_percent (advance rl) * dec 100 1))
            (set_robot_command
               (mkRobotCommand
                  (dof_prefix (getup_q (advance rl)) (λ _, Some 0) (λ _, Some 0)
                     (λ i, item (fixed_kp (params rl)) (Z.of_nat i))
                     (λ i, item (fixed_kd (params rl)) (Z.of_nat i))
                     (dofs rl) (motor_command (robot_command rl))))
               (advance rl))).
Proof.
  intros Hr Hp. unfold RLFSMStateGetUp.run. rewrite decide_True by done.
  cbn zeta.
  set (rl2 := set_running_percent _ (set_running_percent _ rl)).
  assert (E : rl2 = advance rl) by (by destruct rl).
  rewrite E. clear E rl2.
  unfold for_dofs.
  rewrite (for_each_dof_prefix _ (getup_q (advance rl)) (λ _, Some 0) (λ _, Some 0)
             (λ i, item (fixed_kp (params rl)) (Z.of_nat i))
             (λ i, item (fixed_kd (params rl)) (Z.of_nat i))).
  - done.
  - by destruct Hr as (_&_&_&_&?).
  - intros i c' Hi Hc'. by rewrite getup_body_write.
Qed.

Lemma getdown_run_lt rl :
  getdown_ready rl → running_percent rl < 1 →
  RLFSMStateGetDown.run rl
  = Some (print (InfoGettingDown (running_percent (advance rl) * dec 100 1))
            (set_robot_command
               (mkRobotCommand
                  (dof_prefix (getdown_q (advance rl)) (λ _, Some 0) (λ _, Some 0)
                     (λ i, item (fixed_kp (params rl)) (Z.of_nat i))
                     (λ i, item (fixed_kd (params rl)) (Z.of_nat i))
                     (dofs rl) (motor_command (robot_command rl))))
               (advance rl))).
Proof.
  intros Hr Hp. unfold RLFSMStateGetDown.run. rewrite decide_True by done.
  cbn zeta.
  set (rl2 := set_running_percent _ (set_running_percent _ rl)).
  assert (E : rl2 = advance rl) by (by destruct rl).
  rewrite E. clear E rl2.
  unfold for_dofs.
  rewrite (for_each_dof_prefix _ (getdown_q (advance rl)) (λ _, Some 0) (λ _, Some 0)
             (λ i, item (fixed_kp (params rl)) (Z.of_nat i))
             (λ i, item (fixed_kd (params rl)) (Z.of_nat i))).
  - done.
  - by destruct Hr as (_&_&_&_&?).
  - intros i c' Hi Hc'. by rewrite getdown_body_write.
Qed.

Lemma this_plus (x y : Qc) : (this (x + y) == this x + this y)%Q.
Proof. simpl. apply Qred_correct. Qed.
Lemma this_mult (x y : Qc) : (this (x * y) == this x * this y)%Q.
Proof. simpl. apply Qred_correct. Qed.
Lemma this_opp (x : Qc) : (this (- x) == - this x)%Q.
Proof. simpl. apply Qred_correct. Qed.
Lemma this_minus (x y : Qc) : (this (x - y) == this x - this y)%Q.
Proof. unfold Qcminus. rewrite this_plus, this_opp. reflexivity. Qed.
Lemma Qc_eq_this (x y : Qc) : x = y ↔ (this x == this y)%Q.
Proof. split; [by intros ->|apply Qc_is_canon]. Qed.

Ltac qc_consts :=
  repeat match goal with
         | |- context [this (Q2Qc ?q)] =>
             let v := eval vm_compute in (Qred q) in
             change (this (Q2Qc q)) with v
         end.

Ltac qc_lra :=
  try apply Qc_is_canon;
  try match goal with |- ¬ @eq Qc _ _ => intro end;
  repeat match goal with
         | H : @eq Qc _ _ |- _ => apply Qc_eq_this in H; revert H
         | H : ¬ @eq Qc _ _ |- _ => rewrite Qc_eq_this in H; revert H
         | H : Qclt _ _ |- _ => revert H
         | H : Qcle _ _ |- _ => revert H
         | H : ¬ Qclt _ _ |- _ => revert H
         | H : ¬ Qcle _ _ |- _ => revert H
         end;
  unfold Qclt, Qcle;
  repeat (rewrite ?this_plus, ?this_minus, ?this_mult, ?this_opp);
  qc_consts; intros; lra.

(** ** The progress counter on the floats

    With every addition rounded, the counter never decreases, stays within
    [0, 1] and ends at exactly 1.0, which it reaches on tick 501, the 500
    rounded steps summing to a little less than 1. *)

Lemma binary32_trajectory_nth (n k : nat) (p : SpecFloat.spec_float) :
  (k < n)%nat → nth_error (Binary32.trajectory n p) k = Some (Nat.iter k Binary32.run p).
Proof.
  revert k p. induction n as [|n IH]; intros k p Hk; [lia|].
  destruct k as [|k]; simpl; [reflexivity|].
  rewrite IH by lia. f_equal. symmetry. exact (Nat.iter_succ_r k Binary32.run p).
Qed.

Lemma binary32_non_decreasing_nth (l : list SpecFloat.spec_float) (k : nat) a b :
  Binary32.non_decreasing l = true →
  nth_error l k = Some a → nth_error l (S k) = Some b → SpecFloat.SFleb a b = true.
Proof.
  revert k. induction l as [|x l IH]; intros k Hl Ha Hb; [destruct k; discriminate|].
  destruct l as [|y l]; [destruct k; simpl in Hb; try discriminate; destruct k; discriminate|].
  simpl in Hl. apply andb_prop in Hl as [H1 H2].
  destruct k as [|k].
  - simpl in Ha, Hb. injection Ha as <-. injection Hb as <-. exact H1.
  - apply (IH k H2 Ha Hb).
Qed.

Lemma binary32_progress_saturates (n : nat) : (501 ≤ n)%nat → Binary32.progress n = Binary32.one.
Proof.
  intros H. replace n with ((n - 501) + 501)%nat by lia.
  induction (n - 501)%nat as [|m IH].
  - vm_compute. reflexivity.
  - change (Binary32.progress (S m + 501)%nat)
      with (Binary32.run (Binary32.progress (m + 501)%nat)).
    rewrite IH. vm_compute. reflexivity.
Qed.

Lemma binary32_progress_500 :
  Binary32.progress 500 = SpecFloat.S754_finite false 16777119 (-24)%Z
  ∧ SpecFloat.SFltb (Binary32.progress 500) Binary32.one = true.
Proof. split; vm_compute; reflexivity. Qed.

Lemma binary32_progress_non_decreasing (n : nat) :
  SpecFloat.SFleb (Binary32.progress n) (Binary32.progress (S n)) = true.
Proof.
  destruct (Nat.lt_ge_cases n 501) as [H|H].
  - assert (T : Binary32.non_decreasing (Binary32.trajectory 503 Binary32.zero) = true)
      by (vm_compute; reflexivity).
    apply (binary32_non_decreasing_nth _ n _ _ T); apply binary32_trajectory_nth; lia.
  - rewrite !binary32_progress_saturates by lia. vm_compute. reflexivity.
Qed.

Lemma binary32_progress_in_range (n : nat) : Binary32.in_range (Binary32.progress n) = true.
Proof.
  destruct (Nat.lt_ge_cases n 501) as [H|H].
  - assert (T : forallb Binary32.in_range (Binary32.trajectory 501 Binary32.zero) = true)
      by (vm_compute; reflexivity).
    rewrite forallb_forall in T. apply T.
    apply (nth_error_In _ n). apply binary32_trajectory_nth. lia.
  - rewrite binary32_progress_saturates by lia. vm_compute. reflexivity.
Qed.

(** ** The progress counter of the two ramps *)

Lemma ramp_iter (n : nat) : Nat.iter n ramp 0 = ramp_value n.
Proof. reflexivity. Qed.

Lemma ramp_value_S (n : nat) : ramp_value (S n) = ramp (ramp_value n).
Proof. reflexivity. Qed.

Lemma ramp_trajectory_nth (n k : nat) (p : Qc) :
  (k < n)%nat → ramp_trajectory n p !! k = Some (Nat.iter k ramp p).
Proof.
  revert k p. induction n as [|n IH]; intros k p Hk; [lia|].
  destruct k as [|k]; simpl; [reflexivity|].
  rewrite IH by lia. f_equal. symmetry. exact (Nat.iter_succ_r k ramp p).
Qed.

Lemma ramp_holds_at (check : nat → Qc → bool) (n k : nat) :
  ramp_holds check n = true → (k < n)%nat → check k (ramp_value k) = true.
Proof.
  intros H Hk. unfold ramp_holds in H. rewrite forallb_forall in H.
  apply (H (k, ramp_value k)). apply list_elem_of_In.
  apply (list_elem_of_lookup_2 _ k). rewrite list_lookup_imap.
  by rewrite ramp_trajectory_nth.
Qed.

Lemma binary32_value_one : Binary32.value Binary32.one = 1.
Proof. apply Qc_is_canon. vm_compute. reflexivity. Qed.

Lemma ramp_at_1 : ramp 1 = 1.
Proof.
  unfold ramp. rewrite decide_False; [done|].
  intros H. apply (Qclt_not_le _ _ H). apply Qcle_refl.
Qed.

Lemma ramp_value_1 (n : nat) : (501 ≤ n)%nat → ramp_value n = 1.
Proof.
  intros H. replace n with ((n - 501) + 501)%nat by lia.
  induction (n - 501)%nat as [|m IH].
  - apply Qc_is_canon. vm_compute. reflexivity.
  - change (ramp_value (S m + 501)) with (ramp (ramp_value (m + 501))).
    rewrite IH. apply ramp_at_1.
Qed.

Lemma ramp_value_facts (n : nat) :
  ramp_value n = Binary32.value (Binary32.progress n)
  ∧ 0 ≤ ramp_value n ∧ ramp_value n ≤ 1 ∧ ramp_value n ≤ ramp_value (S n)
  ∧ (ramp_value n < 1 ↔ (n ≤ 500)%nat)
  ∧ ((0 < n)%nat → ramp_value n ≠ 0)
  ∧ ((n < 500)%nat →
     Qcabs (ramp_value (S n) - ramp_value n - 1 / dec 500 1) ≤ ulp_24).
Proof.
  destruct (Nat.lt_ge_cases n 501) as [H|H].
  - assert (T : ramp_holds ramp_tick_ok 501 = true) by (vm_compute; reflexivity).
    pose proof (ramp_holds_at _ _ n T H) as C. clear T. unfold ramp_tick_ok in C.
    rewrite ramp_value_S.
    generalize dependent (ramp_value n). intros p C.
    apply andb_prop in C as [C C7].
    apply andb_prop in C as [C C6].
    apply andb_prop in C as [C C5].
    apply andb_prop in C as [C C4].
    apply andb_prop in C as [C C3].
    apply andb_prop in C as [C1 C2].
    apply Qc_eq_bool_correct in C1.
    apply bool_decide_eq_true in C2, C3, C4.
    split_and!; [exact C1|exact C2|exact C3|exact C4|..].
    + clear C1 C2 C3 C4 C6 C7. split; intros Hn.
      * destruct (decide (n ≤ 500)%nat) as [|Hf]; [done|].
        rewrite (bool_decide_eq_true_2 _ Hn), (bool_decide_eq_false_2 _ Hf) in C5.
        discriminate C5.
      * destruct (decide (p < 1)) as [|Hf]; [done|].
        rewrite (bool_decide_eq_true_2 _ Hn), (bool_decide_eq_false_2 _ Hf) in C5.
        discriminate C5.
    + clear C1 C2 C3 C4 C5 C7. intros Hn E.
      apply orb_prop in C6 as [C6|C6].
      * apply bool_decide_eq_true in C6. lia.
      * subst p. discriminate C6.
    + clear C1 C2 C3 C4 C5 C6. intros Hn.
      apply orb_prop in C7 as [C7|C7]; apply bool_decide_eq_true in C7; [lia|exact C7].
  - rewrite !ramp_value_1, binary32_progress_saturates, binary32_value_one by lia.
    assert (U : 0 ≤ ulp_24) by (unfold ulp_24; qc_lra).
    split_and!.
    + reflexivity.
    + qc_lra.
    + apply Qcle_refl.
    + apply Qcle_refl.
    + split; [intros Hlt; exfalso; apply (Qclt_not_le _ _ Hlt), Qcle_refl | lia].
    + intros _ E. discriminate E.
    + lia.
Qed.

Lemma ramp_run (s : StateId) (rl : RL) :
  ramp_ready s rl →
  ∃ rl', state_run s rl = Some rl'
         ∧ running_percent rl' = ramp (running_percent rl)
         ∧ ramp_ready s rl'
         ∧ now_state rl' = now_state rl ∧ start_state rl' = start_state rl
         ∧ params rl' = params rl.
Proof.
  intros Hr. unfold ramp.
  destruct s; simpl in Hr; try done; simpl.
  - destruct (decide (running_percent rl < 1)) as [Hp|Hp].
    + rewrite getup_run_lt by done. eexists. split; [done|].
      unfold getup_ready, command_covers, dofs in *. simpl.
      rewrite !prefix_length. by split; [|split; [exact Hr|]].
    + unfold RLFSMStateGetUp.run. rewrite decide_False by done.
      eexists. by split; [|split; [|split; [exact Hr|]]].
  - destruct (decide (running_percent rl < 1)) as [Hp|Hp].
    + rewrite getdown_run_lt by done. eexists. split; [done|].
      unfold getdown_ready, command_covers, dofs in *. simpl.
      rewrite !prefix_length. by split; [|split; [exact Hr|]].
    + unfold RLFSMStateGetDown.run. rewrite decide_False by done.
      eexists. by split; [|split; [|split; [exact Hr|]]].
Qed.


Lemma ramp_trace env s es rl :
  ramp_ready s rl → Forall (during s) es →
  ∃ rl', execs env es rl = Some rl'
         ∧ running_percent rl' = Nat.iter (runs es) ramp (running_percent rl)
         ∧ ramp_ready s rl'
         ∧ now_state rl' = now_state rl ∧ start_state rl' = start_state rl
         ∧ params rl' = params rl.
Proof.
  intros Hr Hes. revert rl Hr.
  induction Hes as [|e es He Hes IH]; intros rl Hr.
  - exists rl. by split_and!.
  - assert (H1 : ∃ rl1, exec env e rl = Some rl1
               ∧ running_percent rl1
                 = Nat.iter (if is_run e then 1 else 0) ramp (running_percent rl)
               ∧ ramp_ready s rl1
               ∧ now_state rl1 = now_state rl ∧ start_state rl1 = start_state rl
               ∧ params rl1 = params rl).
    { destruct e as [st|c|s'|s'|s']; simpl in He; try done.
      - eexists. split; [done|]. by destruct s.
      - eexists. split; [done|]. by destruct s.
      - subst s'. apply (ramp_run s rl Hr). }
    destruct H1 as (rl1 & E1 & P1 & R1 & N1 & S1 & M1).
    destruct (IH rl1 R1) as (rl2 & E2 & P2 & R2 & N2 & S2 & M2).
    exists rl2. simpl. rewrite E1. simpl. rewrite E2.
    split_and!; try congruence.
    rewrite P2, P1. destruct (is_run e); simpl; [|done].
    symmetry. exact (Nat.iter_succ_r (runs es) ramp (running_percent rl)).
Qed.

Lemma getdown_run_tracks rl rl' :
  getdown_ready rl →
  (1 ≤ running_percent rl → sitdown_tracks rl) →
  RLFSMStateGetDown.run rl = Some rl' → sitdown_tracks rl'.
Proof.
  intros Hr Hold Hrun.
  destruct (decide (running_percent rl < 1)) as [Hp|Hp].
  - rewrite getdown_run_lt in Hrun by done. injection Hrun as <-.
    intros i Hi. unfold dofs in Hi. simpl in Hi. fold (dofs rl) in Hi.
    destruct Hr as (Hq & Hs & _ & _ & Hc & _).
    destruct (lookup_lt_is_Some_2 (ms_q (motor_state (now_state rl))) i) as [x Hx];
      [lia|].
    destruct (lookup_lt_is_Some_2 (ms_q (motor_state (start_state rl))) i) as [y Hy];
      [lia|].
    assert (E : getdown_q (advance rl) i
                = Some ((1 - running_percent (advance rl)) * x
                        + running_percent (advance rl) * y)).
    { unfold getdown_q. simpl. rewrite Hx, Hy. done. }
    set (rl' := print _ _).
    assert (E' : getdown_q rl' i = getdown_q (advance rl) i) by done.
    split.
    + rewrite E', E. done.
    + rewrite E', E. subst rl'. simpl. apply prefix_lookup_lt; [done|lia|done].
  - unfold RLFSMStateGetDown.run in Hrun. rewrite decide_False in Hrun by done.
    injection Hrun as <-. apply Hold. by apply Qcnot_lt_le.
Qed.

Lemma sitdown_trace env es (k : nat) rl :
  Forall (during GetDown) es →
  getdown_ready rl →
  (1 ≤ running_percent rl → sitdown_tracks rl) →
  ((0 < k)%nat → sitdown_tracks rl) →
  ∃ rl', execs env es rl = Some rl'
         ∧ ((0 < k + runs es)%nat → sitdown_tracks rl')
         ∧ now_state rl' = now_state rl ∧ start_state rl' = start_state rl
         ∧ params rl' = params rl.
Proof.
  intros Hes. revert k rl.
  induction Hes as [|e es He Hes IH]; intros k rl Hr H1 Hk.
  - exists rl. simpl. rewrite Nat.add_0_r. by split_and!.
  - destruct e as [st|c|s'|s'|s']; simpl in He; try done.
    + destruct (IH k (set_robot_state st rl)) as (rl2 & E2 & T2 & N2 & S2 & M2);
        [done|done|done|].
      exists rl2. simpl. by split_and!.
    + destruct (IH k (set_control c rl)) as (rl2 & E2 & T2 & N2 & S2 & M2);
        [done|done|done|].
      exists rl2. simpl. by split_and!.
    + subst s'.
      destruct (ramp_run GetDown rl Hr) as (rl1 & E1 & P1 & R1 & N1 & S1 & M1).
      simpl in E1.
      assert (T1 : sitdown_tracks rl1) by exact (getdown_run_tracks rl rl1 Hr H1 E1).
      destruct (IH (S k) rl1) as (rl2 & E2 & T2 & N2 & S2 & M2); [done|done|done|].
      exists rl2. simpl. rewrite E1. simpl. rewrite E2.
      split_and!; try congruence.
      intros _. apply T2. lia.
Qed.

Lemma and_then_frame {A : Type} (f : RL → A) (r : Exceptional)
  (k : RL → Exceptional) (a : A) :
  f (outcome_state r) = a →
  (∀ rl, f rl = a → f (outcome_state (k rl)) = a) →
  f (outcome_state (and_then r k)) = a.
Proof. destruct r; simpl; auto. Qed.

Lemma InitRL_start_state env robot_path rl :
  start_state (outcome_state (InitRL env robot_path rl)) = start_state rl.
Proof.
  unfold InitRL. apply and_then_frame.
  - unfold ReadYamlRL. cbn zeta. by destruct (yaml_load _ _ _).
  - intros rl1 H1. cbn zeta. destruct (jit_load _ _); simpl.
    + by destruct (observations_history _).
    + apply and_then_frame.
      * unfold InitObservations. cbn zeta.
        destruct (torch_zeros _); simpl; by destruct (observations_history _).
      * intros rl2 H2. apply and_then_frame.
        -- unfold InitOutputs. by destruct (torch_zeros _).
        -- intros rl3 H3. done.
Qed.

Lemma learned_enter_start_state env rl :
  start_state (learned_enter env rl) = start_state rl.
Proof.
  unfold learned_enter. cbn zeta.
  pose proof (InitRL_start_state env
    (robot_name (set_config_name (default_rl_config rl) rl) +:+ "/" +:+
     config_name (set_config_name (default_rl_config rl) rl))
    (set_config_name (default_rl_config rl) rl)) as H.
  destruct (InitRL _ _ _); simpl in *; done.
Qed.

Lemma exec_start_state env e rl rl' :
  e ≠ Enter GetUp → exec env e rl = Some rl' → start_state rl' = start_state rl.
Proof.
  intros He. destruct e as [st|c|s|s|s]; simpl.
  - by intros [= <-].
  - by intros [= <-].
  - intros [= <-]. destruct s; try done; apply learned_enter_start_state.
  - destruct s; simpl;
      unfold RLFSMStateWaiting.run, RLFSMStateGetUp.run, RLFSMStateGetDown.run,
        RLFSMStateRL_Locomotion.run, RLFSMStateRL_Navigation.run, learned_run;
      cbn zeta; intros H;
      repeat match type of H with
             | context [decide ?P] => destruct (decide P)
             | context [try_pop ?q] => destruct (try_pop q) as [[? ?]|]
             | context [for_dofs ?n ?b ?c] => destruct (for_dofs n b c); simpl in H
             end;
      try discriminate H; by injection H as <-.
  - intros [= <-]. by destruct s.
Qed.

Lemma execs_start_state env es rl rl' :
  Forall (λ e, e ≠ Enter GetUp) es → execs env es rl = Some rl' →
  start_state rl' = start_state rl.
Proof.
  intros Hes. revert rl. induction Hes as [|e es He Hes IH]; intros rl; simpl.
  - by intros [= <-].
  - destruct (exec env e rl) as [rl1|] eqn:E1; simpl; [|done].
    intros E2. rewrite (IH _ E2). by eapply exec_start_state.
Qed.

(** C8. Let StandUp be entered in state [rl0], let anything but another
    entry of StandUp happen afterwards, and let SitDown then be entered in
    state [rl1].  After every SitDown tick, with [p] the progress counter
    that tick left, the commanded position of each DOF is
    [(1 - p) * x + p * y], where [x] is the position measured when SitDown
    was entered and [y] the position measured when StandUp was entered: the
    destination of the ramp is the start pose of the last StandUp, neither
    the default pose nor a fixed rest pose. *)
Theorem sitdown_interpolation (env : Env) (rl0 rl1 : RL) (between es : list Event) :
  Forall (λ e, e ≠ Enter GetUp) between →
  execs env (Enter GetUp :: between) rl0 = Some rl1 →
  getdown_ready (RLFSMStateGetDown.enter rl1) →
  Forall (during GetDown) es → (0 < runs es)%nat →
  ∃ rl', execs env (Enter GetDown :: es) rl1 = Some rl'
         ∧ ∀ i, (i < dofs rl1)%nat →
             ∃ x y, ms_q (motor_state (robot_state rl1)) !! i = Some x
                    ∧ ms_q (motor_state (robot_state rl0)) !! i = Some y
                    ∧ mc_q (motor_command (robot_command rl')) !! i
                      = Some ((1 - running_percent rl') * x
                              + running_percent rl' * y).
Proof.
  intros Hbetween Hhist Hready Hes Hruns.
  assert (Hstart : start_state rl1 = robot_state rl0).
  { simpl in Hhist. by rewrite (execs_start_state _ _ _ _ Hbetween Hhist). }
  destruct (sitdown_trace env es 0 (RLFSMStateGetDown.enter rl1) Hes Hready)
    as (rl' & E & T & N & S & M).
  { simpl. intros H. exfalso. revert H. apply Qclt_not_le. qc_lra. }
  { lia. }
  exists rl'. split; [done|].
  intros i Hi. specialize (T Hruns i).
  assert (Hd : dofs rl' = dofs rl1) by (unfold dofs; by rewrite M).
  rewrite Hd in T. destruct (T Hi) as [[v Hv] Hq].
  rewrite Hq. unfold getdown_q in Hv |- *. rewrite N, S in Hv |- *.
  simpl in Hv |- *. rewrite Hstart in Hv |- *.
  destruct (ms_q (motor_state (robot_state rl1)) !! i) as [x|]; [|done].
  destruct (ms_q (motor_state (robot_state rl0)) !! i) as [y|]; [|done].
  by exists x, y.
Qed.

Lemma ramp_enter_zero env s rl :
  s = GetUp ∨ s = GetDown → running_percent (state_enter env s rl) = 0.
Proof. by intros [-> | ->]. Qed.

(** C3, as the code has it.  Within one activation of StandUp or SitDown
    -- [enter] followed by ticks of that state, sensor readings and operator
    input in any order, everything the ramp subscripts having an entry for
    every DOF -- every tick returns, and the progress counter [p n] after
    [n] ticks starts at 0 on entry, is 0 at no tick after entry, never
    decreases and stays within [0, 1].  The counter is a [float]: while it
    is below 1 a tick adds [1.0f / 500.0f] in single precision and clamps
    the sum at 1, which moves it by 1/500 to within 2^-24 on each of the
    first 500 ticks.  After 500 ticks it is 16777119 / 2^24, still below 1;
    it is exactly 1 from tick 501 on.  It is at every tick the value of the
    counter replayed on the floats alone. *)
Theorem progress_counter (env : Env) (s : StateId) (rl : RL) :
  s = GetUp ∨ s = GetDown →
  ramp_ready s (state_enter env s rl) →
  ∃ p : nat → Qc,
    (∀ es, Forall (during s) es →
           running_percent <$> execs env (Enter s :: es) rl
           = Some (p (runs es)))
    ∧ p 0%nat = 0
    ∧ (∀ n, p n ≤ p (S n))
    ∧ (∀ n, p n < 1 → p (S n) = Qcmin (Binary32.add (p n) Binary32.step) 1)
    ∧ (∀ n, (n < 500)%nat → Qcabs (p (S n) - p n - 1 / dec 500 1) ≤ ulp_24)
    ∧ (∀ n, 0 ≤ p n ≤ 1)
    ∧ (∀ n, p n < 1 ↔ (n ≤ 500)%nat)
    ∧ p 500%nat = after_500_ticks
    ∧ (∀ n, (501 ≤ n)%nat → p n = 1)
    ∧ (∀ n, (0 < n)%nat → p n ≠ 0)
    ∧ (∀ n, p n = Binary32.value (Binary32.progress n)).
Proof.
  intros Hs Hr. exists ramp_value.
  split_and!.
  - intros es Hes.
    destruct (ramp_trace env s es _ Hr Hes) as (rl' & E & P & _).
    simpl. rewrite E. simpl.
    by rewrite P, ramp_enter_zero, ramp_iter.
  - reflexivity.
  - intros n. destruct (ramp_value_facts n) as (_ & _ & _ & F & _). exact F.
  - intros n Hlt. rewrite ramp_value_S. unfold ramp. by rewrite decide_True.
  - intros n Hn. destruct (ramp_value_facts n) as (_ & _ & _ & _ & _ & _ & F).
    exact (F Hn).
  - intros n. destruct (ramp_value_facts n) as (_ & F1 & F2 & _).
    exact (conj F1 F2).
  - intros n. destruct (ramp_value_facts n) as (_ & _ & _ & _ & F & _). exact F.
  - apply Qc_is_canon. vm_compute. reflexivity.
  - intros n Hn. exact (ramp_value_1 n Hn).
  - intros n Hn. destruct (ramp_value_facts n) as (_ & _ & _ & _ & _ & F & _).
    exact (F Hn).
  - intros n. destruct (ramp_value_facts n) as (F & _). exact F.
Qed.

Lemma runs_replicate (s : StateId) (n : nat) : runs (replicate n (Run s)) = n.
Proof. induction n as [|n IH]; simpl; [done|by rewrite IH]. Qed.

Lemma execs_enter env s es rl :
  execs env (Enter s :: es) rl = execs env es (state_enter env s rl).
Proof. reflexivity. Qed.

(** C3 as stated fails.  The StandUp ramp of the two-DOF robot: the first
    tick leaves the counter above 1/500, not at it; after 500 ticks the
    counter is still below 1, and the tick that follows adds less than
    1/500. *)
Lemma progress_counter_counterexample :
  ∃ rl1 rl500 rl501,
    execs Sample.env0 [Enter GetUp; Run GetUp] Sample.rl0 = Some rl1
    ∧ 1 / dec 500 1 < running_percent rl1
    ∧ execs Sample.env0 (Enter GetUp :: replicate 500 (Run GetUp)) Sample.rl0
      = Some rl500
    ∧ running_percent rl500 < 1
    ∧ state_run GetUp rl500 = Some rl501
    ∧ running_percent rl501 < running_percent rl500 + 1 / dec 500 1.
Proof.
  assert (Hr : ramp_ready GetUp (state_enter Sample.env0 GetUp Sample.rl0)).
  { unfold ramp_ready, getup_ready, command_covers. simpl.
    change (dofs _) with 2%nat. repeat split; lia. }
  destruct (ramp_trace Sample.env0 GetUp [Run GetUp] _ Hr)
    as (rl1 & E1 & P1 & _); [repeat constructor|].
  destruct (ramp_trace Sample.env0 GetUp (replicate 500 (Run GetUp)) _ Hr)
    as (rl500 & E & P & R & _); [apply Forall_replicate; reflexivity|].
  destruct (ramp_run GetUp rl500 R) as (rl501 & E' & P' & _).
  rewrite runs_replicate in P.
  change (runs [Run GetUp]) with 1%nat in P1.
  rewrite ramp_enter_zero, ramp_iter in P1 by (by left).
  rewrite ramp_enter_zero, ramp_iter in P by (by left).
  assert (V1 : ramp_value 1 = Q2Qc (8589935 # 4294967296))
    by (apply Qc_is_canon; vm_compute; reflexivity).
  assert (V : ramp_value 500 = after_500_ticks)
    by (apply Qc_is_canon; vm_compute; reflexivity).
  assert (V' : ramp after_500_ticks = 1)
    by (apply Qc_is_canon; vm_compute; reflexivity).
  rewrite V in P. rewrite P, V' in P'. rewrite V1 in P1.
  exists rl1, rl500, rl501. rewrite !execs_enter.
  split; [exact E1|]. rewrite P1, P, P'.
  split; [by vm_compute|].
  split; [exact E|].
  split; [by vm_compute|].
  split; [exact E'|]. by vm_compute.
Qed.

(** ** The learned tick *)

Lemma learned_body_write rl tp tv i c :
  learned_ready rl tp tv → (i < dofs rl)%nat → command_covers (dofs rl) c →
  learned_body rl tp tv i c
  = Some (dof_write (learned_q rl tp) (learned_dq rl tv) (λ _, Some 0)
            (λ i, item (rl_kp (params rl)) (Z.of_nat i))
            (λ i, item (rl_kd (params rl)) (Z.of_nat i)) i c).
Proof.
  intros (Hp & Hv & Hkp & Hkd & _) Hi (?&?&?&?&?).
  unfold learned_body, dof_write, learned_q, learned_dq.
  fold (usable tp). fold (usable tv).
  destruct (tensor_covers_item _ _ i Hkp Hi) as [kp Ekp].
  destruct (tensor_covers_item _ _ i Hkd Hi) as [kd Ekd].
  unfold write_q, write_dq, write_kp, write_kd, write_tau.
  destruct (usable tp) eqn:Up; destruct (usable tv) eqn:Uv.
  - destruct (tensor_covers_item _ _ i (Hp eq_refl) Hi) as [x ->].
    destruct (tensor_covers_item _ _ i (Hv eq_refl) Hi) as [y ->].
    rewrite Ekp, Ekd. simpl.
    rewrite vec_set_Some by lia. simpl.
    rewrite vec_set_Some by lia. simpl.
    rewrite vec_set_Some by lia. simpl.
    rewrite vec_set_Some by lia. simpl.
    rewrite vec_set_Some by lia. simpl. done.
  - destruct (tensor_covers_item _ _ i (Hp eq_refl) Hi) as [x ->].
    rewrite Ekp, Ekd. simpl.
    rewrite vec_set_Some by lia. simpl.
    rewrite vec_set_Some by lia. simpl.
    rewrite vec_set_Some by lia. simpl.
    rewrite vec_set_Some by lia. simpl. done.
  - destruct (tensor_covers_item _ _ i (Hv eq_refl) Hi) as [y ->].
    rewrite Ekp, Ekd. simpl.
    rewrite vec_set_Some by lia. simpl.
    rewrite vec_set_Some by lia. simpl.
    rewrite vec_set_Some by lia. simpl.
    rewrite vec_set_Some by lia. simpl. done.
  - rewrite Ekp, Ekd. simpl.
    rewrite vec_set_Some by lia. simpl.
    rewrite vec_set_Some by lia. simpl.
    rewrite vec_set_Some by lia. simpl. done.
Qed.

Lemma prefix_lookup_None n f l j :
  f j = None → prefix n f l !! j = l !! j.
Proof.
  intros Hf. unfold prefix. rewrite list_lookup_imap.
  destruct (l !! j); simpl; [|done]. rewrite Hf. simpl. by case_decide.
Qed.

Lemma learned_run_fed rl tp qp tv qv :
  output_dof_pos_queue rl = tp :: qp → output_dof_vel_queue rl = tv :: qv →
  learned_ready rl tp tv →
  learned_run rl
  = Some (set_robot_command
            (mkRobotCommand
               (dof_prefix (learned_q rl tp) (learned_dq rl tv) (λ _, Some 0)
                  (λ i, item (rl_kp (params rl)) (Z.of_nat i))
                  (λ i, item (rl_kd (params rl)) (Z.of_nat i))
                  (dofs rl) (motor_command (robot_command rl))))
            (set_output_dof_vel_queue qv
               (set_output_dof_pos_queue qp
                  (print (InfoRLController (ctl_x (control rl)) (ctl_y (control rl))
                            (ctl_yaw (control rl))) rl)))).
Proof.
  intros Ep Ev Hr. unfold learned_run. cbn zeta. simpl. rewrite Ep. simpl.
  rewrite Ev. simpl. unfold for_dofs.
  set (rl2 := set_output_dof_vel_queue _ _).
  rewrite (for_each_dof_prefix _ (learned_q rl tp) (learned_dq rl tv) (λ _, Some 0)
             (λ i, item (rl_kp (params rl)) (Z.of_nat i))
             (λ i, item (rl_kd (params rl)) (Z.of_nat i))).
  - done.
  - by destruct Hr as (_&_&_&_&?).
  - intros i c' Hi Hc'.
    change (learned_body rl2 tp tv i c') with (learned_body rl tp tv i c').
    by apply learned_body_write.
Qed.

Lemma prefix_lookup n f l j :
  (j < n)%nat → (j < length l)%nat →
  prefix n f l !! j = match f j with Some x => Some x | None => l !! j end.
Proof.
  intros Hj Hl. destruct (f j) as [x|] eqn:E.
  - by apply prefix_lookup_lt.
  - by apply prefix_lookup_None.
Qed.

Lemma learned_run_starved rl :
  starved rl →
  ∃ rl', learned_run rl = Some rl' ∧ starved rl'
         ∧ robot_command rl' = robot_command rl.
Proof.
  intros Hs. unfold learned_run. cbn zeta. simpl.
  destruct (output_dof_pos_queue rl) as [|tp qp] eqn:Ep; simpl.
  - eexists. split; [reflexivity|]. split; [|done]. left. simpl. done.
  - destruct Hs as [Hs|Hs]; [unfold starved in *; congruence|]. rewrite Hs. simpl.
    eexists. split; [reflexivity|]. split; [|done]. right. simpl. done.
Qed.

Lemma learned_trace_starved env s es rl :
  s = RL_Locomotion ∨ s = RL_Navigation →
  starved rl → Forall (during s) es →
  ∃ rl', execs env es rl = Some rl' ∧ robot_command rl' = robot_command rl.
Proof.
  intros Hs Hst Hes. revert rl Hst.
  induction Hes as [|e es He Hes IH]; intros rl Hst.
  - by exists rl.
  - destruct e as [st|c|s'|s'|s']; simpl in He; try done.
    + destruct (IH (set_robot_state st rl)) as (rl2 & E2 & C2); [done|].
      exists rl2. simpl. by split.
    + destruct (IH (set_control c rl)) as (rl2 & E2 & C2); [done|].
      exists rl2. simpl. by split.
    + subst s'. destruct (learned_run_starved rl Hst) as (rl1 & E1 & S1 & C1).
      destruct (IH rl1 S1) as (rl2 & E2 & C2).
      exists rl2. simpl.
      assert (E : state_run s rl = Some rl1) by (by destruct Hs as [-> | ->]).
      rewrite E. simpl. split; [done|congruence].
Qed.

(** C2, as the code has it.  In Locomotion and Navigation a tick prints
    the control target and pops the position queue and, only if that gave
    something, the velocity queue, never waiting.  With nothing in the
    position queue the tick does nothing more: the velocity queue is left
    as it is.  With a position target but no velocity target, the position
    target is taken off its queue and nothing more is done.  Either way the
    whole update is skipped: over any number of ticks, with sensor readings
    and operator input in between, JointCommand keeps exactly the values it
    had.  When both pops succeed, then for every DOF the position is
    overwritten with the current decoded position if the popped position
    tensor is defined and non-empty and is kept otherwise, likewise the
    velocity, and kp and kd are set to the learned-mode gains and tau to 0;
    the torque queue is not touched. *)
Theorem learned_tick (s : StateId) (rl : RL) :
  s = RL_Locomotion ∨ s = RL_Navigation →
  (output_dof_pos_queue rl = [] →
   state_run s rl
   = Some (print (InfoRLController (ctl_x (control rl)) (ctl_y (control rl))
                    (ctl_yaw (control rl))) rl))
  ∧ (∀ tp qp,
       output_dof_pos_queue rl = tp :: qp → output_dof_vel_queue rl = [] →
       state_run s rl
       = Some (set_output_dof_pos_queue qp
                 (print (InfoRLController (ctl_x (control rl)) (ctl_y (control rl))
                           (ctl_yaw (control rl))) rl)))
  ∧ (∀ env es, starved rl → Forall (during s) es →
       ∃ rl', execs env es rl = Some rl' ∧ robot_command rl' = robot_command rl)
  ∧ (∀ tp qp tv qv,
       output_dof_pos_queue rl = tp :: qp → output_dof_vel_queue rl = tv :: qv →
       learned_ready rl tp tv →
       ∃ rl', state_run s rl = Some rl'
              ∧ output_dof_pos_queue rl' = qp ∧ output_dof_vel_queue rl' = qv
              ∧ output_dof_tau_queue rl' = output_dof_tau_queue rl
              ∧ ∀ i, (i < dofs rl)%nat →
                  let c := motor_command (robot_command rl) in
                  let c' := motor_command (robot_command rl') in
                  mc_q c' !! i
                  = (if usable tp then item (output_dof_pos rl) (Z.of_nat i)
                     else mc_q c !! i)
                  ∧ mc_dq c' !! i
                    = (if usable tv then item (output_dof_vel rl) (Z.of_nat i)
                       else mc_dq c !! i)
                  ∧ mc_kp c' !! i = item (rl_kp (params rl)) (Z.of_nat i)
                  ∧ mc_kd c' !! i = item (rl_kd (params rl)) (Z.of_nat i)
                  ∧ mc_tau c' !! i = Some 0).
Proof.
  intros Hs.
  assert (E : state_run s rl = learned_run rl) by (by destruct Hs as [-> | ->]).
  split_and!.
  - intros Ep. rewrite E. unfold learned_run. cbn zeta. simpl. by rewrite Ep.
  - intros tp qp Ep Ev. rewrite E. unfold learned_run. cbn zeta. simpl.
    rewrite Ep. simpl. by rewrite Ev.
  - intros env es Hst Hes. by apply (learned_trace_starved env s).
  - intros tp qp tv qv Ep Ev Hr.
    rewrite E, (learned_run_fed rl tp qp tv qv Ep Ev Hr).
    eexists. split; [reflexivity|]. split; [done|]. split; [done|].
    split; [done|].
    intros i Hi. cbn zeta. simpl.
    destruct Hr as (Hp & Hv & Hkp & Hkd & (?&?&?&?&?)).
    rewrite !prefix_lookup by lia. unfold learned_q, learned_dq.
    destruct (tensor_covers_item _ _ i Hkp Hi) as [kp ->].
    destruct (tensor_covers_item _ _ i Hkd Hi) as [kd ->].
    split_and!; try done.
    + destruct (usable tp) eqn:U; [|done].
      by destruct (tensor_covers_item _ _ i (Hp eq_refl) Hi) as [x ->].
    + destruct (usable tv) eqn:U; [|done].
      by destruct (tensor_covers_item _ _ i (Hv eq_refl) Hi) as [x ->].
Qed.

(** C2 as stated fails.  With a position target in its queue and nothing
    in the velocity queue, the tick pops the position target, leaves the
    commanded position and the gains as they were, and so differs from the
    per-field update of section 4.5. *)
Lemma learned_tick_counterexample :
  ∃ tp rest rl',
    try_pop (output_dof_pos_queue Sample.half_fed) = Some (tp, rest)
    ∧ usable tp = true
    ∧ state_run RL_Locomotion Sample.half_fed = Some rl'
    ∧ mc_q (motor_command (robot_command rl')) !! 0%nat
      ≠ item (output_dof_pos Sample.half_fed) 0
    ∧ mc_kp (motor_command (robot_command rl')) !! 0%nat
      ≠ item (rl_kp (params Sample.half_fed)) 0
    ∧ state_run RL_Locomotion Sample.half_fed ≠ per_field_tick Sample.half_fed.
Proof.
  eexists _, _, _. split; [reflexivity|]. split; [reflexivity|].
  split; [reflexivity|].
  split_and!; vm_compute; intros H; discriminate H.
Qed.

(** The two-DOF robot in Locomotion: with a velocity target only, with a
    position target only, starved over two ticks, and fed. *)
Lemma learned_tick_witness :
  state_run RL_Locomotion Sample.velocity_only
  = Some (print (InfoRLController 0 0 0) Sample.velocity_only)
  ∧ state_run RL_Locomotion Sample.half_fed
    = Some (set_output_dof_pos_queue []
              (print (InfoRLController 0 0 0) Sample.half_fed))
  ∧ (∃ rl', execs Sample.env0
              [Run RL_Locomotion; Sense Sample.measured; Run RL_Locomotion]
              Sample.half_fed = Some rl'
            ∧ robot_command rl' = robot_command Sample.half_fed)
  ∧ (∃ rl', state_run RL_Locomotion Sample.fed = Some rl'
            ∧ output_dof_pos_queue rl' = [] ∧ output_dof_vel_queue rl' = []
            ∧ output_dof_tau_queue rl' = []
            ∧ ∀ i, (i < dofs Sample.fed)%nat →
                let c := motor_command (robot_command Sample.fed) in
                let c' := motor_command (robot_command rl') in
                mc_q c' !! i = item (output_dof_pos Sample.fed) (Z.of_nat i)
                ∧ mc_dq c' !! i = item (output_dof_vel Sample.fed) (Z.of_nat i)
                ∧ mc_kp c' !! i = item (rl_kp (params Sample.fed)) (Z.of_nat i)
                ∧ mc_kd c' !! i = item (rl_kd (params Sample.fed)) (Z.of_nat i)
                ∧ mc_tau c' !! i = Some 0).
Proof.
  split_and!.
  - apply (learned_tick RL_Locomotion Sample.velocity_only (or_introl eq_refl)).
    reflexivity.
  - apply (proj1 (proj2 (learned_tick RL_Locomotion Sample.half_fed
                           (or_introl eq_refl))) (Row [dec 1 10; 0]) []).
    + reflexivity.
    + reflexivity.
  - apply (learned_tick RL_Locomotion Sample.half_fed (or_introl eq_refl)).
    + right. reflexivity.
    + repeat constructor.
  - apply (proj2 (proj2 (proj2 (learned_tick RL_Locomotion Sample.fed
                                  (or_introl eq_refl))))
             (Row [dec 1 10; 0]) [] (Row [0; dec 3 1]) []).
    + reflexivity.
    + reflexivity.
    + unfold learned_ready, command_covers. simpl.
      change (dofs Sample.fed) with 2%nat. repeat split; lia.
Defined.

(** ** Runs of the two-DOF robot *)

(** The StandUp ramp of the two-DOF robot. *)
Lemma progress_counter_witness :
  ∃ p : nat → Qc,
    (∀ es, Forall (during GetUp) es →
           running_percent <$> execs Sample.env0 (Enter GetUp :: es) Sample.rl0
           = Some (p (runs es)))
    ∧ p 0%nat = 0
    ∧ (∀ n, p n ≤ p (S n))
    ∧ (∀ n, p n < 1 → p (S n) = Qcmin (Binary32.add (p n) Binary32.step) 1)
    ∧ (∀ n, (n < 500)%nat → Qcabs (p (S n) - p n - 1 / dec 500 1) ≤ ulp_24)
    ∧ (∀ n, 0 ≤ p n ≤ 1)
    ∧ (∀ n, p n < 1 ↔ (n ≤ 500)%nat)
    ∧ p 500%nat = after_500_ticks
    ∧ (∀ n, (501 ≤ n)%nat → p n = 1)
    ∧ (∀ n, (0 < n)%nat → p n ≠ 0)
    ∧ (∀ n, p n = Binary32.value (Binary32.progress n)).
Proof.
  apply (progress_counter Sample.env0 GetUp Sample.rl0).
  - left. reflexivity.
  - unfold ramp_ready, getup_ready, command_covers. simpl.
    change (dofs _) with 2%nat. repeat split; lia.
Defined.

(** StandUp entered at the measured pose, SitDown entered once standing. *)
Lemma sitdown_interpolation_witness :
  ∃ rl', execs Sample.env0
           [Enter GetDown; Run GetDown; Sense Sample.standing; Run GetDown]
           (set_robot_state Sample.standing (RLFSMStateGetUp.enter Sample.rl0))
         = Some rl'
         ∧ ∀ i, (i < 2)%nat →
             ∃ x y, ms_q (motor_state Sample.standing) !! i = Some x
                    ∧ ms_q (motor_state Sample.measured) !! i = Some y
                    ∧ mc_q (motor_command (robot_command rl')) !! i
                      = Some ((1 - running_percent rl') * x
                              + running_percent rl' * y).
Proof.
  apply (sitdown_interpolation Sample.env0 Sample.rl0
           (set_robot_state Sample.standing (RLFSMStateGetUp.enter Sample.rl0))
           [Sense Sample.standing]
           [Run GetDown; Sense Sample.standing; Run GetDown]).
  - repeat constructor; discriminate.
  - reflexivity.
  - unfold getdown_ready, command_covers. simpl.
    change (dofs _) with 2%nat. repeat split; lia.
  - repeat constructor.
  - simpl. lia.
Defined.

(** ** Activation of the learned modes *)

Lemma learned_enter_unfold env rl :
  learned_enter env rl
  = match InitRL env (robot_name rl +:+ "/" +:+ default_rl_config rl)
            (set_config_name (default_rl_config rl) rl) with
    | Normal rl1 => set_rl_init_done true rl1
    | Raised what rl1 =>
        set_control (mkControl STATE_POS_GETUP (ctl_x (control rl1))
                       (ctl_y (control rl1)) (ctl_yaw (control rl1)))
          (set_rl_init_done false (print (ErrorInitRLFailed what) rl1))
    end.
Proof. unfold learned_enter. cbn zeta. simpl. by destruct (InitRL _ _ _). Qed.

(** A missing profile file is reported by [ReadYamlRL] itself and does not
    make [InitRL] throw: with the parameters already in place, activation
    goes on to load the policy they name. *)
Lemma missing_profile_does_not_throw env robot_path rl handle :
  yaml_load env
    (CMAKE_CURRENT_SOURCE_DIR env +:+ "/models/" +:+ robot_path +:+ "/config.yaml")
    robot_path = YamlBadFile →
  jit_load env
    (CMAKE_CURRENT_SOURCE_DIR env +:+ "/models/" +:+ robot_path +:+ "/"
       +:+ model_name (params rl)) = JitModule handle →
  (0 ≤ num_of_dofs (params rl))%Z →
  ∃ rl', InitRL env robot_path rl = Normal rl'.
Proof.
  intros Hyaml Hjit Hdofs.
  unfold InitRL, ReadYamlRL. cbn zeta. rewrite Hyaml. simpl.
  assert (Hz : torch_zeros (num_of_dofs (params rl))
               = Some (Row (replicate (Z.to_nat (num_of_dofs (params rl))) 0))).
  { unfold torch_zeros. by rewrite decide_False by lia. }
  destruct (observations_history (params rl)) eqn:Eh; simpl; rewrite Hjit; simpl;
    unfold InitObservations; simpl; rewrite Hz; simpl;
    unfold InitOutputs; simpl; rewrite Hz; simpl;
    eexists; reflexivity.
Qed.

(** ** Unrecognized observation terms *)

Lemma unrecognized_term_skipped env rl name :
  recognized name = false → observation_term env rl name = Some Skip.
Proof.
  intros H. unfold observation_term. cbn zeta.
  repeat (case_decide; [subst name; vm_compute in H; discriminate H|]).
  done.
Qed.

Lemma observation_term_names env rl names name :
  observation_term env (with_observations names rl) name
  = observation_term env rl name.
Proof. done. Qed.

Lemma build_obs_list_names env rl names' names acc :
  build_obs_list env (with_observations names' rl) names acc
  = build_obs_list env rl names acc.
Proof.
  revert acc. induction names as [|n names IH]; intros acc; simpl; [done|].
  rewrite observation_term_names.
  destruct (observation_term env rl n); simpl; [apply IH|done].
Qed.

Lemma build_obs_list_filter env rl names acc :
  build_obs_list env rl names acc
  = build_obs_list env rl (List.filter recognized names) acc.
Proof.
  revert acc. induction names as [|n names IH]; intros acc; simpl; [done|].
  destruct (recognized n) eqn:R; simpl.
  - destruct (observation_term env rl n); simpl; [apply IH|done].
  - rewrite (unrecognized_term_skipped env rl n R). simpl. apply IH.
Qed.

(** C5, as the code has it.  A term name outside the recognized set pushes
    nothing: [ComputeObservation] returns what it returns for the term list
    with such names removed.  [InitRL] does not look at the names beyond
    replacing ang_vel: whenever the profile and the policy load and the DOF
    count is not negative, it succeeds and stores the names of the
    profile. *)
Theorem unrecognized_terms_skipped (env : Env) (rl : RL) :
  (∀ name, recognized name = false → observation_term env rl name = Some Skip)
  ∧ ComputeObservation env rl
    = ComputeObservation env
        (with_observations (List.filter recognized (observations (params rl))) rl)
  ∧ (∀ robot_path c handle,
       yaml_load env
         (CMAKE_CURRENT_SOURCE_DIR env +:+ "/models/" +:+ robot_path
            +:+ "/config.yaml") robot_path = YamlNode c →
       jit_load env
         (CMAKE_CURRENT_SOURCE_DIR env +:+ "/models/" +:+ robot_path +:+ "/"
            +:+ model_name c) = JitModule handle →
       (0 ≤ num_of_dofs c)%Z →
       ∃ rl', InitRL env robot_path rl = Normal rl'
              ∧ observations (params rl')
                = map (resolve_ang_vel (is_simulation rl)) (observations c)).
Proof.
  split_and!.
  - intros name. apply unrecognized_term_skipped.
  - unfold ComputeObservation.
    rewrite build_obs_list_names. simpl.
    by rewrite <- build_obs_list_filter.
  - intros robot_path c handle Hyaml Hjit Hdofs.
    unfold InitRL, ReadYamlRL. cbn zeta. rewrite Hyaml. simpl.
    assert (Hz : torch_zeros (num_of_dofs c)
                 = Some (Row (replicate (Z.to_nat (num_of_dofs c)) 0))).
    { unfold torch_zeros. by rewrite decide_False by lia. }
    destruct (observations_history c) eqn:Eh; simpl; rewrite Hjit; simpl;
      unfold InitObservations; simpl; rewrite Hz; simpl;
      unfold InitOutputs; simpl; rewrite Hz; simpl;
      eexists; (split; [reflexivity|]); simpl; done.
Qed.

(** C5 as stated fails.  With the misspelt term dof_velocity in the
    profile, entering Locomotion succeeds: nothing is printed, the ready
    flag is set, the requested mode is untouched and the machine stays in
    Locomotion; the observation row is the one of dof_pos and actions. *)
Lemma unrecognized_term_counterexample :
  observations (params Sample.entered_misspelt) = ["dof_pos"; "dof_velocity"; "actions"]
  ∧ recognized "dof_velocity" = false
  ∧ rl_init_done Sample.entered_misspelt = true
  ∧ stdout Sample.entered_misspelt = []
  ∧ control_state (control Sample.entered_misspelt) = STATE_RL_LOCOMOTION
  ∧ state_checkChange RL_Locomotion Sample.entered_misspelt = getStateName RL_Locomotion
  ∧ ComputeObservation Sample.env_misspelt Sample.entered_misspelt
    = Some (Row [0; 0; 0; 0])
  ∧ ComputeObservation Sample.env_misspelt Sample.entered_misspelt
    = ComputeObservation Sample.env_misspelt
        (with_observations ["dof_pos"; "actions"] Sample.entered_misspelt).
Proof.
  split_and!; vm_compute; reflexivity.
Qed.

(** The misspelt profile: the term is skipped and activation succeeds. *)
Lemma unrecognized_terms_skipped_witness :
  (recognized "dof_velocity" = false →
   observation_term Sample.env_misspelt Sample.entered_misspelt "dof_velocity" = Some Skip)
  ∧ ∃ rl', InitRL Sample.env_misspelt "go2w/robot_lab" Sample.rl0 = Normal rl'
           ∧ observations (params rl')
             = map (resolve_ang_vel false) ["dof_pos"; "dof_velocity"; "actions"].
Proof.
  split.
  - apply (proj1 (unrecognized_terms_skipped Sample.env_misspelt Sample.entered_misspelt)).
  - apply (proj2 (proj2 (unrecognized_terms_skipped Sample.env_misspelt Sample.rl0))
             "go2w/robot_lab" Sample.misspelt "/rl_sar/models/go2w/robot_lab/policy.pt").
    + reflexivity.
    + reflexivity.
    + vm_compute. discriminate.
Defined.

(** ** Rotation and safety checks *)

(** C7. On a quaternion of four entries and a vector of three,
    [QuatRotateInverse] returns v (2 w^2 - 1) - 2 w (q_vec x v)
    + 2 q_vec (q_vec . v), with w the first entry and q_vec the last three
    under isaacsim and w the last entry and q_vec the first three under
    isaacgym; at the identity quaternion of either convention it returns
    [v] unchanged. *)
Theorem quat_rotate_inverse_formula (q0 q1 q2 q3 v1 v2 v3 : Qc) :
  QuatRotateInverse (Row [q0; q1; q2; q3]) (Row [v1; v2; v3]) "isaacsim"
  = Some (vrow (inverse_rotation q0 (q1, q2, q3) (v1, v2, v3)))
  ∧ QuatRotateInverse (Row [q0; q1; q2; q3]) (Row [v1; v2; v3]) "isaacgym"
    = Some (vrow (inverse_rotation q3 (q0, q1, q2) (v1, v2, v3)))
  ∧ scalar_and_vector "isaacsim" q0 q1 q2 q3 = Some (q0, (q1, q2, q3))
  ∧ scalar_and_vector "isaacgym" q0 q1 q2 q3 = Some (q3, (q0, q1, q2))
  ∧ QuatRotateInverse (Row [1; 0; 0; 0]) (Row [v1; v2; v3]) "isaacsim"
    = Some (Row [v1; v2; v3])
  ∧ QuatRotateInverse (Row [0; 0; 0; 1]) (Row [v1; v2; v3]) "isaacgym"
    = Some (Row [v1; v2; v3]).
Proof.
  split_and!; try reflexivity;
    unfold QuatRotateInverse, quat_parts, slice; simpl;
    do 2 f_equal; (f_equal; [ring|]); (f_equal; [ring|]); f_equal; ring.
Qed.

Lemma set_stdout_same rl : set_stdout (stdout rl) rl = rl.
Proof. by destruct rl. Qed.

Lemma set_stdout_twice a b rl : set_stdout a (set_stdout b rl) = set_stdout a rl.
Proof. by destruct rl. Qed.

Lemma attitude_parts_convention fw q0 q1 q2 q3 :
  attitude_parts [q0; q1; q2; q3] fw
  = (λ '(w, (x, y, z)), (w, x, y, z)) <$> scalar_and_vector fw q0 q1 q2 q3.
Proof.
  unfold attitude_parts, scalar_and_vector.
  repeat case_decide; subst; try done.
Qed.

Lemma copysign_90 (s : Qc) :
  copysign (dec 90 1) s = if decide (s < 0) then - dec 90 1 else dec 90 1.
Proof.
  unfold copysign.
  assert (E : Qcabs (dec 90 1) = dec 90 1) by (apply Qc_is_canon; reflexivity).
  by rewrite E.
Qed.

Lemma std_asin_in_domain env (s : Qc) :
  ¬ 1 ≤ Qcabs s → std_asin env s = Some (asin env s).
Proof.
  intros H. unfold std_asin. rewrite decide_True; [done|].
  apply Qclt_le_weak. by apply Qcnot_le_lt.
Qed.

Lemma attitude_spec env fw q0 q1 q2 q3 w x y z :
  scalar_and_vector fw q0 q1 q2 q3 = Some (w, (x, y, z)) →
  attitude env [q0; q1; q2; q3] fw
  = Some (mkAttitude (spec_roll env w x y z) (spec_pitch env w x y z)).
Proof.
  intros H. unfold attitude. rewrite attitude_parts_convention, H. simpl.
  unfold spec_roll, spec_pitch. cbn zeta.
  destruct (decide (1 ≤ Qcabs (2 * (w * y - z * x)))) as [Hs|Hs]; simpl.
  - by rewrite copysign_90.
  - by rewrite std_asin_in_domain.
Qed.

Lemma AttitudeProtect_spec env rl q0 q1 q2 q3 w x y z pitch_threshold roll_threshold :
  scalar_and_vector (framework (params rl)) q0 q1 q2 q3 = Some (w, (x, y, z)) →
  AttitudeProtect env rl [q0; q1; q2; q3] pitch_threshold roll_threshold
  = Some (set_stdout
            (stdout rl ++ attitude_warnings pitch_threshold roll_threshold
                            (spec_roll env w x y z) (spec_pitch env w x y z)) rl).
Proof.
  intros H. unfold AttitudeProtect. rewrite (attitude_spec _ _ _ _ _ _ _ _ _ _ H).
  simpl. unfold attitude_warnings, print. f_equal.
  repeat case_decide; simpl; rewrite ?set_stdout_twice, ?app_nil_r, ?set_stdout_same;
    try done.
  by rewrite <- app_assoc.
Qed.

(** C10. On a quaternion of four entries (and a vector of three),
    [QuatRotateInverse] and [AttitudeProtect] have a result exactly when the
    framework string is isaacsim or isaacgym; for any other string neither
    branch assigns the quaternion components, which are then used
    unassigned. *)
Theorem framework_precondition (env : Env) (rl : RL) (fw : string)
  (q0 q1 q2 q3 v1 v2 v3 pitch_threshold roll_threshold : Qc) :
  (is_Some (QuatRotateInverse (Row [q0; q1; q2; q3]) (Row [v1; v2; v3]) fw)
   ↔ fw = "isaacsim" ∨ fw = "isaacgym")
  ∧ (is_Some (AttitudeProtect env rl [q0; q1; q2; q3] pitch_threshold roll_threshold)
     ↔ framework (params rl) = "isaacsim" ∨ framework (params rl) = "isaacgym")
  ∧ (fw ≠ "isaacsim" → fw ≠ "isaacgym" →
     quat_parts [q0; q1; q2; q3] fw = None
     ∧ attitude_parts [q0; q1; q2; q3] fw = None).
Proof.
  split_and!.
  - unfold QuatRotateInverse, quat_parts, slice. simpl.
    destruct (decide (fw = "isaacsim")) as [->|H1]; simpl.
    { split; [auto|intros _; by eexists]. }
    destruct (decide (fw = "isaacgym")) as [->|H2]; simpl.
    { split; [auto|intros _; by eexists]. }
    split; [intros [? H]; discriminate H|intros [?|?]; done].
  - destruct (scalar_and_vector (framework (params rl)) q0 q1 q2 q3)
      as [[w [[x y] z]]|] eqn:E.
    + rewrite (AttitudeProtect_spec _ _ _ _ _ _ _ _ _ _ _ _ E).
      split; [intros _|intros _; by eexists].
      unfold scalar_and_vector in E. repeat case_decide; auto. discriminate E.
    + unfold AttitudeProtect, attitude. rewrite attitude_parts_convention, E. simpl.
      split; [intros [? H]; discriminate H|].
      unfold scalar_and_vector in E. intros [H|H]; rewrite H in E; discriminate E.
  - intros H1 H2. unfold quat_parts, attitude_parts.
    by rewrite !decide_False by done.
Qed.

Lemma out_of_range_iff (t l : Qc) : (t < - l ∨ l < t) ↔ l < Qcabs t.
Proof.
  pose proof (Qcabs_Qcle_condition t l) as C. split.
  - intros H. apply Qcnot_le_lt. intros A. apply C in A as [H1 H2].
    destruct H as [H|H]; qc_lra.
  - intros H. destruct (Qclt_le_dec t (- l)) as [?|H1]; [by left|].
    destruct (Qclt_le_dec l t) as [?|H2]; [by right|].
    exfalso. apply (Qclt_not_le _ _ H). apply C. by split.
Qed.

Lemma torque_scan_step rl tau limits k acc :
  torque_limits (params rl) = Row limits →
  (k < length tau)%nat → (k < length limits)%nat →
  torque_scan_body rl (Row tau) k acc = Some (acc ++ found_at tau limits k).
Proof.
  intros Hl Ht Hm.
  destruct (lookup_lt_is_Some_2 tau k Ht) as [t Et].
  destruct (lookup_lt_is_Some_2 limits k Hm) as [l El].
  unfold torque_scan_body, found_at. rewrite Hl.
  rewrite (item_Row _ _ _ Et), (item_Row _ _ _ El), Et, El. simpl.
  case_decide; [done|by rewrite app_nil_r].
Qed.

Lemma torque_scan rl tau limits m k acc :
  torque_limits (params rl) = Row limits →
  (k + m ≤ length tau)%nat → (k + m ≤ length limits)%nat →
  for_each (torque_scan_body rl (Row tau)) (seq k m) acc
  = Some (acc ++ mjoin (map (found_at tau limits) (seq k m))).
Proof.
  intros Hl. revert k acc. induction m as [|m IH]; intros k acc Ht Hm.
  - simpl. by rewrite app_nil_r.
  - change (seq k (S m)) with (k :: seq (S k) m).
    change (for_each (torque_scan_body rl (Row tau)) (k :: seq (S k) m) acc)
      with (torque_scan_body rl (Row tau) k acc
            ≫= for_each (torque_scan_body rl (Row tau)) (seq (S k) m)).
    rewrite (torque_scan_step rl tau limits k acc Hl) by lia. simpl.
    rewrite IH by lia. by rewrite <- app_assoc.
Qed.

Lemma torque_warn_found rl tau limits m k out :
  torque_limits (params rl) = Row limits →
  (k + m ≤ length tau)%nat → (k + m ≤ length limits)%nat →
  torque_warn rl (mjoin (map (found_at tau limits) (seq k m))) out
  = Some (out ++ mjoin (map (torque_warning tau limits) (seq k m))).
Proof.
  intros Hl. revert k out. induction m as [|m IH]; intros k out Ht Hm; simpl.
  - by rewrite app_nil_r.
  - destruct (lookup_lt_is_Some_2 tau k) as [t Et]; [lia|].
    destruct (lookup_lt_is_Some_2 limits k) as [l El]; [lia|].
    unfold found_at at 1, torque_warning at 1. rewrite Et, El.
    destruct (decide (t < - l ∨ l < t)) as [Ho|Ho].
    + rewrite decide_True by (by apply out_of_range_iff). simpl.
      rewrite Hl, (item_Row _ _ _ El). simpl.
      rewrite IH by lia. by rewrite <- app_assoc.
    + rewrite decide_False by (by rewrite <- out_of_range_iff). simpl.
      by rewrite IH by lia.
Qed.

Lemma TorqueProtect_spec rl tau limits :
  torque_limits (params rl) = Row limits →
  (length tau ≤ length limits)%nat →
  TorqueProtect rl (Row tau)
  = Some (set_stdout (stdout rl ++ torque_warnings tau limits) rl).
Proof.
  intros Hl Hlen. unfold TorqueProtect. simpl.
  rewrite (torque_scan rl tau limits _ 0 [] Hl) by (simpl; lia). simpl.
  rewrite (torque_warn_found rl tau limits _ 0 _ Hl) by (simpl; lia). simpl.
  done.
Qed.

(** C9. With a limit for every torque entry, [TorqueProtect] returns, and
    all it does is print one warning, with index, value and bounds, for
    each DOF whose torque magnitude exceeds its limit.  Under either
    quaternion convention [AttitudeProtect] returns, and all it does is
    print a warning when the magnitude of roll = atan2(2(wx+yz),
    1-2(x^2+y^2)) or of pitch exceeds its threshold, where pitch is
    asin(2(wy-zx)), taken only inside the domain of asin, and is 90 degrees
    with the sign of 2(wy-zx) once that reaches magnitude 1.  Neither
    changes the requested mode, the control target or JointCommand. *)
Theorem safety_checks_advisory (env : Env) (rl : RL) :
  (∀ tau limits,
     torque_limits (params rl) = Row limits →
     (length tau ≤ length limits)%nat →
     ∃ rl', TorqueProtect rl (Row tau) = Some rl'
            ∧ stdout rl' = stdout rl ++ torque_warnings tau limits
            ∧ rl' = set_stdout (stdout rl') rl
            ∧ control rl' = control rl
            ∧ robot_command rl' = robot_command rl)
  ∧ (∀ q0 q1 q2 q3 w x y z pitch_threshold roll_threshold,
       scalar_and_vector (framework (params rl)) q0 q1 q2 q3 = Some (w, (x, y, z)) →
       ∃ rl', AttitudeProtect env rl [q0; q1; q2; q3] pitch_threshold roll_threshold
              = Some rl'
              ∧ stdout rl'
                = stdout rl
                  ++ attitude_warnings pitch_threshold roll_threshold
                       (spec_roll env w x y z) (spec_pitch env w x y z)
              ∧ rl' = set_stdout (stdout rl') rl
              ∧ control rl' = control rl
              ∧ robot_command rl' = robot_command rl).
Proof.
  split.
  - intros tau limits Hl Hlen. rewrite (TorqueProtect_spec rl tau limits Hl Hlen).
    eexists. split; [reflexivity|]. by destruct rl.
  - intros q0 q1 q2 q3 w x y z pt rt H.
    rewrite (AttitudeProtect_spec _ _ _ _ _ _ _ _ _ _ _ _ H).
    eexists. split; [reflexivity|]. by destruct rl.
Qed.


(** ** Action decoding *)

Lemma broadcast_same f (a b : list Qc) :
  length a = length b → broadcast f a b = Some (zip_with f a b).
Proof. intros H. unfold broadcast. by rewrite decide_True. Qed.

Lemma tensor_op_rows f (a b : list Qc) :
  length a = length b → tensor_op f (Row a) (Row b) = Some (Row (zip_with f a b)).
Proof. intros H. unfold tensor_op. simpl. by rewrite broadcast_same. Qed.

Lemma length_zip_with_same {A B C} (f : A → B → C) (a : list A) (b : list B) :
  length a = length b → length (zip_with f a b) = length a.
Proof. intros H. rewrite length_zip_with. lia. Qed.

Lemma norm_index_valid (n : nat) (i : Z) :
  (0 ≤ i < Z.of_nat n)%Z → norm_index n i = Some (Z.to_nat i).
Proof. intros H. unfold norm_index. by rewrite decide_True. Qed.

Lemma split_wheels_spec (wheels : list Z) (n : nat) (scaled p v : list Qc) :
  length scaled = n → length p = n → length v = n →
  Forall (λ i, (0 ≤ i < Z.of_nat n)%Z) wheels →
  ∃ p' v', split_wheels wheels (Row scaled) (Row p, Row v) = Some (Row p', Row v')
           ∧ length p' = n ∧ length v' = n
           ∧ ∀ j, (j < n)%nat →
               p' !! j = (if decide (Z.of_nat j ∈ wheels) then Some 0 else p !! j)
               ∧ v' !! j = (if decide (Z.of_nat j ∈ wheels) then scaled !! j
                            else v !! j).
Proof.
  intros Hs Hp Hv Hw. revert p v Hp Hv.
  induction Hw as [|i wheels Hi Hw IH]; intros p v Hp Hv.
  - exists p, v. by split_and!.
  - simpl. unfold set_item, item. simpl.
    rewrite Hp, Hs, Hv, (norm_index_valid n i Hi). simpl.
    destruct (lookup_lt_is_Some_2 scaled (Z.to_nat i)) as [x Ex]; [lia|].
    rewrite Ex. simpl.
    destruct (IH (<[Z.to_nat i := 0]> p) (<[Z.to_nat i := x]> v))
      as (p' & v' & E & Lp & Lv & H); [by rewrite length_insert..|].
    exists p', v'. split_and!; try done.
    intros j Hj. destruct (H j Hj) as [Hpj Hvj]. rewrite Hpj, Hvj.
    destruct (decide (Z.of_nat j ∈ wheels)) as [Hin|Hin].
    + rewrite !decide_True by (rewrite elem_of_cons; by right). done.
    + destruct (decide (Z.of_nat j = i)) as [<-|Hne].
      * rewrite !decide_True by (rewrite elem_of_cons; by left).
        rewrite Nat2Z.id in *.
        rewrite !list_lookup_insert_eq by lia. done.
      * rewrite !decide_False by (rewrite elem_of_cons; intros [?|?]; done).
        rewrite !list_lookup_insert_ne by lia. done.
Qed.

(** C6. With one entry per DOF in the action and in every configured row,
    and wheel indices that are DOF indices, [ComputeOutput] returns, and for
    every DOF: a wheel DOF gets velocity action * scale and the default
    position; any other DOF gets velocity 0 and position
    action * scale + default; and the torque is
    kp (action * scale + default - measured position) - kd (measured
    velocity), clamped to [-limit, limit]. *)
Theorem action_decoder (rl : RL) (a s d m mv kp kd lim : list Qc) :
  action_scale (params rl) = Row s → default_dof_pos (params rl) = Row d →
  dof_pos (obs rl) = Row m → dof_vel (obs rl) = Row mv →
  rl_kp (params rl) = Row kp → rl_kd (params rl) = Row kd →
  torque_limits (params rl) = Row lim →
  length s = length a → length d = length a → length m = length a →
  length mv = length a → length kp = length a → length kd = length a →
  length lim = length a →
  Forall (λ i, (0 ≤ i < Z.of_nat (length a))%Z) (wheel_indices (params rl)) →
  ∃ pos vel tau,
    ComputeOutput rl (Row a) = Some (Row pos, Row vel, Row tau)
    ∧ ∀ i ai si di mi mvi kpi kdi li,
        a !! i = Some ai → s !! i = Some si → d !! i = Some di →
        m !! i = Some mi → mv !! i = Some mvi → kp !! i = Some kpi →
        kd !! i = Some kdi → lim !! i = Some li →
        (Z.of_nat i ∈ wheel_indices (params rl) →
         vel !! i = Some (ai * si) ∧ pos !! i = Some di)
        ∧ (Z.of_nat i ∉ wheel_indices (params rl) →
           vel !! i = Some 0 ∧ pos !! i = Some (ai * si + di))
        ∧ tau !! i
          = Some (clamp (kpi * (ai * si + di - mi) - kdi * mvi) (- li) li).
Proof.
  intros Hs Hd Hm Hmv Hkp Hkd Hlim Ls Ld Lm Lmv Lkp Lkd Llim Hw.
  set (n := length a) in *.
  destruct (split_wheels_spec (wheel_indices (params rl)) n
              (zip_with Qcmult a s) (zip_with Qcmult a s) (replicate n 0))
    as (p' & v' & E & Lp & Lv & H);
    [by rewrite length_zip_with_same..|by rewrite length_replicate|done|].
  unfold ComputeOutput. cbn zeta.
  rewrite Hs, Hd, Hm, Hmv, Hkp, Hkd, Hlim.
  unfold tensor_mul, tensor_add, tensor_sub, tensor_clamp, tensor_neg, zeros_like.
  rewrite (tensor_op_rows Qcmult a s) by done. simpl. fold n.
  rewrite E. simpl.
  repeat (rewrite tensor_op_rows
            by (rewrite ?length_zip_with, ?length_map; lia);
          simpl).
  eexists _, _, _. split; [reflexivity|].
  intros i ai si di mi mvi kpi kdi li Ea Es Ed Em Emv Ekp Ekd Elim.
  assert (Hi : (i < n)%nat) by (by eapply lookup_lt_Some).
  destruct (H i Hi) as [Hp Hv].
  rewrite !lookup_zip_with, list_lookup_fmap.
  rewrite Hp, Hv. rewrite !lookup_zip_with, lookup_replicate_2 by done.
  rewrite Ea, Es, Ed, Em, Emv, Ekp, Ekd, Elim. simpl.
  destruct (decide (Z.of_nat i ∈ wheel_indices (params rl))) as [Hin|Hin]; simpl;
    split_and!; intros;
    first [ done
          | split; f_equal; ring
          | unfold clamp; do 3 f_equal; ring ].
Qed.

(** ** More runs of the two-DOF robot *)

(** The action [2, 3] decoded for the two-DOF robot. *)
Lemma action_decoder_witness :
  ∃ pos vel tau,
    ComputeOutput Sample.rl0 (Row [dec 2 1; dec 3 1])
    = Some (Row pos, Row vel, Row tau)
    ∧ ∀ i ai si di mi mvi kpi kdi li,
        [dec 2 1; dec 3 1] !! i = Some ai → [dec 1 4; dec 1 4] !! i = Some si →
        [0; 0] !! i = Some di → [dec 1 2; dec (-3) 10] !! i = Some mi →
        [dec 1 1; dec (-2) 1] !! i = Some mvi →
        [dec 20 1; dec 20 1] !! i = Some kpi →
        [dec 1 2; dec 1 2] !! i = Some kdi →
        [dec 10 1; dec 10 1] !! i = Some li →
        (Z.of_nat i ∈ [1%Z] → vel !! i = Some (ai * si) ∧ pos !! i = Some di)
        ∧ (Z.of_nat i ∉ [1%Z] →
           vel !! i = Some 0 ∧ pos !! i = Some (ai * si + di))
        ∧ tau !! i
          = Some (clamp (kpi * (ai * si + di - mi) - kdi * mvi) (- li) li).
Proof.
  apply (action_decoder Sample.rl0 [dec 2 1; dec 3 1] [dec 1 4; dec 1 4] [0; 0]
           [dec 1 2; dec (-3) 10] [dec 1 1; dec (-2) 1] [dec 20 1; dec 20 1]
           [dec 1 2; dec 1 2] [dec 10 1; dec 10 1]);
    try reflexivity.
  repeat constructor; simpl; lia.
Defined.

(** A torque of 12 against a limit of 10, and the level attitude. *)
Lemma safety_checks_advisory_witness :
  (∃ rl', TorqueProtect Sample.rl0 (Row [dec 12 1; dec (-3) 1]) = Some rl'
          ∧ stdout rl'
            = stdout Sample.rl0
              ++ torque_warnings [dec 12 1; dec (-3) 1] [dec 10 1; dec 10 1]
          ∧ rl' = set_stdout (stdout rl') Sample.rl0
          ∧ control rl' = control Sample.rl0
          ∧ robot_command rl' = robot_command Sample.rl0)
  ∧ (∃ rl', AttitudeProtect Sample.env0 Sample.rl0 [0; 0; 0; 1]
              (dec 75 1) (dec 75 1) = Some rl'
            ∧ stdout rl'
              = stdout Sample.rl0
                ++ attitude_warnings (dec 75 1) (dec 75 1)
                     (spec_roll Sample.env0 1 0 0 0)
                     (spec_pitch Sample.env0 1 0 0 0)
            ∧ rl' = set_stdout (stdout rl') Sample.rl0
            ∧ control rl' = control Sample.rl0
            ∧ robot_command rl' = robot_command Sample.rl0).
Proof.
  split.
  - apply (proj1 (safety_checks_advisory Sample.env0 Sample.rl0)).
    + reflexivity.
    + simpl. lia.
  - apply (proj2 (safety_checks_advisory Sample.env0 Sample.rl0)).
    reflexivity.
Defined.

(** A supported and an unsupported framework string. *)
Lemma framework_precondition_witness :
  is_Some (QuatRotateInverse (Row [0; 0; 0; 1]) (Row [0; 0; - (1)]) "isaacgym")
  ∧ quat_parts [0; 0; 0; 1] "mujoco" = None
  ∧ attitude_parts [0; 0; 0; 1] "mujoco" = None.
Proof.
  pose proof (framework_precondition Sample.env0 Sample.rl0 "isaacgym"
                0 0 0 1 0 0 (- (1)) (dec 75 1) (dec 75 1)) as [H _].
  pose proof (framework_precondition Sample.env0 Sample.rl0 "mujoco"
                0 0 0 1 0 0 (- (1)) (dec 75 1) (dec 75 1)) as (_ & _ & N).
  split.
  - apply H. right. reflexivity.
  - apply N; discriminate.
Defined.

(** ** The ramps of StandUp and SitDown *)

Lemma ramp_q_frame s rl rl' i :
  now_state rl' = now_state rl → start_state rl' = start_state rl →
  params rl' = params rl → running_percent rl' = running_percent rl →
  ramp_q s rl' i = ramp_q s rl i.
Proof.
  intros N S P R. destruct s; simpl; try done.
  - unfold getup_q. by rewrite N, P, R.
  - unfold getdown_q. by rewrite N, S, R.
Qed.

Lemma ramp_q_is_Some s rl i :
  ramp_ready s rl → (i < dofs rl)%nat → is_Some (ramp_q s rl i).
Proof.
  intros Hr Hi. destruct s; simpl in *; try done.
  - destruct Hr as (Hq & Hd & _).
    destruct (lookup_lt_is_Some_2 (ms_q (motor_state (now_state rl))) i) as [x Hx];
      [lia|].
    destruct (tensor_covers_item _ _ i Hd Hi) as [d Ed].
    unfold getup_q. rewrite Hx, Ed. by eexists.
  - destruct Hr as (Hq & Hs & _).
    destruct (lookup_lt_is_Some_2 (ms_q (motor_state (now_state rl))) i) as [x Hx];
      [lia|].
    destruct (lookup_lt_is_Some_2 (ms_q (motor_state (start_state rl))) i) as [y Hy];
      [lia|].
    unfold getdown_q. rewrite Hx, Hy. by eexists.
Qed.

Lemma ramp_run_lt s rl :
  ramp_ready s rl → running_percent rl < 1 →
  ∃ line,
    state_run s rl
    = Some (print line
              (set_robot_command
                 (mkRobotCommand
                    (dof_prefix (ramp_q s (advance rl)) (λ _, Some 0) (λ _, Some 0)
                       (λ i, item (fixed_kp (params rl)) (Z.of_nat i))
                       (λ i, item (fixed_kd (params rl)) (Z.of_nat i))
                       (dofs rl) (motor_command (robot_command rl))))
                 (advance rl))).
Proof.
  intros Hr Hp. destruct s; simpl in Hr; try done; simpl.
  - eexists. by apply getup_run_lt.
  - eexists. by apply getdown_run_lt.
Qed.

Lemma ramp_run_tracks s rl rl' :
  ramp_ready s rl →
  (1 ≤ running_percent rl → ramp_tracks s rl) →
  state_run s rl = Some rl' → ramp_tracks s rl'.
Proof.
  intros Hr Hold Hrun.
  destruct (decide (running_percent rl < 1)) as [Hp|Hp].
  - destruct (ramp_run_lt s rl Hr Hp) as [line E]. rewrite E in Hrun.
    injection Hrun as <-.
    assert (Hc : command_covers (dofs rl) (motor_command (robot_command rl))).
    { destruct s; simpl in Hr; try done; by destruct Hr as (_&_&_&_&?). }
    assert (Hra : ramp_ready s (advance rl)) by (by destruct s).
    intros i Hi. unfold dofs in Hi. simpl in Hi. fold (dofs rl) in Hi.
    destruct Hc as (?&?&?&?&?).
    assert (Q : ramp_q s (print line (set_robot_command
                 (mkRobotCommand
                    (dof_prefix (ramp_q s (advance rl)) (λ _, Some 0) (λ _, Some 0)
                       (λ i, item (fixed_kp (params rl)) (Z.of_nat i))
                       (λ i, item (fixed_kd (params rl)) (Z.of_nat i))
                       (dofs rl) (motor_command (robot_command rl))))
                 (advance rl))) i = ramp_q s (advance rl) i)
      by (by apply ramp_q_frame).
    cbn zeta. rewrite Q.
    destruct (ramp_q_is_Some s (advance rl) i Hra Hi) as [v Hv].
    assert (Hkp : is_Some (item (fixed_kp (params rl)) (Z.of_nat i))).
    { destruct s; simpl in Hr; try done;
        destruct Hr as (_&?&?&?&_); by apply (tensor_covers_item (dofs rl)). }
    assert (Hkd : is_Some (item (fixed_kd (params rl)) (Z.of_nat i))).
    { destruct s; simpl in Hr; try done;
        destruct Hr as (_&?&?&?&_); by apply (tensor_covers_item (dofs rl)). }
    destruct Hkp as [kp Ekp]. destruct Hkd as [kd Ekd].
    simpl. rewrite Hv, Ekp, Ekd.
    split_and!; [by eexists|apply prefix_lookup_lt; done || lia..].
  - assert (E : state_run s rl = Some rl).
    { destruct s; simpl in Hr; try done; simpl;
        unfold RLFSMStateGetUp.run, RLFSMStateGetDown.run;
        by rewrite decide_False. }
    rewrite E in Hrun. injection Hrun as <-. apply Hold. by apply Qcnot_lt_le.
Qed.

Lemma ramp_tracks_frame s rl rl' :
  now_state rl' = now_state rl → start_state rl' = start_state rl →
  params rl' = params rl → running_percent rl' = running_percent rl →
  robot_command rl' = robot_command rl →
  ramp_tracks s rl → ramp_tracks s rl'.
Proof.
  intros N S P R C T i Hi. unfold dofs in Hi. rewrite P in Hi.
  specialize (T i Hi). cbn zeta in *.
  by rewrite (ramp_q_frame s rl rl' i N S P R), C, P.
Qed.

Lemma ramp_tracks_trace env s es (k : nat) rl :
  Forall (during s) es →
  ramp_ready s rl →
  (1 ≤ running_percent rl → ramp_tracks s rl) →
  ((0 < k)%nat → ramp_tracks s rl) →
  ∃ rl', execs env es rl = Some rl'
         ∧ ((0 < k + runs es)%nat → ramp_tracks s rl')
         ∧ running_percent rl' = Nat.iter (runs es) ramp (running_percent rl)
         ∧ now_state rl' = now_state rl ∧ start_state rl' = start_state rl
         ∧ params rl' = params rl.
Proof.
  intros Hes. revert k rl.
  induction Hes as [|e es He Hes IH]; intros k rl Hr H1 Hk.
  - exists rl. simpl. rewrite Nat.add_0_r. by split_and!.
  - destruct e as [st|c|s'|s'|s']; simpl in He; try done.
    + destruct (IH k (set_robot_state st rl)) as (rl2 & E2 & T2 & P2 & N2 & S2 & M2).
      * by destruct s.
      * intros H. by apply (ramp_tracks_frame s rl); [..|apply H1].
      * intros H. by apply (ramp_tracks_frame s rl); [..|apply Hk].
      * exists rl2. simpl. by split_and!.
    + destruct (IH k (set_control c rl)) as (rl2 & E2 & T2 & P2 & N2 & S2 & M2).
      * by destruct s.
      * intros H. by apply (ramp_tracks_frame s rl); [..|apply H1].
      * intros H. by apply (ramp_tracks_frame s rl); [..|apply Hk].
      * exists rl2. simpl. by split_and!.
    + subst s'.
      destruct (ramp_run s rl Hr) as (rl1 & E1 & P1 & R1 & N1 & S1 & M1).
      assert (T1 : ramp_tracks s rl1) by exact (ramp_run_tracks s rl rl1 Hr H1 E1).
      destruct (IH (S k) rl1) as (rl2 & E2 & T2 & P2 & N2 & S2 & M2); [done|done|done|].
      exists rl2. simpl. rewrite E1. simpl. rewrite E2.
      split_and!; try congruence.
      * intros _. apply T2. lia.
      * rewrite P2, P1. symmetry.
        exact (Nat.iter_succ_r (runs es) ramp (running_percent rl)).
Qed.

Lemma ramp_enter_tracks env s rl es :
  s = GetUp ∨ s = GetDown →
  ramp_ready s (state_enter env s rl) →
  Forall (during s) es → (0 < runs es)%nat →
  ∃ rl', execs env (Enter s :: es) rl = Some rl'
         ∧ ramp_tracks s rl'
         ∧ running_percent rl' = ramp_value (runs es)
         ∧ now_state rl' = robot_state rl
         ∧ start_state rl' = start_state (state_enter env s rl)
         ∧ params rl' = params rl.
Proof.
  intros Hs Hr Hes Hruns.
  destruct (ramp_tracks_trace env s es 0 (state_enter env s rl) Hes Hr)
    as (rl' & E & T & P & N & S & M).
  { rewrite ramp_enter_zero by done. intros H. exfalso. revert H.
    apply Qclt_not_le. qc_lra. }
  { lia. }
  exists rl'. simpl. rewrite E.
  split_and!; try done.
  - by apply T.
  - by rewrite P, ramp_enter_zero, ramp_iter.
  - rewrite N. by destruct Hs as [-> | ->].
  - rewrite M. by destruct Hs as [-> | ->].
Qed.

(** X1. StandUp interpolation.  Let StandUp be entered in state [rl] and
    be ticked at least once, with sensor readings and operator input
    arriving in any order.  With [p] the progress counter, which after [n]
    ticks is what [n] single-precision additions of [1.0f / 500.0f] to 0,
    each clamped at 1, leave, every DOF is commanded the position
    [(1 - p) * x + p * d], where [x] is the position measured at entry and
    [d] the default position of the profile, together with velocity 0, the
    fixed gains and torque 0. *)
Theorem standup_interpolation (env : Env) (rl : RL) (es : list Event) :
  getup_ready (RLFSMStateGetUp.enter rl) →
  Forall (during GetUp) es → (0 < runs es)%nat →
  ∃ rl', execs env (Enter GetUp :: es) rl = Some rl'
         ∧ running_percent rl' = Binary32.value (Binary32.progress (runs es))
         ∧ ∀ i, (i < dofs rl)%nat →
             ∃ x d, ms_q (motor_state (robot_state rl)) !! i = Some x
                    ∧ item (default_dof_pos (params rl)) (Z.of_nat i) = Some d
                    ∧ let c := motor_command (robot_command rl') in
                      mc_q c !! i
                      = Some ((1 - running_percent rl') * x + running_percent rl' * d)
                      ∧ mc_dq c !! i = Some 0
                      ∧ mc_kp c !! i = item (fixed_kp (params rl)) (Z.of_nat i)
                      ∧ mc_kd c !! i = item (fixed_kd (params rl)) (Z.of_nat i)
                      ∧ mc_tau c !! i = Some 0.
Proof.
  intros Hr Hes Hruns.
  destruct (ramp_enter_tracks env GetUp rl es) as (rl' & E & T & P & N & S & M);
    [by left|done..|].
  exists rl'. split; [done|]. split.
  { rewrite P. destruct (ramp_value_facts (runs es)) as [F _]. exact F. }
  intros i Hi.
  assert (Hd : dofs rl' = dofs rl) by (unfold dofs; by rewrite M).
  rewrite <- Hd in Hi. destruct (T i Hi) as ([v Hv] & Hq & Hdq & Hkp & Hkd & Htau).
  cbn zeta. rewrite Hq, Hdq, Hkp, Hkd, Htau, M.
  simpl in Hv |- *. unfold getup_q in Hv |- *. rewrite N, M in Hv |- *.
  destruct (ms_q (motor_state (robot_state rl)) !! i) as [x|]; [|done].
  destruct (item (default_dof_pos (params rl)) (Z.of_nat i)) as [d|]; [|done].
  by exists x, d.
Qed.

Lemma standup_interpolation_witness :
  ∃ rl', execs Sample.env0 [Enter GetUp; Run GetUp; Sense Sample.standing; Run GetUp]
           Sample.rl0 = Some rl'
         ∧ running_percent rl' = Binary32.value (Binary32.progress 2)
         ∧ ∀ i, (i < 2)%nat →
             ∃ x d, ms_q (motor_state Sample.measured) !! i = Some x
                    ∧ item (Row [0; 0]) (Z.of_nat i) = Some d
                    ∧ let c := motor_command (robot_command rl') in
                      mc_q c !! i
                      = Some ((1 - running_percent rl') * x + running_percent rl' * d)
                      ∧ mc_dq c !! i = Some 0
                      ∧ mc_kp c !! i = item (Row [dec 80 1; dec 80 1]) (Z.of_nat i)
                      ∧ mc_kd c !! i = item (Row [dec 3 1; dec 3 1]) (Z.of_nat i)
                      ∧ mc_tau c !! i = Some 0.
Proof.
  apply (standup_interpolation Sample.env0 Sample.rl0
           [Run GetUp; Sense Sample.standing; Run GetUp]).
  - unfold getup_ready, command_covers. change (dofs _) with 2%nat.
    simpl. repeat split; lia.
  - repeat constructor.
  - simpl. lia.
Defined.

Lemma ramp_value_500 : ramp_value 500 = after_500_ticks.
Proof. apply Qc_is_canon. vm_compute. reflexivity. Qed.

Lemma after_500_ticks_lt_1 : ¬ 1 ≤ after_500_ticks.
Proof. apply Qclt_not_le. by vm_compute. Qed.

(** X2. The end of a ramp.  Once StandUp or SitDown has been ticked 501
    times or more since it was entered, the progress counter is 1 and every
    DOF is commanded exactly the target pose of the ramp, however many
    further ticks and sensor readings follow: the default position of the
    profile for StandUp, the pose recorded at the last StandUp entry for
    SitDown.  After exactly 500 ticks the ramp is not yet complete: the
    counter is 16777119 / 2^24, so [checkChange] keeps the machine in
    StandUp whatever is requested, and does not yet send SitDown to
    Idle. *)
Theorem ramp_endpoint (env : Env) (s : StateId) (rl : RL) (es : list Event) :
  s = GetUp ∨ s = GetDown →
  ramp_ready s (state_enter env s rl) →
  Forall (during s) es → (0 < runs es)%nat →
  ∃ rl', execs env (Enter s :: es) rl = Some rl'
         ∧ ((501 ≤ runs es)%nat →
            running_percent rl' = 1
            ∧ ∀ i, (i < dofs rl)%nat →
                is_Some (ramp_target s rl i)
                ∧ mc_q (motor_command (robot_command rl')) !! i = ramp_target s rl i)
         ∧ (runs es = 500%nat →
            running_percent rl' = after_500_ticks
            ∧ (s = GetUp → state_checkChange s rl' = getStateName GetUp)
            ∧ state_checkChange s rl' ≠ getStateName Waiting).
Proof.
  intros Hs Hr Hes Hruns.
  destruct (ramp_enter_tracks env s rl es) as (rl' & E & T & P & N & S & M);
    [done..|].
  exists rl'. split; [done|]. split.
  - intros H501. rewrite ramp_value_1 in P by done.
    split; [done|].
    intros i Hi.
    assert (Hd : dofs rl' = dofs rl) by (unfold dofs; by rewrite M).
    rewrite <- Hd in Hi. destruct (T i Hi) as ([v Hv] & Hq & _).
    rewrite Hq. clear Hq. revert Hv.
    destruct Hs as [-> | ->]; simpl.
    + unfold getup_q. rewrite P, N, M.
      destruct (ms_q (motor_state (robot_state rl)) !! i) as [x|]; [|done].
      destruct (item (default_dof_pos (params rl)) (Z.of_nat i)) as [d|]; [|done].
      simpl. intros _. split; [by eexists|]. f_equal. ring.
    + unfold getdown_q. rewrite P, N, S. simpl.
      destruct (ms_q (motor_state (robot_state rl)) !! i) as [x|]; [|done].
      destruct (ms_q (motor_state (start_state rl)) !! i) as [y|]; [|done].
      simpl. intros _. split; [by eexists|]. f_equal. ring.
  - intros H500. rewrite H500, ramp_value_500 in P.
    split; [done|].
    pose proof after_500_ticks_lt_1 as Hlt. rewrite <- P in Hlt.
    destruct Hs as [-> | ->]; simpl;
      unfold RLFSMStateGetUp.checkChange, RLFSMStateGetDown.checkChange;
      rewrite decide_False by done.
    + done.
    + split; [done|]. by case_decide.
Qed.

(** The StandUp ramp of the two-DOF robot after 501 ticks and after 500. *)
Lemma ramp_endpoint_witness :
  (∃ rl', execs Sample.env0 (Enter GetUp :: replicate 501 (Run GetUp)) Sample.rl0
          = Some rl'
          ∧ running_percent rl' = 1
          ∧ ∀ i, (i < 2)%nat →
              is_Some (ramp_target GetUp Sample.rl0 i)
              ∧ mc_q (motor_command (robot_command rl')) !! i
                = ramp_target GetUp Sample.rl0 i)
  ∧ (∃ rl', execs Sample.env0 (Enter GetUp :: replicate 500 (Run GetUp)) Sample.rl0
            = Some rl'
            ∧ running_percent rl' = after_500_ticks
            ∧ state_checkChange GetUp rl' = getStateName GetUp).
Proof.
  assert (Hr : ramp_ready GetUp (state_enter Sample.env0 GetUp Sample.rl0)).
  { unfold ramp_ready, getup_ready, command_covers. change (dofs _) with 2%nat.
    simpl. repeat split; lia. }
  split.
  - destruct (ramp_endpoint Sample.env0 GetUp Sample.rl0 (replicate 501 (Run GetUp)))
      as (rl' & E & H501 & _).
    + left. reflexivity.
    + exact Hr.
    + apply Forall_replicate. reflexivity.
    + rewrite runs_replicate. lia.
    + exists rl'. split; [exact E|]. apply H501. rewrite runs_replicate. lia.
  - destruct (ramp_endpoint Sample.env0 GetUp Sample.rl0 (replicate 500 (Run GetUp)))
      as (rl' & E & _ & H500).
    + left. reflexivity.
    + exact Hr.
    + apply Forall_replicate. reflexivity.
    + rewrite runs_replicate. lia.
    + exists rl'. split; [exact E|].
      destruct H500 as (P & C & _); [apply runs_replicate|].
      split; [exact P|]. apply C. reflexivity.
Defined.

(** ** Idle, and the way into the learned modes *)

Lemma waiting_loop (st : RobotState) (n m : nat) (c : MotorCommand) :
  (m ≤ n)%nat → (n ≤ length (ms_q (motor_state st)))%nat → (n ≤ length (mc_q c))%nat →
  for_each (RLFSMStateWaiting.body st) (seq 0 m) c
  = Some (mkMotorCommand (prefix m (λ i, ms_q (motor_state st) !! i) (mc_q c))
            (mc_dq c) (mc_tau c) (mc_kp c) (mc_kd c)).
Proof.
  intros Hm Hs Hc. induction m as [|m IH].
  - simpl. rewrite prefix_0. by destruct c.
  - rewrite seq_S, for_each_app, IH by lia. simpl.
    unfold RLFSMStateWaiting.body.
    destruct (lookup_lt_is_Some_2 (ms_q (motor_state st)) m) as [x Hx]; [lia|].
    rewrite Hx. simpl. unfold write_q. simpl.
    rewrite vec_set_Some by (rewrite prefix_length; lia). simpl.
    rewrite (prefix_S_Some m _ (mc_q c) x) by (done || lia). done.
Qed.

(** X3. Idle.  With a measured position and a position slot for every
    DOF, a tick of Idle returns and copies the measured position of each
    DOF into the commanded position; the commanded velocity, torque and
    both gains stay exactly as the previous mode left them, and nothing
    outside JointCommand changes. *)
Theorem waiting_run_copies_position (rl : RL) :
  (dofs rl ≤ length (ms_q (motor_state (robot_state rl))))%nat →
  (dofs rl ≤ length (mc_q (motor_command (robot_command rl))))%nat →
  ∃ q, RLFSMStateWaiting.run rl
       = Some (set_robot_command
                 (mkRobotCommand
                    (mkMotorCommand q (mc_dq (motor_command (robot_command rl)))
                       (mc_tau (motor_command (robot_command rl)))
                       (mc_kp (motor_command (robot_command rl)))
                       (mc_kd (motor_command (robot_command rl))))) rl)
       ∧ length q = length (mc_q (motor_command (robot_command rl)))
       ∧ (∀ i, (i < dofs rl)%nat → q !! i = ms_q (motor_state (robot_state rl)) !! i)
       ∧ (∀ i, (dofs rl ≤ i)%nat →
               q !! i = mc_q (motor_command (robot_command rl)) !! i).
Proof.
  intros Hs Hc. unfold RLFSMStateWaiting.run, for_dofs. fold (dofs rl).
  rewrite (waiting_loop (robot_state rl) (dofs rl) (dofs rl)) by done. simpl.
  eexists. split; [reflexivity|]. split_and!.
  - apply prefix_length.
  - intros i Hi.
    destruct (lookup_lt_is_Some_2 (ms_q (motor_state (robot_state rl))) i) as [x Hx];
      [lia|].
    rewrite Hx. apply prefix_lookup_lt; [done|lia|done].
  - intros i Hi. unfold prefix. rewrite list_lookup_imap.
    destruct (mc_q (motor_command (robot_command rl)) !! i); simpl; [|done].
    by rewrite decide_False by lia.
Qed.

Lemma waiting_run_copies_position_witness :
  ∃ q, RLFSMStateWaiting.run (set_robot_state Sample.standing Sample.rl0)
       = Some (set_robot_command
                 (mkRobotCommand
                    (mkMotorCommand q [0; 0] [0; 0] [dec 80 1; dec 80 1]
                       [dec 3 1; dec 3 1]))
                 (set_robot_state Sample.standing Sample.rl0))
       ∧ length q = 2%nat
       ∧ (∀ i, (i < 2)%nat → q !! i = [0; 0] !! i)
       ∧ (∀ i, (2 ≤ i)%nat → q !! i = [dec 1 2; dec (-3) 10] !! i).
Proof.
  apply (waiting_run_copies_position (set_robot_state Sample.standing Sample.rl0));
    change (dofs _) with 2%nat; simpl; lia.
Defined.

(** X4. The way into the learned modes.  Whatever the operator requests,
    [checkChange] names Locomotion or Navigation as a next state different
    from the current one only from StandUp with the progress counter at 1
    or above, or from the other learned mode; Idle and SitDown never lead
    there, and neither does an unfinished StandUp.  In each case the named
    mode is the requested one. *)
Theorem learned_mode_entry (s t : StateId) (rl : RL) :
  state_checkChange s rl = getStateName t →
  t = RL_Locomotion ∨ t = RL_Navigation →
  s ≠ t →
  requested_mode (control_state (control rl)) = Some t
  ∧ ((s = GetUp ∧ 1 ≤ running_percent rl)
     ∨ s = RL_Locomotion ∨ s = RL_Navigation).
Proof.
  intros H Ht Hne.
  destruct Ht as [-> | ->]; destruct s; try done; simpl in H;
    unfold RLFSMStateWaiting.checkChange, RLFSMStateGetUp.checkChange,
      RLFSMStateGetDown.checkChange, RLFSMStateRL_Locomotion.checkChange,
      RLFSMStateRL_Navigation.checkChange, learned_checkChange in H;
    repeat case_decide; try discriminate H;
    match goal with
    | E : control_state (control rl) = _ |- _ => rewrite E
    end; simpl; split; try done; (by left) || (by right; left) || (by right; right).
Qed.

(** StandUp with the ramp complete and Locomotion requested. *)
Lemma learned_mode_entry_witness :
  requested_mode
    (control_state (control (set_running_percent 1 Sample.locomotion_requested)))
  = Some RL_Locomotion
  ∧ ((GetUp = GetUp
      ∧ 1 ≤ running_percent (set_running_percent 1 Sample.locomotion_requested))
     ∨ GetUp = RL_Locomotion ∨ GetUp = RL_Navigation).
Proof.
  apply (learned_mode_entry GetUp RL_Locomotion
           (set_running_percent 1 Sample.locomotion_requested)).
  - reflexivity.
  - left. reflexivity.
  - discriminate.
Defined.

(** ** What a successful activation leaves *)

Lemma torch_zeros_nonneg (n : Z) :
  (0 ≤ n)%Z → torch_zeros n = Some (Row (replicate (Z.to_nat n) 0)).
Proof. intros H. unfold torch_zeros. by rewrite decide_False by lia. Qed.

Lemma with_history_frame rl :
  with_history rl = set_history_obs_buf (history_obs_buf (with_history rl)) rl.
Proof. unfold with_history. destruct (observations_history _); by destruct rl. Qed.

Lemma InitRL_normal env robot_path rl rl1 handle :
  ReadYamlRL env robot_path rl = Normal rl1 →
  jit_load env
    (CMAKE_CURRENT_SOURCE_DIR env +:+ "/models/" +:+ robot_path +:+ "/"
       +:+ model_name (params rl1)) = JitModule handle →
  (0 ≤ num_of_dofs (params rl1))%Z →
  InitRL env robot_path rl
  = Normal (initialised handle
              (with_history
                 (set_params
                    (set_observations
                       (map (resolve_ang_vel (is_simulation rl1))
                          (observations (params rl1))) (params rl1)) rl1))).
Proof.
  intros Hyaml Hjit Hdofs. unfold InitRL. rewrite Hyaml.
  cbn [and_then]. cbn zeta.
  fold (with_history
          (set_params
             (set_observations
                (map (resolve_ang_vel (is_simulation rl1))
                   (observations (params rl1))) (params rl1)) rl1)).
  set (rl2 := with_history _).
  assert (P : params rl2
              = set_observations
                  (map (resolve_ang_vel (is_simulation rl1))
                     (observations (params rl1))) (params rl1)).
  { subst rl2. rewrite with_history_frame. reflexivity. }
  rewrite P. cbn [model_name set_observations]. rewrite Hjit.
  unfold InitObservations. cbn [params set_model].
  rewrite P. cbn [num_of_dofs default_dof_pos set_observations].
  rewrite (torch_zeros_nonneg _ Hdofs). cbn [and_then].
  unfold InitOutputs. cbn [params set_obs set_model]. rewrite P.
  cbn [num_of_dofs default_dof_pos set_observations].
  rewrite (torch_zeros_nonneg _ Hdofs). cbn [and_then].
  cbn [params set_output_dof_tau set_obs set_model lin_vel ang_vel gravity_vec
         commands base_quat dof_pos].
  rewrite ?P. cbn [default_dof_pos set_observations].
  unfold initialised, initial_observations. rewrite P.
  cbn [num_of_dofs default_dof_pos set_observations]. cbn zeta.
  reflexivity.
Qed.

Lemma learned_enter_normal env rl rl1 handle :
  ReadYamlRL env (robot_name rl +:+ "/" +:+ default_rl_config rl)
    (set_config_name (default_rl_config rl) rl) = Normal rl1 →
  jit_load env (policy_path env rl (model_name (params rl1))) = JitModule handle →
  (0 ≤ num_of_dofs (params rl1))%Z →
  learned_enter env rl
  = set_rl_init_done true
      (initialised handle
         (with_history
            (set_params
               (set_observations
                  (map (resolve_ang_vel (is_simulation rl1))
                     (observations (params rl1))) (params rl1)) rl1))).
Proof.
  intros Hyaml Hjit Hdofs. rewrite learned_enter_unfold.
  by rewrite (InitRL_normal _ _ _ rl1 handle Hyaml Hjit Hdofs).
Qed.

Lemma resolve_ang_vel_never (sim : bool) (names : list string) :
  "ang_vel" ∉ map (resolve_ang_vel sim) names.
Proof.
  intros H. apply list_elem_of_fmap in H as (name & E & _).
  unfold resolve_ang_vel in E. case_decide; [by destruct sim|congruence].
Qed.

(** X5. A successful activation.  When the profile and the policy it names
    both load and the profile's DOF count is not negative, entering
    Locomotion or Navigation sets [rl_init_done], prints nothing, keeps the
    base tick period and decimation while taking every other parameter from
    the profile, leaves no term named ang_vel in the observation list,
    resets the observations (gravity [0, 0, -1], identity quaternion
    [0, 0, 0, 1], positions at the default pose, zero velocities and
    actions), resets the outputs (position at the default pose, zero
    velocity and torque) and zeroes the velocity intent.  It keeps the
    requested mode, the episode counter, the three hand-off queues with
    whatever an earlier activation left in them, and JointCommand. *)
Theorem activation_resets (env : Env) (s : StateId) (rl : RL) (c : ModelParams)
  (handle : string) :
  s = RL_Locomotion ∨ s = RL_Navigation →
  yaml_load env (profile_path env rl)
    (robot_name rl +:+ "/" +:+ default_rl_config rl) = YamlNode c →
  jit_load env (policy_path env rl (model_name c)) = JitModule handle →
  (0 ≤ num_of_dofs c)%Z →
  let rl' := state_enter env s rl in
  rl_init_done rl' = true
  ∧ stdout rl' = stdout rl
  ∧ model rl' = Some handle
  ∧ dt (params rl') = dt (params rl)
  ∧ decimation (params rl') = decimation (params rl)
  ∧ set_observations (observations c) (params rl')
    = mkModelParams (model_name c) (framework c) (dt (params rl))
        (decimation (params rl)) (num_observations c) (observations c)
        (observations_history c) (clip_obs c) (clip_actions_lower c)
        (clip_actions_upper c) (action_scale c) (wheel_indices c) (num_of_dofs c)
        (lin_vel_scale c) (ang_vel_scale c) (dof_pos_scale c) (dof_vel_scale c)
        (commands_scale c) (rl_kp c) (rl_kd c) (fixed_kp c) (fixed_kd c)
        (torque_limits c) (default_dof_pos c) (joint_controller_names c)
        (command_mapping c) (state_mapping c)
  ∧ observations (params rl')
    = map (resolve_ang_vel (is_simulation rl)) (observations c)
  ∧ ("ang_vel" ∉ observations (params rl'))
  ∧ obs rl' = initial_observations (num_of_dofs c) (default_dof_pos c)
  ∧ output_dof_pos rl' = default_dof_pos c
  ∧ output_dof_vel rl' = Row (replicate (Z.to_nat (num_of_dofs c)) 0)
  ∧ output_dof_tau rl' = Row (replicate (Z.to_nat (num_of_dofs c)) 0)
  ∧ control rl' = mkControl (control_state (control rl)) 0 0 0
  ∧ episode_length_buf rl' = episode_length_buf rl
  ∧ output_dof_pos_queue rl' = output_dof_pos_queue rl
  ∧ output_dof_vel_queue rl' = output_dof_vel_queue rl
  ∧ output_dof_tau_queue rl' = output_dof_tau_queue rl
  ∧ robot_command rl' = robot_command rl
  ∧ running_percent rl' = running_percent rl.
Proof.
  intros Hs Hyaml Hjit Hdofs rl'.
  assert (E : rl' = learned_enter env rl) by (by destruct Hs as [-> | ->]).
  rewrite (learned_enter_normal env rl
             (set_params
                (mkModelParams (model_name c) (framework c) (dt (params rl))
                   (decimation (params rl)) (num_observations c) (observations c)
                   (observations_history c) (clip_obs c) (clip_actions_lower c)
                   (clip_actions_upper c) (action_scale c) (wheel_indices c)
                   (num_of_dofs c) (lin_vel_scale c) (ang_vel_scale c)
                   (dof_pos_scale c) (dof_vel_scale c) (commands_scale c) (rl_kp c)
                   (rl_kd c) (fixed_kp c) (fixed_kd c) (torque_limits c)
                   (default_dof_pos c) (joint_controller_names c)
                   (command_mapping c) (state_mapping c))
                (set_config_name (default_rl_config rl) rl)) handle) in E;
    [|unfold ReadYamlRL; cbn zeta; unfold profile_path in Hyaml;
      cbn [robot_name set_config_name]; by rewrite Hyaml|exact Hjit|exact Hdofs].
  rewrite with_history_frame in E. rewrite E.
  split_and!; try reflexivity. apply resolve_ang_vel_never.
Qed.

Lemma activation_resets_witness :
  let rl' := state_enter Sample.env0 RL_Locomotion Sample.locomotion_requested in
  rl_init_done rl' = true
  ∧ stdout rl' = []
  ∧ obs rl' = initial_observations 2 (Row [0; 0])
  ∧ output_dof_pos rl' = Row [0; 0]
  ∧ control rl' = mkControl STATE_RL_LOCOMOTION 0 0 0
  ∧ ("ang_vel" ∉ observations (params rl')).
Proof.
  pose proof (activation_resets Sample.env0 RL_Locomotion Sample.locomotion_requested
                Sample.params0 "/rl_sar/models/go2w/robot_lab/policy.pt") as H.
  cbn zeta in H.
  destruct H as (H1 & H2 & _ & _ & _ & _ & _ & H8 & H9 & H10 & _ & _ & H13 & _).
  - left. reflexivity.
  - reflexivity.
  - reflexivity.
  - simpl. lia.
  - cbn zeta. split_and!; assumption.
Defined.

(** ** Activation failures and the fallback to StandUp *)

Lemma GetState_control low joy rl rl' :
  GetState low joy rl = Some rl' →
  control rl' = read_controls joy (control rl)
  ∧ rl_init_done rl' = rl_init_done rl.
Proof.
  unfold GetState. cbn zeta.
  destruct (read_quaternion _ _ _); simpl; [|done].
  destruct (read_gyroscope _ _); simpl; [|done].
  destruct (for_dofs _ _ _); simpl; [|done].
  by intros [= <-].
Qed.

Lemma learned_run_control rl rl' :
  learned_run rl = Some rl' → control rl' = control rl.
Proof.
  unfold learned_run. cbn zeta.
  destruct (try_pop _) as [[tp qp]|]; [|by intros [= <-]].
  destruct (try_pop _) as [[tv qv]|]; [|by intros [= <-]].
  destruct (for_dofs _ _ _); simpl; [|done].
  by intros [= <-].
Qed.

(** C4, as the code has it.  Activation of Locomotion or Navigation fails
    when [InitRL] throws: [enter] then prints the error after whatever was
    printed before, leaves [rl_init_done] false and the requested mode
    STATE_POS_GETUP, so that [checkChange], evaluated on the state [enter]
    left, names StandUp.  The fallback is that request and nothing more:
    [GetState], which runs before the next evaluation, re-applies a held
    button, and with R1 held and R2 not, [checkChange] names Locomotion
    again, before and after the tick of the mode, the ready flag still
    false.  A missing profile file does not make [InitRL] throw: if the
    policy named by the parameters already in place loads and the DOF count
    is not negative, [enter] prints that the file does not exist, sets
    [rl_init_done] and leaves the requested mode as it was.  [exit] of a
    learned mode leaves [rl_init_done] false. *)
Theorem init_failure_fallback (env : Env) (s : StateId) (rl : RL) :
  s = RL_Locomotion ∨ s = RL_Navigation →
  (∀ what rl1,
     InitRL env (robot_name rl +:+ "/" +:+ default_rl_config rl)
       (set_config_name (default_rl_config rl) rl) = Raised what rl1 →
     stdout (state_enter env s rl) = stdout rl1 ++ [ErrorInitRLFailed what]
     ∧ rl_init_done (state_enter env s rl) = false
     ∧ control_state (control (state_enter env s rl)) = STATE_POS_GETUP
     ∧ state_checkChange s (state_enter env s rl) = getStateName GetUp
     ∧ (∀ low joy rl2,
          joy_R2 joy = false → joy_R1 joy = true →
          GetState low joy (state_enter env s rl) = Some rl2 →
          rl_init_done rl2 = false
          ∧ state_checkChange s rl2 = getStateName RL_Locomotion
          ∧ ∀ rl3, state_run s rl2 = Some rl3 →
                   state_checkChange s rl3 = getStateName RL_Locomotion))
  ∧ (∀ handle,
       yaml_load env (profile_path env rl)
         (robot_name rl +:+ "/" +:+ default_rl_config rl) = YamlBadFile →
       jit_load env (policy_path env rl (model_name (params rl)))
       = JitModule handle →
       (0 ≤ num_of_dofs (params rl))%Z →
       rl_init_done (state_enter env s rl) = true
       ∧ stdout (state_enter env s rl)
         = stdout rl ++ [ErrorFileDoesNotExist (profile_path env rl)]
       ∧ control_state (control (state_enter env s rl))
         = control_state (control rl))
  ∧ (∀ rl', rl_init_done (state_exit s rl') = false).
Proof.
  intros Hs.
  assert (Hc : ∀ rl', control_state (control rl') = STATE_RL_LOCOMOTION →
                      state_checkChange s rl' = getStateName RL_Locomotion).
  { intros rl' H. destruct Hs as [-> | ->]; simpl;
      unfold RLFSMStateRL_Locomotion.checkChange,
        RLFSMStateRL_Navigation.checkChange, learned_checkChange;
      by rewrite H. }
  assert (Hrun : state_run s = learned_run) by (by destruct Hs as [-> | ->]).
  assert (He : state_enter env s rl = learned_enter env rl)
    by (by destruct Hs as [-> | ->]).
  split_and!.
  - intros what rl1 Hinit.
    assert (E : state_enter env s rl
                = set_control (mkControl STATE_POS_GETUP (ctl_x (control rl1))
                                 (ctl_y (control rl1)) (ctl_yaw (control rl1)))
                    (set_rl_init_done false (print (ErrorInitRLFailed what) rl1))).
    { by rewrite He, learned_enter_unfold, Hinit. }
    rewrite E. split_and!; try (destruct Hs as [-> | ->]; done).
    intros low joy rl2 H2 H1 Hget.
    apply GetState_control in Hget as [C D].
    assert (C' : control_state (control rl2) = STATE_RL_LOCOMOTION).
    { rewrite C. unfold read_controls. by rewrite H2, H1. }
    split_and!.
    + by rewrite D.
    + by apply Hc.
    + intros rl3 H3. rewrite Hrun in H3. apply learned_run_control in H3.
      apply Hc. by rewrite H3.
  - intros handle Hyaml Hjit Hdofs. rewrite He.
    rewrite (learned_enter_normal env rl
               (print (ErrorFileDoesNotExist (profile_path env rl))
                  (set_config_name (default_rl_config rl) rl)) handle);
      [|unfold ReadYamlRL; cbn zeta; unfold profile_path in Hyaml |- *;
        cbn [robot_name set_config_name]; by rewrite Hyaml|exact Hjit|exact Hdofs].
    rewrite with_history_frame. by split_and!.
  - intros rl'. by destruct Hs as [-> | ->].
Qed.

(** C4 as stated fails.  Without a profile file, entering Locomotion
    reports the missing file and goes on: the ready flag is set, the
    requested mode stays Locomotion and so does the machine.  And where
    activation does fail, for want of a policy file, the fallback does not
    outlast the next reading of the joystick while R1 is held. *)
Lemma init_failure_fallback_counterexample :
  yaml_load Sample.env_no_profile "/rl_sar/models/go2w/robot_lab/config.yaml"
    "go2w/robot_lab" = YamlBadFile
  ∧ rl_init_done Sample.entered_no_profile = true
  ∧ stdout Sample.entered_no_profile
    = [ErrorFileDoesNotExist "/rl_sar/models/go2w/robot_lab/config.yaml"]
  ∧ control_state (control Sample.entered_no_profile) = STATE_RL_LOCOMOTION
  ∧ state_checkChange RL_Locomotion Sample.entered_no_profile
    = getStateName RL_Locomotion
  ∧ rl_init_done Sample.entered_no_policy = false
  ∧ ∃ rl2, GetState Crossed.low (mkJoystick 0 0 0 true false false)
             Sample.entered_no_policy = Some rl2
           ∧ state_checkChange RL_Locomotion rl2 = getStateName RL_Locomotion.
Proof.
  split_and!; try (vm_compute; reflexivity).
  eexists. split; vm_compute; reflexivity.
Qed.

(** Locomotion entered while the policy file cannot be loaded, and while
    the profile file does not exist. *)
Lemma init_failure_fallback_witness :
  (∃ rl1,
     InitRL Sample.env_no_policy "go2w/robot_lab"
       (set_config_name "robot_lab" Sample.locomotion_requested)
     = Raised "open file failed" rl1
     ∧ stdout Sample.entered_no_policy
       = stdout rl1 ++ [ErrorInitRLFailed "open file failed"]
     ∧ rl_init_done Sample.entered_no_policy = false
     ∧ control_state (control Sample.entered_no_policy) = STATE_POS_GETUP
     ∧ state_checkChange RL_Locomotion Sample.entered_no_policy
       = getStateName GetUp)
  ∧ rl_init_done Sample.entered_no_profile = true
  ∧ control_state (control Sample.entered_no_profile) = STATE_RL_LOCOMOTION.
Proof.
  split.
  - eexists. split; [vm_compute; reflexivity|].
    destruct (init_failure_fallback Sample.env_no_policy RL_Locomotion
                Sample.locomotion_requested (or_introl eq_refl)) as (A & _).
    destruct (A "open file failed" _ ltac:(vm_compute; reflexivity))
      as (A1 & A2 & A3 & A4 & _).
    split_and!; assumption.
  - destruct (init_failure_fallback Sample.env_no_profile RL_Locomotion
                Sample.locomotion_requested (or_introl eq_refl)) as (_ & B & _).
    destruct (B "/rl_sar/models/go2w/robot_lab/policy.pt") as (B1 & _ & B3).
    + reflexivity.
    + reflexivity.
    + vm_compute. discriminate.
    + split; assumption.
Defined.

(** X6. A missing profile file is not an activation failure.  When the
    profile file of the robot does not exist but the policy named by the
    parameters already in place loads, entering Locomotion or Navigation
    prints that the file does not exist and still sets [rl_init_done]: the
    mode runs on the parameters it had before, with only the term ang_vel
    renamed, and the requested mode is not changed to StandUp. *)
Theorem missing_profile_still_activates (env : Env) (s : StateId) (rl : RL)
  (handle : string) :
  s = RL_Locomotion ∨ s = RL_Navigation →
  yaml_load env (profile_path env rl)
    (robot_name rl +:+ "/" +:+ default_rl_config rl) = YamlBadFile →
  jit_load env (policy_path env rl (model_name (params rl))) = JitModule handle →
  (0 ≤ num_of_dofs (params rl))%Z →
  let rl' := state_enter env s rl in
  rl_init_done rl' = true
  ∧ stdout rl' = stdout rl ++ [ErrorFileDoesNotExist (profile_path env rl)]
  ∧ params rl'
    = set_observations
        (map (resolve_ang_vel (is_simulation rl)) (observations (params rl)))
        (params rl)
  ∧ control_state (control rl') = control_state (control rl)
  ∧ state_checkChange s rl' = state_checkChange s rl.
Proof.
  intros Hs Hyaml Hjit Hdofs rl'.
  assert (E : rl' = learned_enter env rl) by (by destruct Hs as [-> | ->]).
  rewrite (learned_enter_normal env rl
             (print (ErrorFileDoesNotExist (profile_path env rl))
                (set_config_name (default_rl_config rl) rl)) handle) in E;
    [|unfold ReadYamlRL; cbn zeta; unfold profile_path in Hyaml |- *;
      cbn [robot_name set_config_name]; by rewrite Hyaml|exact Hjit|exact Hdofs].
  rewrite with_history_frame in E.
  assert (C : control_state (control rl') = control_state (control rl)
              → state_checkChange s rl' = state_checkChange s rl).
  { intros H. destruct Hs as [-> | ->]; simpl;
      unfold RLFSMStateRL_Locomotion.checkChange,
        RLFSMStateRL_Navigation.checkChange, learned_checkChange;
      by rewrite H. }
  (split_and!; [..|apply C]); rewrite E; reflexivity.
Qed.

Lemma missing_profile_still_activates_witness :
  let env := Sample.env_with (λ _ _, YamlBadFile) JitModule in
  let rl' := state_enter env RL_Locomotion Sample.locomotion_requested in
  rl_init_done rl' = true
  ∧ stdout rl'
    = [ErrorFileDoesNotExist "/rl_sar/models/go2w/robot_lab/config.yaml"]
  ∧ control_state (control rl') = STATE_RL_LOCOMOTION.
Proof.
  pose proof (missing_profile_still_activates
                (Sample.env_with (λ _ _, YamlBadFile) JitModule) RL_Locomotion
                Sample.locomotion_requested
                "/rl_sar/models/go2w/robot_lab/policy.pt") as H.
  cbn zeta in H. destruct H as (H1 & H2 & _ & H4 & _).
  - left. reflexivity.
  - reflexivity.
  - reflexivity.
  - simpl. lia.
  - cbn zeta. split_and!; assumption.
Defined.

(** ** Decoded actions *)

Lemma ComputeOutput_rows (rl : RL) (a s d m mv kp kd lim : list Qc) :
  action_scale (params rl) = Row s → default_dof_pos (params rl) = Row d →
  dof_pos (obs rl) = Row m → dof_vel (obs rl) = Row mv →
  rl_kp (params rl) = Row kp → rl_kd (params rl) = Row kd →
  torque_limits (params rl) = Row lim →
  length s = length a → length d = length a → length m = length a →
  length mv = length a → length kp = length a → length kd = length a →
  length lim = length a →
  Forall (λ i, (0 ≤ i < Z.of_nat (length a))%Z) (wheel_indices (params rl)) →
  ∃ pos vel tau,
    ComputeOutput rl (Row a) = Some (Row pos, Row vel, Row tau)
    ∧ length pos = length a ∧ length vel = length a ∧ length tau = length a
    ∧ ∀ i ai si di mi mvi kpi kdi li,
        a !! i = Some ai → s !! i = Some si → d !! i = Some di →
        m !! i = Some mi → mv !! i = Some mvi → kp !! i = Some kpi →
        kd !! i = Some kdi → lim !! i = Some li →
        pos !! i = Some (if decide (Z.of_nat i ∈ wheel_indices (params rl))
                         then di else ai * si + di)
        ∧ vel !! i = Some (if decide (Z.of_nat i ∈ wheel_indices (params rl))
                           then ai * si else 0)
        ∧ tau !! i
          = Some (clamp (kpi * (ai * si + di - mi) - kdi * mvi) (- li) li).
Proof.
  intros Hs Hd Hm Hmv Hkp Hkd Hlim Ls Ld Lm Lmv Lkp Lkd Llim Hw.
  set (n := length a) in *.
  destruct (split_wheels_spec (wheel_indices (params rl)) n
              (zip_with Qcmult a s) (zip_with Qcmult a s) (replicate n 0))
    as (p' & v' & E & Lp & Lv & H);
    [by rewrite length_zip_with_same..|by rewrite length_replicate|done|].
  unfold ComputeOutput. cbn zeta.
  rewrite Hs, Hd, Hm, Hmv, Hkp, Hkd, Hlim.
  unfold tensor_mul, tensor_add, tensor_sub, tensor_clamp, tensor_neg, zeros_like.
  rewrite (tensor_op_rows Qcmult a s) by done. simpl. fold n.
  rewrite E. simpl.
  repeat (rewrite tensor_op_rows
            by (rewrite ?length_zip_with, ?length_map; lia);
          simpl).
  eexists _, _, _. split; [reflexivity|].
  split_and!; [rewrite ?length_zip_with, ?length_map; lia..|].
  intros i ai si di mi mvi kpi kdi li Ea Es Ed Em Emv Ekp Ekd Elim.
  assert (Hi : (i < n)%nat) by (by eapply lookup_lt_Some).
  destruct (H i Hi) as [Hp Hv].
  rewrite !lookup_zip_with, list_lookup_fmap.
  rewrite Hp, Hv. rewrite !lookup_zip_with, lookup_replicate_2 by done.
  rewrite Ea, Es, Ed, Em, Emv, Ekp, Ekd, Elim. simpl.
  destruct (decide (Z.of_nat i ∈ wheel_indices (params rl))) as [Hin|Hin]; simpl;
    split_and!;
    first [ done
          | f_equal; ring
          | unfold clamp; do 3 f_equal; ring ].
Qed.

Lemma decodable_rows (rl : RL) (n : nat) :
  decodable rl n →
  ∃ s d m mv kp kd lim,
    action_scale (params rl) = Row s ∧ default_dof_pos (params rl) = Row d
    ∧ dof_pos (obs rl) = Row m ∧ dof_vel (obs rl) = Row mv
    ∧ rl_kp (params rl) = Row kp ∧ rl_kd (params rl) = Row kd
    ∧ torque_limits (params rl) = Row lim
    ∧ length s = n ∧ length d = n ∧ length m = n ∧ length mv = n
    ∧ length kp = n ∧ length kd = n ∧ length lim = n.
Proof.
  intros (N1 & N2 & N3 & N4 & N5 & N6 & N7 & D1 & D2 & D3 & D4 & D5 & D6 & D7 & _).
  destruct (action_scale (params rl)) as [|s]; [done|].
  destruct (default_dof_pos (params rl)) as [|d]; [done|].
  destruct (dof_pos (obs rl)) as [|m]; [done|].
  destruct (dof_vel (obs rl)) as [|mv]; [done|].
  destruct (rl_kp (params rl)) as [|kp]; [done|].
  destruct (rl_kd (params rl)) as [|kd]; [done|].
  destruct (torque_limits (params rl)) as [|lim]; [done|].
  simpl in *. exists s, d, m, mv, kp, kd, lim.
  split_and!; try reflexivity; lia.
Qed.

Lemma clamp_within (x l : Qc) : 0 ≤ l → - l ≤ clamp x (- l) l ∧ clamp x (- l) l ≤ l.
Proof.
  intros Hl. unfold clamp, Qcmin, Qcmax. split; repeat case_decide; qc_lra.
Qed.

Lemma torque_warnings_within (tau lim : list Qc) :
  (∀ i t l, tau !! i = Some t → lim !! i = Some l → - l ≤ t ∧ t ≤ l) →
  torque_warnings tau lim = [].
Proof.
  intros H. unfold torque_warnings.
  assert (G : ∀ ix, mjoin (map (torque_warning tau lim) ix) = []).
  { induction ix as [|i ix IH]; simpl; [done|]. rewrite IH, app_nil_r.
    unfold torque_warning.
    destruct (tau !! i) as [t|] eqn:Et; [|done].
    destruct (lim !! i) as [l|] eqn:El; [|done].
    rewrite decide_False; [done|]. rewrite <- out_of_range_iff.
    destruct (H i t l Et El). intros [?|?]; qc_lra. }
  apply G.
Qed.

(** X7. The decoded torque passes the torque check.  With one entry per
    action in every row of the profile, wheel indices that are DOF indices
    and no negative torque limit, the torque [ComputeOutput] returns lies
    within [-limit, limit] for every DOF, and [TorqueProtect] applied to it
    returns without printing a warning and without changing anything. *)
Theorem decoded_torque_within_limits (rl : RL) (a lim : list Qc) :
  decodable rl (length a) →
  torque_limits (params rl) = Row lim →
  Forall (λ l, 0 ≤ l) lim →
  ∃ pos vel tau,
    ComputeOutput rl (Row a) = Some (Row pos, Row vel, Row tau)
    ∧ length tau = length a
    ∧ (∀ i t l, tau !! i = Some t → lim !! i = Some l → - l ≤ t ∧ t ≤ l)
    ∧ TorqueProtect rl (Row tau) = Some rl.
Proof.
  intros Hdec Hlim Hpos.
  destruct (decodable_rows rl _ Hdec)
    as (s & d & m & mv & kp & kd & lim' & Hs & Hd & Hm & Hmv & Hkp & Hkd & Hlim'
        & Ls & Ld & Lm & Lmv & Lkp & Lkd & Llim).
  assert (lim' = lim) as -> by congruence.
  destruct (ComputeOutput_rows rl a s d m mv kp kd lim)
    as (pos & vel & tau & E & Lpos & Lvel & Ltau & H); try done.
  { by destruct Hdec as (_&_&_&_&_&_&_&_&_&_&_&_&_&_&?). }
  exists pos, vel, tau.
  assert (W : ∀ i t l, tau !! i = Some t → lim !! i = Some l → - l ≤ t ∧ t ≤ l).
  { intros i t l Et El.
    assert (Hi : (i < length a)%nat)
      by (rewrite <- Ltau; by eapply lookup_lt_Some).
    destruct (lookup_lt_is_Some_2 a i) as [ai Ea]; [lia|].
    destruct (lookup_lt_is_Some_2 s i) as [si Es]; [lia|].
    destruct (lookup_lt_is_Some_2 d i) as [di Ed]; [lia|].
    destruct (lookup_lt_is_Some_2 m i) as [mi Em]; [lia|].
    destruct (lookup_lt_is_Some_2 mv i) as [mvi Emv]; [lia|].
    destruct (lookup_lt_is_Some_2 kp i) as [kpi Ekp]; [lia|].
    destruct (lookup_lt_is_Some_2 kd i) as [kdi Ekd]; [lia|].
    destruct (H i ai si di mi mvi kpi kdi l Ea Es Ed Em Emv Ekp Ekd El)
      as (_ & _ & Ht).
    rewrite Et in Ht. injection Ht as ->.
    apply clamp_within. by eapply (Forall_lookup_1 _ lim i l). }
  split_and!; try done.
  rewrite (TorqueProtect_spec rl tau lim Hlim) by lia.
  rewrite torque_warnings_within by done.
  rewrite app_nil_r. by rewrite set_stdout_same.
Qed.

Lemma decodable_sample : decodable Sample.rl0 2.
Proof.
  unfold decodable. simpl. split_and!; try reflexivity.
  repeat constructor; lia.
Qed.

Lemma decoded_torque_within_limits_witness :
  ∃ pos vel tau,
    ComputeOutput Sample.rl0 (Row [dec 20 1; dec 3 1])
    = Some (Row pos, Row vel, Row tau)
    ∧ length tau = 2%nat
    ∧ (∀ i t l, tau !! i = Some t → [dec 10 1; dec 10 1] !! i = Some l →
                - l ≤ t ∧ t ≤ l)
    ∧ TorqueProtect Sample.rl0 (Row tau) = Some Sample.rl0.
Proof.
  apply (decoded_torque_within_limits Sample.rl0 [dec 20 1; dec 3 1]
           [dec 10 1; dec 10 1]).
  - exact decodable_sample.
  - reflexivity.
  - apply Forall_cons_2; [by vm_compute|].
    apply Forall_cons_2; [by vm_compute|]. apply Forall_nil_2.
Defined.

(** ** The policy output and its clipping *)

Lemma tensor_clamp_rows (a lo hi : list Qc) :
  length lo = length a → length hi = length a →
  tensor_clamp (Row a) (Row lo) (Row hi)
  = Some (Row (zip_with Qcmin (zip_with Qcmax a lo) hi)).
Proof.
  intros Hlo Hhi. unfold tensor_clamp.
  rewrite tensor_op_rows by done. simpl.
  rewrite tensor_op_rows by (rewrite length_zip_with; lia). done.
Qed.

Lemma clamp_upper (x l h : Qc) : clamp x l h ≤ h.
Proof. unfold clamp, Qcmin, Qcmax. repeat case_decide; qc_lra. Qed.

Lemma clamp_lower (x l h : Qc) : l ≤ h → l ≤ clamp x l h.
Proof. intros H. unfold clamp, Qcmin, Qcmax. repeat case_decide; qc_lra. Qed.

Lemma clamp_inside (x l h : Qc) : l ≤ x → x ≤ h → clamp x l h = x.
Proof. intros H1 H2. unfold clamp, Qcmin, Qcmax. repeat case_decide; qc_lra. Qed.

(** X8. Clipping of the policy output.  Let the observation be assembled
    and the policy answer with the row [a].  If either clipping row of the
    profile is empty, [Forward] returns [a] unclipped, also when the other
    row is configured.  If both rows have one entry per action, [Forward]
    returns min(max(a_i, lower_i), upper_i) for every action: never above
    the upper bound, not below the lower bound when the bounds are ordered,
    and the action itself when it lies between them. *)
Theorem forward_clips_actions (env : Env) (inf : Inference) (rl : RL) (o : Tensor)
  (a lo hi : list Qc) :
  ComputeObservation env rl = Some o →
  infer inf rl o = Some (Row a) →
  clip_actions_lower (params rl) = Row lo →
  clip_actions_upper (params rl) = Row hi →
  (lo = [] ∨ hi = [] → Forward env inf rl = Some (Row a))
  ∧ (lo ≠ [] → length lo = length a → length hi = length a →
     ∃ r, Forward env inf rl = Some (Row r) ∧ length r = length a
          ∧ ∀ i x l h, a !! i = Some x → lo !! i = Some l → hi !! i = Some h →
              r !! i = Some (clamp x l h)
              ∧ clamp x l h ≤ h
              ∧ (l ≤ h → l ≤ clamp x l h)
              ∧ (l ≤ x → x ≤ h → clamp x l h = x)).
Proof.
  intros Ho Ha Hlo Hhi. unfold Forward. rewrite Ho. simpl. rewrite Ha. simpl.
  rewrite Hlo, Hhi. simpl. split.
  - intros Hor. case_decide as Hc; [|done]. destruct Hc as [H1 H2].
    destruct Hor as [-> | ->]; simpl in *; done.
  - intros Hne Llo Lhi.
    case_decide as Hc.
    2:{ exfalso. apply Hc. destruct lo, hi, a; simpl in *; split; try done; lia. }
    rewrite tensor_clamp_rows by done.
    eexists. split; [reflexivity|]. split.
    + rewrite !length_zip_with. lia.
    + intros i x l h Ex El Eh. rewrite !lookup_zip_with, Ex, El, Eh. simpl.
      split_and!; [done|apply clamp_upper|apply clamp_lower|apply clamp_inside].
Qed.

Lemma forward_clips_actions_witness :
  Forward Sample.env0 (mkInference (λ _, Some (Row [dec 2 1; dec 3 1])) Some)
    (with_observations ["dof_pos"; "actions"] Sample.rl0)
  = Some (Row [dec 2 1; dec 3 1]).
Proof.
  refine (proj1 (forward_clips_actions Sample.env0
                   (mkInference (λ _, Some (Row [dec 2 1; dec 3 1])) Some)
                   (with_observations ["dof_pos"; "actions"] Sample.rl0)
                   (Row [dec 1 2; 0; 0; 0]) [dec 2 1; dec 3 1] [] [] _ _ _ _)
            (or_introl eq_refl)).
  - vm_compute. reflexivity.
  - reflexivity.
  - reflexivity.
  - reflexivity.
Defined.

(** ** The hand-off between the two tasks *)

Lemma InitRL_queues env robot_path rl :
  queues (outcome_state (InitRL env robot_path rl)) = queues rl.
Proof.
  unfold InitRL. apply and_then_frame.
  - unfold ReadYamlRL. cbn zeta. by destruct (yaml_load _ _ _).
  - intros rl1 H1. cbn zeta. destruct (jit_load _ _); simpl.
    + by destruct (observations_history _).
    + apply and_then_frame.
      * unfold InitObservations. cbn zeta.
        destruct (torch_zeros _); simpl; by destruct (observations_history _).
      * intros rl2 H2. apply and_then_frame.
        -- unfold InitOutputs. by destruct (torch_zeros _).
        -- intros rl3 H3. done.
Qed.

Lemma learned_enter_queues env rl : queues (learned_enter env rl) = queues rl.
Proof.
  unfold learned_enter. cbn zeta.
  pose proof (InitRL_queues env
    (robot_name (set_config_name (default_rl_config rl) rl) +:+ "/" +:+
     config_name (set_config_name (default_rl_config rl) rl))
    (set_config_name (default_rl_config rl) rl)) as H.
  destruct (InitRL _ _ _); simpl in *; done.
Qed.

Lemma ramp_state_run_queues s rl rl' :
  s = Waiting ∨ s = GetUp ∨ s = GetDown →
  state_run s rl = Some rl' → queues rl' = queues rl.
Proof.
  intros [-> | [-> | ->]]; simpl;
    unfold RLFSMStateWaiting.run, RLFSMStateGetUp.run, RLFSMStateGetDown.run;
    cbn zeta; intros H;
    repeat match type of H with
           | context [decide ?P] => destruct (decide P)
           | context [for_dofs ?n ?b ?c] => destruct (for_dofs n b c); simpl in H
           end;
    try discriminate H; by injection H as <-.
Qed.

Lemma learned_run_queues rl rl' :
  learned_run rl = Some rl' →
  output_dof_tau_queue rl' = output_dof_tau_queue rl
  ∧ ((output_dof_pos_queue rl = [] ∧ output_dof_pos_queue rl' = []
      ∧ output_dof_vel_queue rl' = output_dof_vel_queue rl
      ∧ robot_command rl' = robot_command rl)
     ∨ (∃ tp, output_dof_pos_queue rl = tp :: output_dof_pos_queue rl'
              ∧ output_dof_vel_queue rl = [] ∧ output_dof_vel_queue rl' = []
              ∧ robot_command rl' = robot_command rl)
     ∨ (∃ tp tv, output_dof_pos_queue rl = tp :: output_dof_pos_queue rl'
                 ∧ output_dof_vel_queue rl = tv :: output_dof_vel_queue rl')).
Proof.
  unfold learned_run. cbn zeta. simpl.
  destruct (output_dof_pos_queue rl) as [|tp qp] eqn:Ep; simpl.
  - intros [= <-]. simpl. split; [done|]. left. by rewrite Ep.
  - destruct (output_dof_vel_queue rl) as [|tv qv] eqn:Ev; simpl.
    + intros [= <-]. simpl. split; [done|]. right. left. exists tp.
      by rewrite Ev.
    + destruct (for_dofs _ _ _); simpl; [|done].
      intros [= <-]. simpl. split; [done|]. right. right. by exists tp, tv.
Qed.

Lemma exec_tau_queue env e rl rl' :
  exec env e rl = Some rl' → output_dof_tau_queue rl' = output_dof_tau_queue rl.
Proof.
  destruct e as [st|c|s|s|s]; simpl.
  - by intros [= <-].
  - by intros [= <-].
  - intros [= <-]. destruct s; try done;
      exact (f_equal snd (learned_enter_queues env rl)).
  - destruct s; intros H.
    + exact (f_equal snd (ramp_state_run_queues Waiting rl rl' (or_introl eq_refl) H)).
    + exact (f_equal snd (ramp_state_run_queues GetUp rl rl'
                            (or_intror (or_introl eq_refl)) H)).
    + exact (f_equal snd (ramp_state_run_queues GetDown rl rl'
                            (or_intror (or_intror eq_refl)) H)).
    + exact (proj1 (learned_run_queues rl rl' H)).
    + exact (proj1 (learned_run_queues rl rl' H)).
  - intros [= <-]. by destruct s.
Qed.

Lemma store_outputs_queues a rl rl' :
  store_outputs a rl = Some rl' →
  params rl' = params rl
  ∧ actions (obs rl') = a
  ∧ ComputeOutput rl' a
    = Some (output_dof_pos rl', output_dof_vel rl', output_dof_tau rl')
  ∧ output_dof_pos_queue rl'
    = push_if_usable (output_dof_pos rl') (output_dof_pos_queue rl)
  ∧ output_dof_vel_queue rl'
    = push_if_usable (output_dof_vel rl') (output_dof_vel_queue rl)
  ∧ output_dof_tau_queue rl'
    = push_if_usable (output_dof_tau rl') (output_dof_tau_queue rl)
  ∧ robot_command rl' = robot_command rl
  ∧ control rl' = control rl.
Proof.
  unfold store_outputs. cbn zeta.
  set (rl1 := set_obs _ rl).
  destruct (ComputeOutput rl1 a) as [[[pos vel] tau]|] eqn:E; simpl; [|done].
  intros [= <-]. simpl. by split_and!.
Qed.

Lemma update_observations_frame current cmd_vel rl rl' :
  update_observations current cmd_vel rl = Some rl' →
  params rl' = params rl ∧ queues rl' = queues rl
  ∧ robot_command rl' = robot_command rl ∧ control rl' = control rl
  ∧ output_dof_pos rl' = output_dof_pos rl ∧ output_dof_vel rl' = output_dof_vel rl
  ∧ output_dof_tau rl' = output_dof_tau rl.
Proof.
  unfold update_observations. cbn zeta. simpl.
  destruct (narrow (ms_q _) _); simpl; [|done].
  destruct (narrow (ms_dq _) _); simpl; [|done].
  intros [= <-]. by split_and!.
Qed.

Lemma RunModel_active env inf current cmd_vel rl rl' :
  rl_init_done rl = true →
  RunModel env inf current cmd_vel rl = Some rl' →
  ∃ rl1 a, update_observations current cmd_vel rl = Some rl1
           ∧ Forward env inf rl1 = Some a
           ∧ store_outputs a rl1 = Some rl'.
Proof.
  intros Hd. unfold RunModel. rewrite Hd.
  destruct (update_observations _ _ _) as [rl1|] eqn:U; simpl; [|done].
  destruct (Forward _ _ _) as [a|] eqn:F; simpl; [|done].
  intros H. exists rl1, a. by split_and!.
Qed.

Lemma RunModel_queues env inf current cmd_vel rl rl' :
  RunModel env inf current cmd_vel rl = Some rl' →
  (rl_init_done rl = false ∧ rl' = rl)
  ∨ (rl_init_done rl = true
     ∧ params rl' = params rl
     ∧ ComputeOutput rl' (actions (obs rl'))
       = Some (output_dof_pos rl', output_dof_vel rl', output_dof_tau rl')
     ∧ output_dof_pos_queue rl'
       = push_if_usable (output_dof_pos rl') (output_dof_pos_queue rl)
     ∧ output_dof_vel_queue rl'
       = push_if_usable (output_dof_vel rl') (output_dof_vel_queue rl)
     ∧ output_dof_tau_queue rl'
       = push_if_usable (output_dof_tau rl') (output_dof_tau_queue rl)
     ∧ robot_command rl' = robot_command rl).
Proof.
  intros H. destruct (rl_init_done rl) eqn:Hd.
  - right. destruct (RunModel_active _ _ _ _ _ _ Hd H) as (rl1 & a & U & F & S).
    destruct (update_observations_frame _ _ _ _ U) as (P1 & Q1 & C1 & _).
    destruct (store_outputs_queues _ _ _ S) as (P2 & A2 & O2 & Qp & Qv & Qt & C2 & _).
    injection Q1 as Q1p Q1v Q1t.
    rewrite A2. split_and!; try done; congruence.
  - left. unfold RunModel in H. rewrite Hd in H. by injection H as <-.
Qed.

Lemma push_if_usable_app t queue :
  ∃ more, push_if_usable t queue = queue ++ more
          ∧ (length more ≤ 1)%nat
          ∧ (usable t = true → more = [t]).
Proof.
  unfold push_if_usable, usable.
  destruct (defined t && bool_decide (0 < numel t)%Z).
  - exists [t]. by split_and!.
  - exists []. rewrite app_nil_r. split_and!; [done|simpl; lia|done].
Qed.

(** X9. The torque queue is never drained.  No handler of the state
    machine and no call of [RunModel] removes an element from
    [output_dof_tau_queue]: over any schedule of the two tasks the queue
    keeps what it held and only grows, by at most one element per
    [RunModel] call, and by exactly the decoded torque whenever [RunModel]
    finds the learned mode initialised and decodes a non-empty torque. *)
Theorem tau_queue_never_drained (env : Env) :
  (∀ ts rl rl', performs env ts rl = Some rl' →
     ∃ more, output_dof_tau_queue rl' = output_dof_tau_queue rl ++ more
             ∧ (length more ≤ slow_steps ts)%nat)
  ∧ (∀ inf current cmd_vel rl rl',
       RunModel env inf current cmd_vel rl = Some rl' →
       rl_init_done rl = true → usable (output_dof_tau rl') = true →
       output_dof_tau_queue rl' = output_dof_tau_queue rl ++ [output_dof_tau rl']).
Proof.
  split.
  - induction ts as [|t ts IH]; intros rl rl'; simpl.
    + intros [= <-]. exists []. by rewrite app_nil_r.
    + destruct (perform env t rl) as [rl1|] eqn:E1; simpl; [|done].
      intros E2. destruct (IH _ _ E2) as (more & Hm & Lm).
      destruct t as [e|inf current cmd_vel]; simpl in E1.
      * exists more. by rewrite Hm, (exec_tau_queue _ _ _ _ E1).
      * destruct (RunModel_queues _ _ _ _ _ _ E1)
          as [[_ ->]|(_ & _ & _ & _ & _ & Qt & _)].
        -- exists more. split; [done|lia].
        -- destruct (push_if_usable_app (output_dof_tau rl1)
                       (output_dof_tau_queue rl)) as (m1 & Em1 & Lm1 & _).
           exists (m1 ++ more). rewrite Hm, Qt, Em1, <- app_assoc.
           split; [done|]. rewrite length_app. lia.
  - intros inf current cmd_vel rl rl' H Hd Hu.
    destruct (RunModel_queues _ _ _ _ _ _ H)
      as [[Hd' _]|(_ & _ & _ & _ & _ & Qt & _)]; [congruence|].
    destruct (push_if_usable_app (output_dof_tau rl') (output_dof_tau_queue rl))
      as (m1 & Em1 & _ & Um1).
    by rewrite Qt, Em1, (Um1 Hu).
Qed.

(** Locomotion activated, one inference step on the action [2, 3], one
    Locomotion tick, and back to Idle. *)
Lemma tau_queue_never_drained_witness :
  ∃ rl',
    performs Sample.env0
      [Fast (Enter RL_Locomotion);
       Slow (mkInference (λ _, Some (Row [dec 2 1; dec 3 1])) Some)
         "RLFSMStateRL_Locomotion" None;
       Fast (Run RL_Locomotion); Fast (Exit RL_Locomotion); Fast (Enter Waiting)]
      Sample.locomotion_requested = Some rl'
    ∧ ∃ more,
        output_dof_tau_queue rl'
        = output_dof_tau_queue Sample.locomotion_requested ++ more
        ∧ (length more ≤ 1)%nat.
Proof.
  eexists. split.
  - vm_compute. reflexivity.
  - apply (proj1 (tau_queue_never_drained Sample.env0)
             [Fast (Enter RL_Locomotion);
              Slow (mkInference (λ _, Some (Row [dec 2 1; dec 3 1])) Some)
                "RLFSMStateRL_Locomotion" None;
              Fast (Run RL_Locomotion); Fast (Exit RL_Locomotion);
              Fast (Enter Waiting)]
             Sample.locomotion_requested).
    vm_compute. reflexivity.
Defined.

Lemma split_wheels_lengths (wheels : list Z) (scaled : Tensor) (p v : list Qc)
  (p' v' : Tensor) :
  split_wheels wheels scaled (Row p, Row v) = Some (p', v') →
  ∃ lp lv, p' = Row lp ∧ v' = Row lv ∧ length lp = length p ∧ length lv = length v.
Proof.
  revert p v. induction wheels as [|i wheels IH]; intros p v; simpl.
  - intros [= <- <-]. by exists p, v.
  - unfold set_item. simpl.
    destruct (norm_index (length p) i) as [k|]; simpl; [|done].
    destruct (item scaled i) as [x|]; simpl; [|done].
    destruct (norm_index (length v) i) as [k'|]; simpl; [|done].
    intros H. destruct (IH _ _ H) as (lp & lv & -> & -> & Lp & Lv).
    exists lp, lv. rewrite !length_insert in *. by split_and!.
Qed.

Lemma ComputeOutput_usable (rl : RL) (a pos vel tau : Tensor) :
  ComputeOutput rl a = Some (pos, vel, tau) →
  numel (action_scale (params rl)) = numel a →
  numel (default_dof_pos (params rl)) = numel a →
  usable pos = usable vel.
Proof.
  intros H Hs Hd. unfold ComputeOutput in H. cbn zeta in H.
  destruct a as [|a]; [done|].
  destruct (action_scale (params rl)) as [|s] eqn:Es; [done|].
  simpl in Hs.
  unfold tensor_mul, zeros_like in H.
  rewrite tensor_op_rows in H by lia. simpl in H.
  destruct (split_wheels _ _ _) as [[p' v']|] eqn:Esw; simpl in H; [|done].
  apply split_wheels_lengths in Esw as (lp & lv & -> & -> & Lp & Lv).
  rewrite length_zip_with in Lp. rewrite length_replicate in Lv.
  change (tensor_add (Row lp) (Row lv)) with (tensor_op Qcplus (Row lp) (Row lv)) in H.
  rewrite tensor_op_rows in H by lia.
  destruct (default_dof_pos (params rl)) as [|d] eqn:Ed; [done|].
  simpl in Hd.
  change (tensor_add (Row lp) (Row d)) with (tensor_op Qcplus (Row lp) (Row d)) in H.
  rewrite tensor_op_rows in H by lia. simpl in H.
  repeat match type of H with
         | (?m ≫= _) = _ => destruct m; simpl in H; [|done]
         end.
  injection H as <- <- <-. unfold usable. simpl.
  rewrite length_zip_with. apply bool_decide_ext. lia.
Qed.

Lemma push_if_usable_length t queue :
  length (push_if_usable t queue)
  = (length queue + (if usable t then 1 else 0))%nat.
Proof.
  unfold push_if_usable, usable.
  destruct (defined t && bool_decide (0 < numel t)%Z).
  - rewrite length_app. simpl. lia.
  - lia.
Qed.

(** X10. Position and velocity targets are handed over in pairs.  Call the
    hand-off balanced when as many position targets as velocity targets
    are waiting.  Every handler of the state machine keeps it balanced, and
    so does a call of [RunModel] whose action has as many entries as the
    action scale and the default pose of the profile.  In a balanced
    hand-off a tick of a learned mode either finds both queues empty and
    leaves JointCommand untouched, or takes one target from each: it never
    consumes a position target without a velocity target. *)
Theorem handoff_balanced (env : Env) :
  (∀ t rl rl',
     perform env t rl = Some rl' →
     match t with
     | Fast _ => True
     | Slow _ _ _ =>
         numel (action_scale (params rl)) = numel (actions (obs rl'))
         ∧ numel (default_dof_pos (params rl)) = numel (actions (obs rl'))
     end →
     balanced rl → balanced rl')
  ∧ (∀ s rl rl',
       s = RL_Locomotion ∨ s = RL_Navigation →
       balanced rl → state_run s rl = Some rl' →
       (output_dof_pos_queue rl = [] ∧ output_dof_vel_queue rl = []
        ∧ output_dof_pos_queue rl' = [] ∧ output_dof_vel_queue rl' = []
        ∧ robot_command rl' = robot_command rl)
       ∨ (∃ tp tv, output_dof_pos_queue rl = tp :: output_dof_pos_queue rl'
                   ∧ output_dof_vel_queue rl = tv :: output_dof_vel_queue rl')).
Proof.
  assert (L : ∀ rl rl', balanced rl → learned_run rl = Some rl' →
       (output_dof_pos_queue rl = [] ∧ output_dof_vel_queue rl = []
        ∧ output_dof_pos_queue rl' = [] ∧ output_dof_vel_queue rl' = []
        ∧ robot_command rl' = robot_command rl)
       ∨ (∃ tp tv, output_dof_pos_queue rl = tp :: output_dof_pos_queue rl'
                   ∧ output_dof_vel_queue rl = tv :: output_dof_vel_queue rl')).
  { intros rl rl' Hb H. unfold balanced in Hb.
    destruct (learned_run_queues rl rl' H)
      as (_ & [(Ep & Ep' & Ev & Ec)|[(tp & Ep & Ev & Ev' & Ec)|(tp & tv & Ep & Ev)]]).
    - left. rewrite Ep in Hb. simpl in Hb.
      assert (Ev0 : output_dof_vel_queue rl = [])
        by (by destruct (output_dof_vel_queue rl)).
      rewrite Ev, Ev0. by split_and!.
    - exfalso. rewrite Ep, Ev in Hb. simpl in Hb. lia.
    - right. by exists tp, tv. }
  split.
  - intros t rl rl' H Hshape Hb. unfold balanced in *.
    destruct t as [e|inf current cmd_vel]; simpl in H.
    + destruct e as [st|c|s|s|s]; simpl in H.
      * by injection H as <-.
      * by injection H as <-.
      * injection H as <-.
        destruct s; try done; simpl;
          unfold RLFSMStateRL_Locomotion.enter, RLFSMStateRL_Navigation.enter;
          pose proof (learned_enter_queues env rl) as Q; unfold queues in Q;
          injection Q as Q1 Q2 _; by rewrite Q1, Q2.
      * destruct s.
        -- pose proof (ramp_state_run_queues Waiting rl rl' (or_introl eq_refl) H) as Q.
           unfold queues in Q. injection Q as Q1 Q2 _. by rewrite Q1, Q2.
        -- pose proof (ramp_state_run_queues GetUp rl rl'
                         (or_intror (or_introl eq_refl)) H) as Q.
           unfold queues in Q. injection Q as Q1 Q2 _. by rewrite Q1, Q2.
        -- pose proof (ramp_state_run_queues GetDown rl rl'
                         (or_intror (or_intror eq_refl)) H) as Q.
           unfold queues in Q. injection Q as Q1 Q2 _. by rewrite Q1, Q2.
        -- destruct (L rl rl' Hb H) as [(_ & _ & -> & -> & _)|(tp & tv & Ep & Ev)];
             [done|]. rewrite Ep, Ev in Hb. simpl in Hb. lia.
        -- destruct (L rl rl' Hb H) as [(_ & _ & -> & -> & _)|(tp & tv & Ep & Ev)];
             [done|]. rewrite Ep, Ev in Hb. simpl in Hb. lia.
      * injection H as <-. by destruct s.
    + destruct (RunModel_queues _ _ _ _ _ _ H)
        as [[_ ->]|(_ & P & O & Qp & Qv & _)]; [done|].
      destruct Hshape as [Hs Hd]. rewrite <- P in Hs, Hd.
      rewrite Qp, Qv, !push_if_usable_length.
      rewrite (ComputeOutput_usable _ _ _ _ _ O Hs Hd). lia.
  - intros s rl rl' [-> | ->] Hb H; by apply L.
Qed.

(** One inference step on the action [2, 3] after Locomotion has been
    activated. *)
Lemma handoff_balanced_witness :
  ∃ rl',
    perform Sample.env0
      (Slow (mkInference (λ _, Some (Row [dec 2 1; dec 3 1])) Some)
         "RLFSMStateRL_Locomotion" None)
      (state_enter Sample.env0 RL_Locomotion Sample.locomotion_requested)
    = Some rl'
    ∧ balanced rl'.
Proof.
  eexists. split.
  - vm_compute. reflexivity.
  - apply (proj1 (handoff_balanced Sample.env0)
             (Slow (mkInference (λ _, Some (Row [dec 2 1; dec 3 1])) Some)
                "RLFSMStateRL_Locomotion" None)
             (state_enter Sample.env0 RL_Locomotion Sample.locomotion_requested)).
    + vm_compute. reflexivity.
    + split; vm_compute; reflexivity.
    + reflexivity.
Defined.

Lemma Forall_usable_head (q : list Tensor) (t : Tensor) :
  Forall (λ t, usable t = true) q → usable t = true →
  ∃ tp qp, q ++ [t] = tp :: qp ∧ usable tp = true.
Proof.
  intros Hq Ht. destruct q as [|tp qp]; simpl.
  - by exists t, [].
  - exists tp, (qp ++ [t]). split; [done|]. by inversion Hq.
Qed.

(** X11. From the policy to the joints.  Let the learned mode be
    initialised, let [RunModel] assemble the observation and the policy
    answer with a non-empty action row [a], one action per DOF, under a
    profile with one entry per DOF in every row, and let every target still
    waiting in the two queues be non-empty.  Then [RunModel] returns, and
    the next tick of the learned mode returns and commands, for every DOF:
    position [a_i * scale_i + default_i] and velocity 0, or, for a wheel
    DOF, position [default_i] and velocity [a_i * scale_i]; the learned-mode
    gains; torque 0. *)
Theorem policy_action_reaches_command (env : Env) (inf : Inference)
  (current : string) (cmd_vel : option (Qc * Qc * Qc)) (s : StateId)
  (rl rl1 : RL) (a : list Qc) :
  s = RL_Locomotion ∨ s = RL_Navigation →
  rl_init_done rl = true →
  update_observations current cmd_vel rl = Some rl1 →
  Forward env inf rl1 = Some (Row a) →
  a ≠ [] →
  decodable rl1 (length a) →
  num_of_dofs (params rl) = Z.of_nat (length a) →
  command_covers (length a) (motor_command (robot_command rl)) →
  Forall (λ t, usable t = true) (output_dof_pos_queue rl) →
  Forall (λ t, usable t = true) (output_dof_vel_queue rl) →
  ∃ rl2 rl3,
    RunModel env inf current cmd_vel rl = Some rl2
    ∧ state_run s rl2 = Some rl3
    ∧ ∀ i ai si di,
        a !! i = Some ai →
        item (action_scale (params rl)) (Z.of_nat i) = Some si →
        item (default_dof_pos (params rl)) (Z.of_nat i) = Some di →
        let c := motor_command (robot_command rl3) in
        mc_q c !! i = Some (if decide (Z.of_nat i ∈ wheel_indices (params rl))
                            then di else ai * si + di)
        ∧ mc_dq c !! i = Some (if decide (Z.of_nat i ∈ wheel_indices (params rl))
                               then ai * si else 0)
        ∧ mc_kp c !! i = item (rl_kp (params rl)) (Z.of_nat i)
        ∧ mc_kd c !! i = item (rl_kd (params rl)) (Z.of_nat i)
        ∧ mc_tau c !! i = Some 0.
Proof.
  intros Hs Hd U F Ha Hdec Hn Hc Hqp Hqv.
  destruct (update_observations_frame _ _ _ _ U)
    as (P1 & Q1 & C1 & _). unfold queues in Q1. injection Q1 as Q1p Q1v _.
  set (rl1' := set_obs
                 (mkObservations (lin_vel (obs rl1)) (ang_vel (obs rl1))
                    (gravity_vec (obs rl1)) (commands (obs rl1))
                    (base_quat (obs rl1)) (dof_pos (obs rl1)) (dof_vel (obs rl1))
                    (Row a)) rl1).
  assert (Hdec' : decodable rl1' (length a)) by exact Hdec.
  destruct (decodable_rows rl1' _ Hdec')
    as (sc & d & m & mv & kp & kd & lim & Hsc & Hdd & Hm & Hmv & Hkp & Hkd & Hlim
        & Ls & Ld & Lm & Lmv & Lkp & Lkd & Llim).
  destruct (ComputeOutput_rows rl1' a sc d m mv kp kd lim)
    as (pos & vel & tau & E & Lpos & Lvel & Ltau & H); try done.
  { by destruct Hdec' as (_&_&_&_&_&_&_&_&_&_&_&_&_&_&?). }
  assert (Hlen : (0 < length a)%nat) by (destruct a; simpl; [done|lia]).
  assert (Upos : usable (Row pos) = true).
  { unfold usable. simpl. apply bool_decide_eq_true_2. lia. }
  assert (Uvel : usable (Row vel) = true).
  { unfold usable. simpl. apply bool_decide_eq_true_2. lia. }
  destruct (Forall_usable_head (output_dof_pos_queue rl1) (Row pos))
    as (tp & qp & Ep & Utp); [by rewrite Q1p|done|].
  destruct (Forall_usable_head (output_dof_vel_queue rl1) (Row vel))
    as (tv & qv & Ev & Utv); [by rewrite Q1v|done|].
  set (rl2 := set_output_dof_tau_queue
                (push_if_usable (Row tau) (output_dof_tau_queue rl1))
                (set_output_dof_vel_queue (tv :: qv)
                   (set_output_dof_pos_queue (tp :: qp)
                      (set_output_dof_tau (Row tau)
                         (set_output_dof_vel (Row vel)
                            (set_output_dof_pos (Row pos) rl1')))))).
  assert (R : RunModel env inf current cmd_vel rl = Some rl2).
  { unfold RunModel. rewrite Hd, U. simpl. rewrite F. simpl.
    unfold store_outputs. cbn zeta. fold rl1'. rewrite E. simpl.
    unfold push_if_usable at 2 3.
    change (defined (Row pos) && bool_decide (0 < numel (Row pos))%Z)
      with (usable (Row pos)).
    change (defined (Row vel) && bool_decide (0 < numel (Row vel))%Z)
      with (usable (Row vel)).
    rewrite Upos, Uvel, Ep, Ev. reflexivity. }
  assert (Hdofs : dofs rl2 = length a).
  { unfold dofs. simpl. rewrite P1, Hn. apply Nat2Z.id. }
  assert (Hready : learned_ready rl2 tp tv).
  { unfold learned_ready. rewrite Hdofs. simpl.
    change (params rl1) with (params rl1'). rewrite Hkp, Hkd, C1. simpl.
    split_and!; try (intros _); try done; lia. }
  assert (T : state_run s rl2 = learned_run rl2) by (by destruct Hs as [-> | ->]).
  exists rl2. eexists. split; [exact R|]. rewrite T.
  rewrite (learned_run_fed rl2 tp qp tv qv) by done.
  split; [reflexivity|].
  intros i ai si di Ea Es Edi.
  assert (Hi : (i < length a)%nat) by (by eapply lookup_lt_Some).
  rewrite <- P1 in Es, Edi |- *. change (params rl1) with (params rl1') in *.
  rewrite Hsc in Es. rewrite Hdd in Edi. rewrite Hkp, Hkd.
  destruct (lookup_lt_is_Some_2 sc i) as [si' Es']; [lia|].
  destruct (lookup_lt_is_Some_2 d i) as [di' Ed']; [lia|].
  rewrite (item_Row _ _ _ Es') in Es. injection Es as ->.
  rewrite (item_Row _ _ _ Ed') in Edi. injection Edi as ->.
  destruct (lookup_lt_is_Some_2 m i) as [mi Em]; [lia|].
  destruct (lookup_lt_is_Some_2 mv i) as [mvi Emv]; [lia|].
  destruct (lookup_lt_is_Some_2 kp i) as [kpi Ekp]; [lia|].
  destruct (lookup_lt_is_Some_2 kd i) as [kdi Ekd]; [lia|].
  destruct (lookup_lt_is_Some_2 lim i) as [li Eli]; [lia|].
  destruct (H i ai si di mi mvi kpi kdi li Ea Es' Ed' Em Emv Ekp Ekd Eli)
    as (Hp & Hv & _).
  destruct Hc as (?&?&?&?&?).
  cbn zeta. simpl. rewrite Hdofs, C1.
  rewrite !prefix_lookup by lia.
  unfold learned_q, learned_dq. rewrite Utp, Utv. simpl.
  rewrite (item_Row _ _ _ Hp), (item_Row _ _ _ Hv).
  change (params rl1) with (params rl1').
  rewrite Hkp, Hkd, (item_Row _ _ _ Ekp), (item_Row _ _ _ Ekd).
  done.
Qed.

(** Locomotion activated on the two-DOF robot, the policy answering
    [2, 3]. *)
Lemma policy_action_reaches_command_witness :
  ∃ rl2 rl3,
    RunModel Sample.env0 (mkInference (λ _, Some (Row [dec 2 1; dec 3 1])) Some)
      "RLFSMStateRL_Locomotion" None
      (state_enter Sample.env0 RL_Locomotion Sample.locomotion_requested)
    = Some rl2
    ∧ state_run RL_Locomotion rl2 = Some rl3
    ∧ ∀ i ai si di,
        [dec 2 1; dec 3 1] !! i = Some ai →
        item (Row [dec 1 4; dec 1 4]) (Z.of_nat i) = Some si →
        item (Row [0; 0]) (Z.of_nat i) = Some di →
        let c := motor_command (robot_command rl3) in
        mc_q c !! i = Some (if decide (Z.of_nat i ∈ [1%Z]) then di else ai * si + di)
        ∧ mc_dq c !! i = Some (if decide (Z.of_nat i ∈ [1%Z]) then ai * si else 0)
        ∧ mc_kp c !! i = item (Row [dec 20 1; dec 20 1]) (Z.of_nat i)
        ∧ mc_kd c !! i = item (Row [dec 1 2; dec 1 2]) (Z.of_nat i)
        ∧ mc_tau c !! i = Some 0.
Proof.
  eapply (policy_action_reaches_command Sample.env0
            (mkInference (λ _, Some (Row [dec 2 1; dec 3 1])) Some)
            "RLFSMStateRL_Locomotion" None RL_Locomotion
            (state_enter Sample.env0 RL_Locomotion Sample.locomotion_requested)
            _ [dec 2 1; dec 3 1]).
  - left. reflexivity.
  - reflexivity.
  - vm_compute. reflexivity.
  - vm_compute. reflexivity.
  - discriminate.
  - unfold decodable. simpl. split_and!; try reflexivity. repeat constructor; lia.
  - reflexivity.
  - unfold command_covers. simpl. lia.
  - constructor.
  - constructor.
Defined.

(** ** The shape of the observation *)

Lemma zero_wheels_spec (wheels : list Z) (l : list Qc) :
  Forall (λ i, (0 ≤ i < Z.of_nat (length l))%Z) wheels →
  ∃ l', zero_wheels wheels (Row l) = Some (Row l') ∧ length l' = length l
        ∧ ∀ j, l' !! j = (if decide (Z.of_nat j ∈ wheels)
                          then (λ _, 0) <$> l !! j else l !! j).
Proof.
  intros Hw. revert l Hw. induction wheels as [|i wheels IH]; intros l Hw.
  - exists l. by split_and!.
  - apply Forall_cons_1 in Hw as [Hi Hw]. simpl. unfold set_item. simpl.
    rewrite (norm_index_valid _ i Hi). simpl.
    destruct (IH (<[Z.to_nat i := 0]> l)) as (l' & E & L & H).
    { by rewrite length_insert. }
    exists l'. rewrite length_insert in L. split_and!; try done.
    intros j. rewrite H.
    destruct (decide (Z.of_nat j ∈ wheels)) as [Hin|Hin].
    + rewrite decide_True by (rewrite elem_of_cons; by right).
      destruct (decide (j = Z.to_nat i)) as [->|Hne].
      * rewrite list_lookup_insert_eq by lia.
        destruct (lookup_lt_is_Some_2 l (Z.to_nat i)) as [x ->]; [lia|]. done.
      * by rewrite list_lookup_insert_ne by done.
    + destruct (decide (Z.of_nat j = i)) as [<-|Hne].
      * rewrite decide_True by (rewrite elem_of_cons; by left).
        rewrite Nat2Z.id in *. rewrite list_lookup_insert_eq by lia.
        destruct (lookup_lt_is_Some_2 l j) as [x ->]; [lia|]. done.
      * rewrite decide_False by (rewrite elem_of_cons; intros [?|?]; done).
        rewrite list_lookup_insert_ne by lia. done.
Qed.

Lemma QuatRotateInverse_row (q v : list Qc) (fw : string) :
  length q = 4%nat → length v = 3%nat → fw = "isaacsim" ∨ fw = "isaacgym" →
  is_row (default Undefined (QuatRotateInverse (Row q) (Row v) fw)) 3
  ∧ is_Some (QuatRotateInverse (Row q) (Row v) fw).
Proof.
  intros Hq Hv Hfw.
  destruct q as [|q0 [|q1 [|q2 [|q3 [|]]]]]; try done.
  destruct v as [|v1 [|v2 [|v3 [|]]]]; try done.
  destruct Hfw as [-> | ->]; simpl; (split; [by eexists|by eexists]).
Qed.

Lemma dof_pos_term_unfold (env : Env) (rl : RL) :
  observation_term env rl "dof_pos"
  = dof_pos_rel ← tensor_sub (dof_pos (obs rl)) (default_dof_pos (params rl));
    dof_pos_rel ← zero_wheels (wheel_indices (params rl)) dof_pos_rel;
    PushBack <$> tensor_scale dof_pos_rel (dof_pos_scale (params rl)).
Proof. reflexivity. Qed.

Lemma observation_term_row (env : Env) (rl : RL) (n : nat) (name : string) :
  observable rl n → recognized name = true →
  ∃ l, observation_term env rl name = Some (PushBack (Row l))
       ∧ length l = term_width n name.
Proof.
  intros ((lv & Elv & Llv) & (av & Eav & Lav) & (g & Eg & Lg) & (c & Ec & Lc)
          & (cs & Ecs & Lcs) & (q & Eq & Lq) & (dp & Edp & Ldp) & (dd & Edd & Ldd)
          & (dv & Edv & Ldv) & (ac & Eac & Lac) & Hfw & Hw) R.
  apply bool_decide_eq_true_1 in R. unfold recognized_terms in R.
  repeat (apply elem_of_cons in R as [-> | R]); [..|by apply elem_of_nil in R].
  - exists (map (λ x, x * lin_vel_scale (params rl)) lv).
    change (observation_term env rl "lin_vel")
      with (PushBack <$> tensor_scale (lin_vel (obs rl)) (lin_vel_scale (params rl))).
    rewrite Elv. simpl. by rewrite length_map.
  - exists (map (λ x, x * ang_vel_scale (params rl)) av).
    change (observation_term env rl "ang_vel_body")
      with (PushBack <$> tensor_scale (ang_vel (obs rl)) (ang_vel_scale (params rl))).
    rewrite Eav. simpl. by rewrite length_map.
  - change (observation_term env rl "ang_vel_world")
      with (r ← QuatRotateInverse (base_quat (obs rl)) (ang_vel (obs rl))
                  (framework (params rl));
            PushBack <$> tensor_scale r (ang_vel_scale (params rl))).
    rewrite Eq, Eav.
    destruct (QuatRotateInverse_row q av (framework (params rl)) Lq Lav Hfw)
      as [(l & El & Ll) [t Et]].
    rewrite Et in El |- *. simpl in El. subst t. simpl.
    eexists. split; [reflexivity|]. by rewrite length_map.
  - change (observation_term env rl "gravity_vec")
      with (PushBack <$> QuatRotateInverse (base_quat (obs rl)) (gravity_vec (obs rl))
                           (framework (params rl))).
    rewrite Eq, Eg.
    destruct (QuatRotateInverse_row q g (framework (params rl)) Lq Lg Hfw)
      as [(l & El & Ll) [t Et]].
    rewrite Et in El |- *. simpl in El. subst t. simpl.
    eexists. split; [reflexivity|]. done.
  - change (observation_term env rl "commands")
      with (PushBack <$> tensor_mul (commands (obs rl)) (commands_scale (params rl))).
    rewrite Ec, Ecs. unfold tensor_mul. rewrite tensor_op_rows by lia. simpl.
    eexists. split; [reflexivity|]. rewrite length_zip_with. rewrite Lc, Lcs. done.
  - rewrite dof_pos_term_unfold, Edp, Edd. unfold tensor_sub.
    rewrite tensor_op_rows by lia. simpl.
    destruct (zero_wheels_spec (wheel_indices (params rl)) (zip_with Qcminus dp dd))
      as (l' & Ez & L & _).
    { rewrite length_zip_with. by replace (length dp `min` length dd) with n by lia. }
    rewrite Ez. simpl. eexists. split; [reflexivity|].
    rewrite length_zip_with in L. rewrite length_map. change (term_width n "dof_pos") with n.
    lia.
  - exists (map (λ x, x * dof_vel_scale (params rl)) dv).
    change (observation_term env rl "dof_vel")
      with (PushBack <$> tensor_scale (dof_vel (obs rl)) (dof_vel_scale (params rl))).
    rewrite Edv. simpl. by rewrite length_map.
  - exists ac.
    change (observation_term env rl "actions") with (Some (PushBack (actions (obs rl)))).
    by rewrite Eac.
  - eexists. split; [reflexivity|]. reflexivity.
  - eexists. split; [reflexivity|]. reflexivity.
Qed.

Lemma term_width_unrecognized (n : nat) (name : string) :
  recognized name = false → term_width n name = 0%nat.
Proof.
  intros R. apply bool_decide_eq_false_1 in R. unfold recognized_terms in R.
  rewrite !elem_of_cons, elem_of_nil in R.
  unfold term_width.
  rewrite bool_decide_eq_false_2 by (rewrite !elem_of_cons, elem_of_nil; tauto).
  rewrite bool_decide_eq_false_2 by (rewrite !elem_of_cons, elem_of_nil; tauto).
  rewrite bool_decide_eq_false_2 by tauto.
  rewrite bool_decide_eq_false_2 by tauto. done.
Qed.

Lemma build_obs_list_rows (env : Env) (rl : RL) (n : nat) (names : list string)
  (rows : list (list Qc)) :
  observable rl n →
  ∃ new, build_obs_list env rl names (Row <$> rows) = Some (Row <$> (rows ++ new))
         ∧ length (mjoin new) = sum_list (term_width n <$> names)
         ∧ (Exists (λ name, recognized name = true) names → new ≠ []).
Proof.
  intros Ho. revert rows. induction names as [|name names IH]; intros rows.
  - exists []. rewrite app_nil_r. split_and!; try done. by intros ?%Exists_nil.
  - simpl. destruct (recognized name) eqn:R.
    + destruct (observation_term_row env rl n name Ho R) as (l & E & L).
      rewrite E. simpl.
      destruct (IH (rows ++ [l])) as (new & E' & L' & _).
      rewrite fmap_app in E'. simpl in E'. rewrite E'.
      exists (l :: new). rewrite <- app_assoc. simpl. split_and!; try done.
      rewrite length_app, L. f_equal. exact L'.
    + rewrite (unrecognized_term_skipped env rl name R). simpl.
      destruct (IH rows) as (new & E' & L' & N').
      exists new. rewrite (term_width_unrecognized n name R). split_and!; try done.
      intros [H|H]%Exists_cons; [congruence|by apply N'].
Qed.

Lemma mapM_row_rows (rows : list (list Qc)) : mapM row (Row <$> rows) = Some rows.
Proof. apply mapM_Some. induction rows; constructor; done. Qed.

Lemma ComputeObservation_cat (env : Env) (rl : RL) (n : nat) :
  observable rl n →
  Exists (λ name, recognized name = true) (observations (params rl)) →
  ∃ o, ComputeObservation env rl
       = tensor_clamp_scalar (Row o) (- clip_obs (params rl)) (clip_obs (params rl))
       ∧ length o = sum_list (term_width n <$> observations (params rl)).
Proof.
  intros Ho Hex. unfold ComputeObservation.
  destruct (build_obs_list_rows env rl n (observations (params rl)) [] Ho)
    as (new & E & L & N).
  change (@nil Tensor) with (Row <$> @nil (list Qc)). rewrite E. simpl.
  specialize (N Hex).
  assert (C : torch_cat (Row <$> new) = Some (Row (mjoin new))).
  { unfold torch_cat. destruct new as [|l new]; [done|].
    change (Row <$> l :: new) with (Row l :: (Row <$> new)).
    cbn [mapM]. simpl. rewrite mapM_row_rows. done. }
  rewrite C. simpl. by exists (mjoin new).
Qed.

(** X12. The width and the range of the observation.  When every tensor
    [ComputeObservation] reads has the shape its term needs (three columns
    for velocities, gravity and commands, four for the quaternion, one per
    DOF for positions, velocities and actions), the framework is one of the
    two supported ones, the wheel indices are DOF indices and at least one
    configured term is recognized, [ComputeObservation] returns a row whose
    length is the sum of the widths of the configured terms, an
    unrecognized term counting 0; and when [clip_obs] is not negative every
    entry lies within [-clip_obs, clip_obs]. *)
Theorem observation_width_and_clip (env : Env) (rl : RL) (n : nat) :
  observable rl n →
  Exists (λ name, recognized name = true) (observations (params rl)) →
  ∃ r, ComputeObservation env rl = Some (Row r)
       ∧ length r = sum_list (term_width n <$> observations (params rl))
       ∧ (0 ≤ clip_obs (params rl) →
          Forall (λ x, - clip_obs (params rl) ≤ x ∧ x ≤ clip_obs (params rl)) r).
Proof.
  intros Ho Hex.
  destruct (ComputeObservation_cat env rl n Ho Hex) as (o & E & L).
  rewrite E. simpl. eexists. split; [reflexivity|]. split.
  - by rewrite length_map.
  - intros Hc. apply Forall_fmap, Forall_forall. intros x _. simpl.
    by apply clamp_within.
Qed.

Lemma observable_sample : observable Sample.rl0 2.
Proof.
  unfold observable, is_row. simpl.
  split_and!; try (eexists; split; reflexivity).
  - by right.
  - repeat constructor; lia.
Qed.

Lemma observation_width_and_clip_witness :
  ∃ r, ComputeObservation Sample.env0 Sample.rl0 = Some (Row r)
       ∧ length r = 12%nat
       ∧ (0 ≤ dec 100 1 → Forall (λ x, - dec 100 1 ≤ x ∧ x ≤ dec 100 1) r).
Proof.
  apply (observation_width_and_clip Sample.env0 Sample.rl0 2).
  - exact observable_sample.
  - apply Exists_cons. right. apply Exists_cons. left. reflexivity.
Defined.

(** X13. A profile without a recognized term.  If no configured term name
    is one [ComputeObservation] knows -- the list is empty, or every name
    is misspelt -- nothing is pushed and the concatenation throws: the
    profile loads, the mode is activated, and the first inference step
    fails. *)
Theorem no_recognized_term_throws (env : Env) (rl : RL) :
  Forall (λ name, recognized name = false) (observations (params rl)) →
  build_obs_list env rl (observations (params rl)) [] = Some []
  ∧ ComputeObservation env rl = None
  ∧ ∀ inf, Forward env inf rl = None.
Proof.
  intros H.
  assert (E : build_obs_list env rl (observations (params rl)) [] = Some []).
  { rewrite build_obs_list_filter.
    replace (List.filter recognized (observations (params rl))) with (@nil string);
      [done|].
    symmetry. induction H as [|name names Hn H IH]; simpl; [done|].
    by rewrite Hn. }
  assert (C : ComputeObservation env rl = None)
    by (unfold ComputeObservation; by rewrite E).
  split_and!; try done. intros inf. unfold Forward. by rewrite C.
Qed.

Lemma no_recognized_term_throws_witness :
  ComputeObservation Sample.env0
    (with_observations ["dof_position"; "action"] Sample.rl0) = None.
Proof.
  apply (no_recognized_term_throws Sample.env0
           (with_observations ["dof_position"; "action"] Sample.rl0)).
  repeat constructor.
Defined.

(** X14. Wheels carry no position.  With a measured and a default position
    for each of the [n] DOFs and wheel indices that are DOF indices, the
    term dof_pos contributes [n] columns: 0 for a wheel DOF, whatever its
    measured angle, and (measured - default) * dof_pos_scale for any other
    DOF. *)
Theorem wheel_position_masked (env : Env) (rl : RL) (dp dd : list Qc) :
  dof_pos (obs rl) = Row dp → default_dof_pos (params rl) = Row dd →
  length dd = length dp →
  Forall (λ i, (0 ≤ i < Z.of_nat (length dp))%Z) (wheel_indices (params rl)) →
  ∃ r, observation_term env rl "dof_pos" = Some (PushBack (Row r))
       ∧ length r = length dp
       ∧ ∀ j x d, dp !! j = Some x → dd !! j = Some d →
           r !! j = Some (if decide (Z.of_nat j ∈ wheel_indices (params rl))
                          then 0 else (x - d) * dof_pos_scale (params rl)).
Proof.
  intros Hdp Hdd Ldd Hw.
  rewrite dof_pos_term_unfold, Hdp, Hdd. unfold tensor_sub.
  rewrite tensor_op_rows by lia. simpl.
  destruct (zero_wheels_spec (wheel_indices (params rl)) (zip_with Qcminus dp dd))
    as (l' & Ez & L & H).
  { rewrite length_zip_with.
    by replace (length dp `min` length dd) with (length dp) by lia. }
  rewrite Ez. simpl. eexists. split; [reflexivity|].
  rewrite length_zip_with in L. split.
  - rewrite length_map. lia.
  - intros j x d Ex Ed. rewrite list_lookup_fmap, H, lookup_zip_with, Ex, Ed.
    simpl. case_decide; simpl; f_equal. ring.
Qed.

Lemma wheel_position_masked_witness :
  ∃ r, observation_term Sample.env0 Sample.rl0 "dof_pos" = Some (PushBack (Row r))
       ∧ length r = 2%nat
       ∧ ∀ j x d, [dec 1 2; dec (-3) 10] !! j = Some x → [0; 0] !! j = Some d →
           r !! j = Some (if decide (Z.of_nat j ∈ [1%Z]) then 0 else (x - d) * 1).
Proof.
  apply (wheel_position_masked Sample.env0 Sample.rl0 [dec 1 2; dec (-3) 10] [0; 0]).
  - reflexivity.
  - reflexivity.
  - reflexivity.
  - repeat constructor; simpl; lia.
Defined.

(** ** Rotation by a unit quaternion *)

Lemma inverse_rotation_norm (w x y z v1 v2 v3 : Qc) :
  w * w + x * x + y * y + z * z = 1 →
  let '(o1, o2, o3) := inverse_rotation w (x, y, z) (v1, v2, v3) in
  o1 * o1 + o2 * o2 + o3 * o3 = v1 * v1 + v2 * v2 + v3 * v3.
Proof.
  intros H. simpl.
  match goal with
  | |- ?lhs = ?rhs =>
      assert (E : lhs = (rhs + (w * w + x * x + y * y + z * z - 1)
                               * (2 * 2 * (w * w) * (v1 * v1 + v2 * v2 + v3 * v3)
                                  + 2 * 2 * ((x * v1 + y * v2 + z * v3)
                                             * (x * v1 + y * v2 + z * v3))))%Qc)
        by ring
  end.
  rewrite E, H. ring.
Qed.

(** X15. The rotation keeps lengths.  For a unit quaternion, under either
    convention, [QuatRotateInverse] returns a vector of the same length as
    its argument; in particular the gravity term of the observation is a
    unit vector whenever the orientation quaternion is normalised. *)
Theorem quat_rotate_preserves_norm (q0 q1 q2 q3 v1 v2 v3 : Qc) (fw : string) :
  fw = "isaacsim" ∨ fw = "isaacgym" →
  q0 * q0 + q1 * q1 + q2 * q2 + q3 * q3 = 1 →
  ∃ out, QuatRotateInverse (Row [q0; q1; q2; q3]) (Row [v1; v2; v3]) fw
         = Some (Row out)
         ∧ length out = 3%nat
         ∧ norm2 out = norm2 [v1; v2; v3].
Proof.
  intros [-> | ->] H.
  - pose proof (inverse_rotation_norm q0 q1 q2 q3 v1 v2 v3) as N.
    simpl in N. eexists. split; [reflexivity|]. split; [reflexivity|].
    unfold norm2. simpl.
    match goal with |- ?a = ?b => transitivity (v1 * v1 + v2 * v2 + v3 * v3) end;
      [|ring].
    rewrite <- N by (rewrite <- H; ring). ring.
  - pose proof (inverse_rotation_norm q3 q0 q1 q2 v1 v2 v3) as N.
    simpl in N. eexists. split; [reflexivity|]. split; [reflexivity|].
    unfold norm2. simpl.
    match goal with |- ?a = ?b => transitivity (v1 * v1 + v2 * v2 + v3 * v3) end;
      [|ring].
    rewrite <- N by (rewrite <- H; ring). ring.
Qed.

Lemma quat_rotate_preserves_norm_witness :
  ∃ out, QuatRotateInverse (Row [dec 3 5; 0; dec 4 5; 0]) (Row [0; 0; - (1)]) "isaacsim"
         = Some (Row out)
         ∧ length out = 3%nat
         ∧ norm2 out = norm2 [0; 0; - (1)].
Proof.
  apply (quat_rotate_preserves_norm (dec 3 5) 0 (dec 4 5) 0 0 0 (- (1)) "isaacsim").
  - left. reflexivity.
  - apply Qc_is_canon. vm_compute. reflexivity.
Defined.

(** X16. A quaternion and its negative rotate alike.  Negating all four
    components of the quaternion, under either convention, does not change
    what [QuatRotateInverse] returns: the sign ambiguity of the orientation
    an IMU reports does not reach the observation. *)
Theorem quat_rotate_sign (q0 q1 q2 q3 v1 v2 v3 : Qc) (fw : string) :
  QuatRotateInverse (Row [- q0; - q1; - q2; - q3]) (Row [v1; v2; v3]) fw
  = QuatRotateInverse (Row [q0; q1; q2; q3]) (Row [v1; v2; v3]) fw.
Proof.
  unfold QuatRotateInverse, quat_parts. simpl.
  destruct (decide (fw = "isaacsim")); simpl;
    [|destruct (decide (fw = "isaacgym")); simpl; [|done]];
    do 2 f_equal; repeat (f_equal; try ring).
Qed.

(** ** Sensor readings and motor commands *)

Lemma vec_set_inv (i : nat) (x : Qc) (v v' : list Qc) :
  vec_set i x v = Some v' → (i < length v)%nat ∧ v' = <[i := x]> v.
Proof. unfold vec_set. case_decide; [|done]. by intros [= <-]. Qed.

(** X17. The quaternion convention from sensor to consumer.  The robot
    reports its orientation scalar first, as [w, x, y, z].  Under either
    supported framework [GetState] stores it so that [AttitudeProtect] and
    [QuatRotateInverse], reading the stored quaternion under the same
    framework, take [w] for the scalar part and [x, y, z] for the vector
    part.  Under any other framework string [GetState] leaves the stored
    quaternion as it was. *)
Theorem sensed_quaternion_convention (low : LowState) (joy : Joystick) (rl rl' : RL)
  (w x y z : Qc) :
  GetState low joy rl = Some rl' →
  imu_quaternion low = [w; x; y; z] →
  (framework (params rl) = "isaacsim" ∨ framework (params rl) = "isaacgym" →
   attitude_parts (quaternion (imu (robot_state rl'))) (framework (params rl'))
   = Some (w, x, y, z)
   ∧ quat_parts (quaternion (imu (robot_state rl'))) (framework (params rl'))
     = Some (w, [x; y; z]))
  ∧ (framework (params rl) ≠ "isaacsim" → framework (params rl) ≠ "isaacgym" →
     quaternion (imu (robot_state rl')) = quaternion (imu (robot_state rl))).
Proof.
  unfold GetState. cbn zeta. simpl. intros H Hq. rewrite Hq in H.
  destruct (read_quaternion _ _ _) as [q|] eqn:Eq; simpl in H; [|done].
  destruct (read_gyroscope _ _) as [g|]; simpl in H; [|done].
  destruct (for_dofs _ _ _) as [ms|]; simpl in H; [|done].
  injection H as <-. simpl.
  unfold read_quaternion in Eq. split.
  - intros Hfw.
    destruct (decide (framework (params rl) = "isaacgym")) as [Eg|Ng].
    + rewrite Eg. simpl in Eq |- *.
      repeat match type of Eq with
             | (vec_set ?i ?v ?l ≫= _) = _ =>
                 let E := fresh "E" in
                 destruct (vec_set i v l) as [?|] eqn:E; simpl in Eq; [|done];
                 apply vec_set_inv in E as [? ->]
             end.
      apply vec_set_inv in Eq as [? ->].
      rewrite !length_insert in *.
      destruct (quaternion (imu (robot_state rl))) as [|a0 [|a1 [|a2 [|a3 rest]]]];
        simpl in *; try lia. done.
    + destruct Hfw as [Es|Eg]; [|done]. rewrite Es. rewrite Es in Eq.
      simpl in Eq |- *.
      repeat match type of Eq with
             | (vec_set ?i ?v ?l ≫= _) = _ =>
                 let E := fresh "E" in
                 destruct (vec_set i v l) as [?|] eqn:E; simpl in Eq; [|done];
                 apply vec_set_inv in E as [? ->]
             end.
      apply vec_set_inv in Eq as [? ->].
      rewrite !length_insert in *.
      destruct (quaternion (imu (robot_state rl))) as [|a0 [|a1 [|a2 [|a3 rest]]]];
        simpl in *; try lia. done.
  - intros Ns Ng. rewrite decide_False in Eq by done.
    rewrite decide_False in Eq by done. by injection Eq as <-.
Qed.

Lemma sensed_quaternion_convention_witness :
  ∃ rl',
    GetState Crossed.low Crossed.joy Crossed.rl = Some rl'
    ∧ attitude_parts (quaternion (imu (robot_state rl'))) (framework (params rl'))
      = Some (dec 3 5, 0, dec 4 5, 0).
Proof.
  eexists. split.
  - vm_compute. reflexivity.
  - refine (proj1 (proj1 (sensed_quaternion_convention Crossed.low Crossed.joy
                            Crossed.rl _ (dec 3 5) 0 (dec 4 5) 0 _ _) _)).
    + vm_compute. reflexivity.
    + reflexivity.
    + right. reflexivity.
Defined.

Lemma read_motor_loop (rl : RL) (low : LowState) (m : nat) (ms ms' : MotorState) :
  for_each (read_motor rl low) (seq 0 m) ms = Some ms' →
  length (ms_q ms') = length (ms_q ms)
  ∧ ∀ j, (j < m)%nat →
      ∃ k r, state_mapping (params rl) !! j = Some k
             ∧ at_index (low_motor_state low) k = Some r
             ∧ ms_q ms' !! j = Some (mr_q r)
             ∧ ms_dq ms' !! j = Some (mr_dq r)
             ∧ ms_tau_est ms' !! j = Some (mr_tau_est r).
Proof.
  revert ms'. induction m as [|m IH]; intros ms'.
  - simpl. intros [= <-]. split; [done|]. intros j Hj. lia.
  - rewrite seq_S, for_each_app. simpl.
    destruct (for_each _ (seq 0 m) ms) as [ms1|] eqn:E1; simpl; [|done].
    destruct (IH ms1 eq_refl) as [L1 H1].
    unfold read_motor.
    destruct (state_mapping (params rl) !! m) as [k|] eqn:Ek; simpl; [|done].
    destruct (at_index (low_motor_state low) k) as [r|] eqn:Er; simpl; [|done].
    destruct (vec_set m (mr_q r) (ms_q ms1)) as [q|] eqn:Eq; simpl; [|done].
    destruct (vec_set m (mr_dq r) (ms_dq ms1)) as [dq|] eqn:Edq; simpl; [|done].
    destruct (vec_set m (mr_tau_est r) (ms_tau_est ms1)) as [tau|] eqn:Et; simpl;
      [|done].
    intros [= <-]. simpl.
    apply vec_set_inv in Eq as [Lq ->]. apply vec_set_inv in Edq as [Ldq ->].
    apply vec_set_inv in Et as [Lt ->].
    split; [by rewrite length_insert|].
    intros j Hj. destruct (decide (j = m)) as [->|Hne].
    + exists k, r. rewrite !list_lookup_insert_eq by done. by split_and!.
    + destruct (H1 j) as (k' & r' & ? & ? & ? & ? & ?); [lia|].
      exists k', r'. rewrite !list_lookup_insert_ne by done. by split_and!.
Qed.

Lemma send_motor_loop (rl : RL) (command : RobotCommand) (m : nat)
  (cmds cmds' : list MotorCmd) :
  for_each (send_motor rl command) (seq 0 m) cmds = Some cmds' →
  length cmds' = length cmds
  ∧ (∀ i, (m ≤ i)%nat → cmds' !! i = cmds !! i)
  ∧ ∀ i, (i < m)%nat →
      ∃ j q dq kp kd tau,
        command_mapping (params rl) !! i = Some j
        ∧ at_index (mc_q (motor_command command)) j = Some q
        ∧ at_index (mc_dq (motor_command command)) j = Some dq
        ∧ at_index (mc_kp (motor_command command)) j = Some kp
        ∧ at_index (mc_kd (motor_command command)) j = Some kd
        ∧ at_index (mc_tau (motor_command command)) j = Some tau
        ∧ cmds' !! i = Some (mkMotorCmd 1 q dq kp kd tau).
Proof.
  revert cmds'. induction m as [|m IH]; intros cmds'.
  - simpl. intros [= <-]. split_and!; [done|done|]. intros i Hi. lia.
  - rewrite seq_S, for_each_app. simpl.
    destruct (for_each _ (seq 0 m) cmds) as [c1|] eqn:E1; simpl; [|done].
    destruct (IH c1 eq_refl) as (L1 & F1 & H1).
    unfold send_motor. cbn zeta.
    destruct (command_mapping (params rl) !! m) as [j|] eqn:Ej; simpl; [|done].
    destruct (at_index (mc_q _) j) as [q|] eqn:Eq; simpl; [|done].
    destruct (at_index (mc_dq _) j) as [dq|] eqn:Edq; simpl; [|done].
    destruct (at_index (mc_kp _) j) as [kp|] eqn:Ekp; simpl; [|done].
    destruct (at_index (mc_kd _) j) as [kd|] eqn:Ekd; simpl; [|done].
    destruct (at_index (mc_tau _) j) as [tau|] eqn:Et; simpl; [|done].
    case_decide as Hlen; [|done]. intros [= <-].
    split_and!.
    + by rewrite length_insert.
    + intros i Hi. rewrite list_lookup_insert_ne by lia. apply F1. lia.
    + intros i Hi. destruct (decide (i = m)) as [->|Hne].
      * exists j, q, dq, kp, kd, tau. rewrite list_lookup_insert_eq by done.
        by split_and!.
      * destruct (H1 i) as (j' & q' & dq' & kp' & kd' & tau' & ? & ? & ? & ? & ? & ? & ?);
          [lia|].
        exists j', q', dq', kp', kd', tau'. rewrite list_lookup_insert_ne by done.
        by split_and!.
Qed.

(** X18. Joint order and motor order.  [GetState] stores as the state of
    joint [j] the reading of motor [state_mapping[j]]; [SetCommand] sends
    to motor [i] the command of joint [command_mapping[i]], with mode 1,
    and leaves every motor from [num_of_dofs] on as it was.  Hence, when
    [command_mapping[state_mapping[j]] = j], the motor whose reading is
    joint [j]'s state is the motor that receives joint [j]'s command. *)
Theorem joint_motor_round_trip (low : LowState) (joy : Joystick) (rl rl' : RL)
  (command : RobotCommand) (cmds cmds' : list MotorCmd) :
  GetState low joy rl = Some rl' →
  SetCommand rl' command cmds = Some cmds' →
  length cmds' = length cmds
  ∧ (∀ i, (dofs rl ≤ i)%nat → cmds' !! i = cmds !! i)
  ∧ ∀ j k, (j < dofs rl)%nat → (0 ≤ k < num_of_dofs (params rl))%Z →
      state_mapping (params rl) !! j = Some k →
      command_mapping (params rl) !! Z.to_nat k = Some (Z.of_nat j) →
      ∃ r c, at_index (low_motor_state low) k = Some r
             ∧ ms_q (motor_state (robot_state rl')) !! j = Some (mr_q r)
             ∧ ms_dq (motor_state (robot_state rl')) !! j = Some (mr_dq r)
             ∧ ms_tau_est (motor_state (robot_state rl')) !! j = Some (mr_tau_est r)
             ∧ at_index cmds' k = Some c
             ∧ cmd_mode c = 1%Z
             ∧ mc_q (motor_command command) !! j = Some (cmd_q c)
             ∧ mc_dq (motor_command command) !! j = Some (cmd_dq c)
             ∧ mc_kp (motor_command command) !! j = Some (cmd_kp c)
             ∧ mc_kd (motor_command command) !! j = Some (cmd_kd c)
             ∧ mc_tau (motor_command command) !! j = Some (cmd_tau c).
Proof.
  unfold GetState, SetCommand, for_dofs. cbn zeta. simpl. intros G S.
  destruct (read_quaternion _ _ _) as [q|]; simpl in G; [|done].
  destruct (read_gyroscope _ _) as [g|]; simpl in G; [|done].
  destruct (for_each _ _ _) as [ms|] eqn:Em; simpl in G; [|done].
  injection G as <-. simpl in S |- *.
  apply read_motor_loop in Em as [_ Hm]. simpl in Hm.
  apply send_motor_loop in S as (L & F & Hs). simpl in Hs.
  fold (dofs rl) in *. split_and!; [done|done|].
  intros j k Hj Hk Esm Ecm.
  destruct (Hm j Hj) as (k' & r & Ek' & Er & Hq & Hdq & Ht).
  assert (k' = k) as -> by congruence.
  destruct (Hs (Z.to_nat k)) as (j' & cq & cdq & ckp & ckd & ctau & Ej' & Aq & Adq
                                 & Akp & Akd & Atau & Ec).
  { unfold dofs. lia. }
  assert (j' = Z.of_nat j) as -> by congruence.
  unfold at_index in Aq, Adq, Akp, Akd, Atau.
  rewrite decide_True in Aq, Adq, Akp, Akd, Atau by lia.
  rewrite Nat2Z.id in Aq, Adq, Akp, Akd, Atau.
  exists r, (mkMotorCmd 1 cq cdq ckp ckd ctau). simpl.
  split_and!; try done.
  unfold at_index. by rewrite decide_True by lia.
Qed.

Lemma joint_motor_round_trip_witness :
  ∃ rl' cmds',
    GetState Crossed.low Crossed.joy Crossed.rl = Some rl'
    ∧ SetCommand rl' Sample.command0 Crossed.slots = Some cmds'
    ∧ length cmds' = length Crossed.slots
    ∧ (∀ i, (dofs Crossed.rl ≤ i)%nat → cmds' !! i = Crossed.slots !! i).
Proof.
  eexists _, _. split; [vm_compute; reflexivity|]. split; [vm_compute; reflexivity|].
  pose proof (joint_motor_round_trip Crossed.low Crossed.joy Crossed.rl _
                Sample.command0 Crossed.slots _ eq_refl eq_refl) as (L & F & _).
  split; [exact L|exact F].
Defined.

(** ** Service names *)

(** X19. Service names.  [QueryServiceName] resolves a motion name to a
    non-empty service name exactly for the three legged names when the
    robot form is the string 0 and for the two wheeled names when it is
    anything else; a wheeled name on form 0, a legged name on another
    form, and any unknown name give the empty string.  Distinct resolved
    names give distinct services. *)
Theorem service_name_table (form name : string) :
  (QueryServiceName form name ≠ ""
   ↔ (form = "0" ∧ name ∈ ["normal"; "ai"; "advanced"])
     ∨ (form ≠ "0" ∧ name ∈ ["ai-w"; "normal-w"]))
  ∧ (∀ form' name',
       QueryServiceName form name ≠ "" →
       QueryServiceName form' name' = QueryServiceName form name →
       name' = name ∧ (form' = "0" ↔ form = "0")).
Proof.
  split.
  - unfold QueryServiceName. rewrite !elem_of_cons, !elem_of_nil.
    repeat case_decide; subst;
      (split; [intros Hx|intros Hx]); try done;
      intuition (try congruence; try done; auto).
  - intros form' name' Hne. unfold QueryServiceName in *.
    repeat case_decide; subst; intros Hx; try done; try discriminate Hx;
      (split; [done|]); (split; intros Hy; try done; congruence).
Qed.

(** ** The checksum of the command message *)
Section Crc32_properties.
Local Open Scope Z_scope.

Ltac bitwise :=
  apply Z.bits_inj'; intros ? ?;
  repeat first [ rewrite Z.lxor_spec | rewrite Z.land_spec | rewrite Z.bits_0 ];
  repeat match goal with
         | |- context [Z.testbit ?a ?n] => destruct (Z.testbit a n)
         end;
  reflexivity.

Lemma land_pow2_testbit (a k : Z) :
  0 ≤ k → (Z.land a (2 ^ k) ≠ 0 ↔ Z.testbit a k = true).
Proof.
  intros Hk. split.
  - intros H. destruct (Z.testbit a k) eqn:E; [done|]. exfalso. apply H.
    apply Z.bits_inj'. intros n Hn. rewrite Z.land_spec, Z.bits_0.
    rewrite Z.pow2_bits_eqb by done.
    destruct (Z.eqb_spec k n) as [->|]; [by rewrite E|apply andb_false_r].
  - intros E H. apply (f_equal (λ z, Z.testbit z k)) in H.
    rewrite Z.land_spec, Z.bits_0, E, Z.pow2_bits_true in H by done. done.
Qed.

Lemma u32_is_u32 (z : Z) : is_u32 (u32 z).
Proof. unfold is_u32, u32. apply Z.mod_pos_bound. lia. Qed.

Lemma u32_small (z : Z) : is_u32 z → u32 z = z.
Proof. intros H. unfold u32. by apply Z.mod_small. Qed.

Lemma u32_testbit (z n : Z) :
  Z.testbit (u32 z) n = if decide (n < 32) then Z.testbit z n else false.
Proof.
  unfold u32. case_decide.
  - by apply Z.mod_pow2_bits_low.
  - apply Z.mod_pow2_bits_high. lia.
Qed.

Lemma is_u32_testbit (z n : Z) : is_u32 z → 32 ≤ n → Z.testbit z n = false.
Proof.
  intros Hz Hn. rewrite <- (u32_small z Hz), u32_testbit. by rewrite decide_False by lia.
Qed.

Lemma lxor_is_u32 (a b : Z) : is_u32 a → is_u32 b → is_u32 (Z.lxor a b).
Proof.
  intros Ha Hb.
  assert (E : Z.lxor a b = u32 (Z.lxor a b)).
  { apply Z.bits_inj'. intros n Hn. rewrite u32_testbit, Z.lxor_spec.
    case_decide; [done|]. by rewrite !is_u32_testbit by (done || lia). }
  rewrite E. apply u32_is_u32.
Qed.

Lemma dwPolynomial_is_u32 : is_u32 dwPolynomial.
Proof. unfold is_u32, dwPolynomial. lia. Qed.

Lemma crc_shift_is_u32 (s : Z) : is_u32 (crc_shift s).
Proof.
  unfold crc_shift. destruct (Z.testbit s 31).
  - apply lxor_is_u32; [apply u32_is_u32|apply dwPolynomial_is_u32].
  - apply u32_is_u32.
Qed.

Lemma crc_feed_is_u32 (b : bool) (s : Z) : is_u32 (crc_feed b s).
Proof.
  unfold crc_feed. destruct b; [|apply crc_shift_is_u32].
  apply lxor_is_u32; [apply crc_shift_is_u32|apply dwPolynomial_is_u32].
Qed.

Lemma crc_prefix_is_u32 (data s : Z) (n : nat) :
  is_u32 s → is_u32 (crc_prefix data s n).
Proof. intros Hs. destruct n; cbn [crc_prefix]; [done|apply crc_feed_is_u32]. Qed.

Lemma crc_bit_feed (data s k : Z) :
  0 ≤ k ≤ 31 →
  crc_bit data (s, 2 ^ k) = (crc_feed (Z.testbit data k) s, Z.shiftr (2 ^ k) 1).
Proof.
  intros Hk. unfold crc_bit, crc_feed, crc_shift.
  change 0x80000000 with (2 ^ 31).
  pose proof (land_pow2_testbit s 31 ltac:(lia)) as Hs.
  pose proof (land_pow2_testbit data k ltac:(lia)) as Hd.
  destruct (Z.testbit s 31); destruct (Z.testbit data k);
    repeat case_decide; try reflexivity; exfalso;
    intuition (try discriminate; try congruence).
Qed.

Lemma shiftr_pow2 (k : Z) : 0 < k → Z.shiftr (2 ^ k) 1 = 2 ^ (k - 1).
Proof.
  intros Hk. rewrite Z.shiftr_div_pow2 by lia.
  replace (2 ^ k) with (2 ^ (k - 1) * 2 ^ 1) by (rewrite <- Z.pow_add_r by lia; f_equal; lia).
  apply Z.div_mul. lia.
Qed.

Lemma crc_iter_prefix (data s : Z) (n : nat) :
  (n ≤ 32)%nat →
  Nat.iter n (crc_bit data) (s, 2 ^ 31)
  = (crc_prefix data s n, if decide (n = 32)%nat then 0 else 2 ^ (31 - Z.of_nat n)).
Proof.
  induction n as [|n IH]; intros Hn.
  - simpl. done.
  - rewrite Nat.iter_succ, IH by lia. rewrite decide_False by lia.
    rewrite crc_bit_feed by lia. cbn [crc_prefix]. f_equal.
    destruct (decide (S n = 32%nat)) as [E|E].
    + replace (31 - Z.of_nat n) with 0 by lia. reflexivity.
    + rewrite shiftr_pow2 by lia. f_equal. lia.
Qed.

Lemma crc_word_prefix (s data : Z) : crc_word s data = crc_prefix data s 32.
Proof.
  unfold crc_word. change (u32 (Z.shiftl 1 31)) with (2 ^ 31).
  rewrite crc_iter_prefix by lia. done.
Qed.

Lemma crc_prefix_S_is_u32 (data s : Z) (n : nat) : is_u32 (crc_prefix data s (S n)).
Proof. cbn [crc_prefix]. apply crc_feed_is_u32. Qed.

Lemma crc_word_is_u32 (s data : Z) : is_u32 (crc_word s data).
Proof. rewrite crc_word_prefix. apply (crc_prefix_S_is_u32 data s 31). Qed.

Lemma fold_left_nil {A B : Type} (f : A → B → A) (a : A) : fold_left f [] a = a.
Proof. reflexivity. Qed.

Lemma fold_left_cons {A B : Type} (f : A → B → A) (x : B) (l : list B) (a : A) :
  fold_left f (x :: l) a = fold_left f l (f a x).
Proof. reflexivity. Qed.

Lemma crc_fold_is_u32 (msg : list Z) (s : Z) :
  is_u32 s → is_u32 (fold_left crc_word msg s).
Proof.
  revert s. induction msg as [|w msg IH]; intros s Hs.
  - by rewrite fold_left_nil.
  - rewrite fold_left_cons. apply IH, crc_word_is_u32.
Qed.

Lemma u32_shiftl_u32 (z : Z) : u32 (Z.shiftl (u32 z) 1) = u32 (Z.shiftl z 1).
Proof.
  apply Z.bits_inj'. intros n Hn. rewrite !u32_testbit.
  case_decide; [|done].
  destruct (decide (n = 0)) as [->|Hne].
  - by rewrite !Z.shiftl_spec_low by lia.
  - rewrite !Z.shiftl_spec by lia. rewrite u32_testbit. by rewrite decide_True by lia.
Qed.

Lemma crc_prefix_self (c : Z) (n : nat) :
  (n ≤ 32)%nat → crc_prefix c c n = u32 (Z.shiftl c (Z.of_nat n)) ∨ ¬ is_u32 c.
Proof.
  destruct (decide (is_u32 c)) as [Hc|Hc]; [|by right]. intros Hn. left.
  induction n as [|n IH].
  - cbn [crc_prefix]. by rewrite Z.shiftl_0_r, u32_small.
  - cbn [crc_prefix]. rewrite IH by lia. unfold crc_feed, crc_shift.
    rewrite u32_testbit, decide_True by lia.
    rewrite Z.shiftl_spec by lia.
    replace (31 - Z.of_nat n) with (31 - Z.of_nat n - 0) at 2 by lia.
    rewrite Z.sub_0_r.
    rewrite u32_shiftl_u32, Z.shiftl_shiftl by lia.
    replace (Z.of_nat n + 1) with (Z.of_nat (S n)) by lia.
    destruct (Z.testbit c (31 - Z.of_nat n)); [|done].
    rewrite Z.lxor_assoc, Z.lxor_nilpotent. apply Z.lxor_0_r.
Qed.

Lemma crc_word_self (c : Z) : is_u32 c → crc_word c c = 0.
Proof.
  intros Hc. rewrite crc_word_prefix.
  destruct (crc_prefix_self c 32) as [E|E]; [lia| |done].
  rewrite E. unfold u32. rewrite Z.shiftl_mul_pow2 by lia.
  apply Z.mod_mul. lia.
Qed.

(** X20. The checksum closes the message.  [Crc32Core] over the first
    [len] words returns a 32-bit value [c], and the checksum of those words
    followed by [c] itself is 0: a receiver that runs the same routine
    over the message and its checksum word recognises an intact message by
    the result 0.  Asking for more words than there are has no result. *)
Theorem crc_residue (ptr : list Z) (len : nat) :
  ((len ≤ length ptr)%nat →
   ∃ c, Crc32Core ptr len = Some c
        ∧ is_u32 c
        ∧ Crc32Core (take len ptr ++ [c]) (S len) = Some 0)
  ∧ ((length ptr < len)%nat → Crc32Core ptr len = None).
Proof.
  split.
  - intros Hlen. unfold Crc32Core. rewrite decide_True by done.
    eexists. split; [reflexivity|].
    assert (R : is_u32 (fold_left crc_word (take len ptr) 0xFFFFFFFF)).
    { apply crc_fold_is_u32. unfold is_u32. lia. }
    split; [done|].
    rewrite decide_True by (rewrite length_app, length_take; simpl; lia).
    rewrite take_ge by (rewrite length_app, length_take; simpl; lia).
    rewrite fold_left_app, fold_left_cons, fold_left_nil. by rewrite crc_word_self.
  - intros Hlen. unfold Crc32Core. by rewrite decide_False by lia.
Qed.

Lemma crc_residue_witness :
  ∃ c, Crc32Core [0x00FF01FE; 0x12345678; 0] 2 = Some c
       ∧ is_u32 c
       ∧ Crc32Core (take 2 [0x00FF01FE; 0x12345678; 0] ++ [c]) 3 = Some 0.
Proof.
  apply (proj1 (crc_residue [0x00FF01FE; 0x12345678; 0] 2)). simpl. lia.
Defined.

Lemma u32_shiftl_lxor (s t : Z) :
  u32 (Z.shiftl (Z.lxor s t) 1) = Z.lxor (u32 (Z.shiftl s 1)) (u32 (Z.shiftl t 1)).
Proof.
  apply Z.bits_inj'. intros n Hn.
  rewrite Z.lxor_spec, !u32_testbit, Z.shiftl_lxor, Z.lxor_spec.
  by case_decide.
Qed.

Lemma crc_shift_lxor (s t : Z) :
  crc_shift (Z.lxor s t) = Z.lxor (crc_shift s) (crc_shift t).
Proof.
  unfold crc_shift. rewrite Z.lxor_spec, u32_shiftl_lxor.
  generalize (u32 (Z.shiftl s 1)) (u32 (Z.shiftl t 1)). intros a b.
  destruct (Z.testbit s 31), (Z.testbit t 31); simpl; bitwise.
Qed.

Lemma crc_feed_lxor (b c : bool) (s t : Z) :
  crc_feed (xorb b c) (Z.lxor s t) = Z.lxor (crc_feed b s) (crc_feed c t).
Proof.
  unfold crc_feed. rewrite crc_shift_lxor.
  generalize (crc_shift s) (crc_shift t). intros x y.
  destruct b, c; simpl; bitwise.
Qed.

Lemma crc_prefix_lxor (d e s t : Z) (n : nat) :
  crc_prefix (Z.lxor d e) (Z.lxor s t) n
  = Z.lxor (crc_prefix d s n) (crc_prefix e t n).
Proof.
  induction n as [|n IH]; cbn [crc_prefix]; [done|].
  by rewrite IH, Z.lxor_spec, crc_feed_lxor.
Qed.

Lemma crc_word_lxor (s t d e : Z) :
  crc_word (Z.lxor s t) (Z.lxor d e) = Z.lxor (crc_word s d) (crc_word t e).
Proof. rewrite !crc_word_prefix. apply crc_prefix_lxor. Qed.

Lemma crc_shift_nonzero (s : Z) : is_u32 s → s ≠ 0 → crc_shift s ≠ 0.
Proof.
  intros Hs Hne H. apply Hne. unfold crc_shift in H.
  destruct (Z.testbit s 31) eqn:E31.
  - exfalso. apply (f_equal (λ z, Z.testbit z 0)) in H.
    rewrite Z.lxor_spec, u32_testbit, decide_True, Z.shiftl_spec_low in H by lia.
    rewrite Z.bits_0 in H. vm_compute in H. discriminate H.
  - apply Z.bits_inj'. intros n Hn. rewrite Z.bits_0.
    destruct (decide (n < 31)) as [Hlt|Hge].
    + apply (f_equal (λ z, Z.testbit z (n + 1))) in H.
      rewrite u32_testbit, decide_True, Z.shiftl_spec, Z.bits_0 in H by lia.
      by replace (n + 1 - 1) with n in H by lia.
    + destruct (decide (n = 31)) as [->|Hne']; [done|].
      apply is_u32_testbit; [done|lia].
Qed.

Lemma crc_prefix_zero_data (s : Z) (n : nat) :
  is_u32 s → s ≠ 0 → crc_prefix 0 s n ≠ 0 ∧ is_u32 (crc_prefix 0 s n).
Proof.
  intros Hs Hne. induction n as [|n [IH1 IH2]]; cbn [crc_prefix]; [done|].
  rewrite Z.bits_0. unfold crc_feed. split.
  - by apply crc_shift_nonzero.
  - apply crc_shift_is_u32.
Qed.

Lemma crc_prefix_one_bit (k : Z) (n : nat) :
  0 ≤ k < 32 → (n ≤ 32)%nat →
  (Z.of_nat n ≤ 31 - k → crc_prefix (2 ^ k) 0 n = 0)
  ∧ (31 - k < Z.of_nat n → crc_prefix (2 ^ k) 0 n ≠ 0).
Proof.
  intros Hk. induction n as [|n IH]; intros Hn.
  - split; [done|lia].
  - destruct IH as [IH0 IH1]; [lia|]. cbn [crc_prefix].
    rewrite Z.pow2_bits_eqb by lia.
    destruct (Z.eqb_spec k (31 - Z.of_nat n)) as [E|E].
    + split; [lia|]. intros _. rewrite IH0 by lia.
      vm_compute. discriminate.
    + unfold crc_feed. split.
      * intros H. rewrite IH0 by lia. reflexivity.
      * intros H. apply crc_shift_nonzero.
        -- destruct n; [cbn [crc_prefix]; unfold is_u32; lia|].
           apply crc_prefix_S_is_u32.
        -- apply IH1. lia.
Qed.

Lemma crc_fold_lxor (post : list Z) (a e : Z) :
  is_u32 e → e ≠ 0 →
  ∃ e', e' ≠ 0
        ∧ fold_left crc_word post (Z.lxor a e)
          = Z.lxor (fold_left crc_word post a) e'.
Proof.
  revert a e. induction post as [|w post IH]; intros a e He Hne.
  - exists e. by rewrite !fold_left_nil.
  - rewrite !fold_left_cons.
    replace (crc_word (Z.lxor a e) w)
      with (Z.lxor (crc_word a w) (crc_word e 0))
      by (rewrite <- crc_word_lxor; by rewrite Z.lxor_0_r).
    apply IH.
    + apply crc_word_is_u32.
    + rewrite crc_word_prefix. by apply crc_prefix_zero_data.
Qed.

Lemma lxor_fixed (x e : Z) : Z.lxor x e = x → e = 0.
Proof.
  intros H. apply (f_equal (Z.lxor x)) in H.
  by rewrite <- Z.lxor_assoc, Z.lxor_nilpotent, Z.lxor_0_l in H.
Qed.

(** X21. Every single-bit error is detected.  Flipping any one of the 32
    bits of any one word of a message changes the checksum [Crc32Core]
    computes over the whole message. *)
Theorem crc_detects_bit_flip (pre post : list Z) (w k : Z) :
  0 ≤ k < 32 →
  ∃ c c',
    Crc32Core (pre ++ w :: post) (length (pre ++ w :: post)) = Some c
    ∧ Crc32Core (pre ++ Z.lxor w (2 ^ k) :: post)
        (length (pre ++ Z.lxor w (2 ^ k) :: post)) = Some c'
    ∧ c ≠ c'.
Proof.
  intros Hk. unfold Crc32Core. rewrite !decide_True by done.
  rewrite !firstn_all. eexists _, _. split; [reflexivity|]. split; [reflexivity|].
  rewrite !fold_left_app, !fold_left_cons.
  set (s := fold_left crc_word pre 0xFFFFFFFF).
  replace (crc_word s (Z.lxor w (2 ^ k)))
    with (Z.lxor (crc_word s w) (crc_word 0 (2 ^ k)))
    by (rewrite <- crc_word_lxor; by rewrite Z.lxor_0_r).
  destruct (crc_fold_lxor post (crc_word s w) (crc_word 0 (2 ^ k)))
    as (e' & Hne & E).
  - apply crc_word_is_u32.
  - rewrite crc_word_prefix. apply (crc_prefix_one_bit k 32); lia.
  - rewrite E. intros H. apply Hne. symmetry in H. by apply lxor_fixed in H.
Qed.

Lemma crc_detects_bit_flip_witness :
  ∃ c c',
    Crc32Core ([0x00FF01FE] ++ 0x12345678 :: [0]) 3 = Some c
    ∧ Crc32Core ([0x00FF01FE] ++ Z.lxor 0x12345678 (2 ^ 20) :: [0]) 3 = Some c'
    ∧ c ≠ c'.
Proof.
  apply (crc_detects_bit_flip [0x00FF01FE] [0] 0x12345678 20). lia.
Defined.

End Crc32_properties.

(** ** The keyboard and the joystick *)

Lemma GetState_obs low joy rl rl' :
  GetState low joy rl = Some rl' → obs rl' = obs rl.
Proof.
  unfold GetState. cbn zeta.
  destruct (read_quaternion _ _ _); simpl; [|done].
  destruct (read_gyroscope _ _); simpl; [|done].
  destruct (for_dofs _ _ _); simpl; [|done].
  by intros [= <-].
Qed.

Lemma update_observations_commands current cmd_vel rl rl' :
  current ≠ "RLFSMStateRL_Navigation" →
  update_observations current cmd_vel rl = Some rl' →
  commands (obs rl')
  = Row [ctl_x (control rl); ctl_y (control rl); ctl_yaw (control rl)].
Proof.
  intros Hc. unfold update_observations. cbn zeta. simpl.
  rewrite decide_False by done.
  destruct (narrow (ms_q _) _); simpl; [|done].
  destruct (narrow (ms_dq _) _); simpl; [|done].
  by intros [= <-].
Qed.

Lemma store_outputs_commands a rl rl' :
  store_outputs a rl = Some rl' → commands (obs rl') = commands (obs rl).
Proof.
  unfold store_outputs. cbn zeta.
  destruct (ComputeOutput _ _) as [[[pos vel] tau]|]; simpl; [|done].
  by intros [= <-].
Qed.

(** X22. The velocity keys and the joystick.  A key that is not one of the
    six mode keys changes nothing but the velocity intent [control.x],
    [control.y], [control.yaw].  [GetState] overwrites the velocity intent
    with the joystick axes on every control tick: with no joystick button
    pressed, what [GetState] leaves after such a key is exactly what it
    leaves without it.  The key is not lost, though, if the inference task
    runs before that [GetState]: with the learned mode initialised and
    outside Navigation, [RunModel] copies the velocity intent the key left
    into the commands of the observation, where the [GetState] that follows
    does not reach it. *)
Theorem keyboard_velocity_overridden (low : LowState) (joy : Joystick)
  (kbhit : bool) (c : Z) (rl : RL) :
  c ∉ mode_keys →
  joy_R1 joy = false → joy_R2 joy = false → joy_L2 joy = false →
  (∃ x y yaw, KeyboardInterface kbhit c rl
              = set_control (mkControl (control_state (control rl)) x y yaw) rl)
  ∧ GetState low joy (KeyboardInterface kbhit c rl) = GetState low joy rl
  ∧ (∀ rl', GetState low joy rl = Some rl' →
            control rl'
            = mkControl (control_state (control rl)) (joy_ly joy) (- joy_lx joy)
                (- joy_rx joy))
  ∧ (∀ env inf current cmd_vel rl1 rl2,
       rl_init_done rl = true → current ≠ "RLFSMStateRL_Navigation" →
       RunModel env inf current cmd_vel (KeyboardInterface kbhit c rl) = Some rl1 →
       GetState low joy rl1 = Some rl2 →
       commands (obs rl2)
       = Row [ctl_x (control (KeyboardInterface kbhit c rl));
              ctl_y (control (KeyboardInterface kbhit c rl));
              ctl_yaw (control (KeyboardInterface kbhit c rl))]).
Proof.
  intros Hc H1 H2 H3. unfold mode_keys in Hc.
  rewrite !elem_of_cons, elem_of_nil in Hc.
  assert (K : ∃ x y yaw, KeyboardInterface kbhit c rl
                         = set_control (mkControl (control_state (control rl))
                                          x y yaw) rl).
  { unfold KeyboardInterface. destruct kbhit.
    - repeat case_decide; try (exfalso; tauto);
        first [ by eexists _, _, _
              | exists (ctl_x (control rl)), (ctl_y (control rl)),
                  (ctl_yaw (control rl)); by destruct rl as [? ? []] ].
    - exists (ctl_x (control rl)), (ctl_y (control rl)), (ctl_yaw (control rl)).
      by destruct rl as [? ? []]. }
  split; [exact K|].
  destruct K as (x & y & yaw & ->).
  split_and!.
  - unfold GetState, read_controls. cbn zeta. simpl. by rewrite H1, H2, H3.
  - intros rl'. unfold GetState, read_controls. cbn zeta. simpl.
    rewrite H1, H2, H3.
    destruct (read_quaternion _ _ _); simpl; [|done].
    destruct (read_gyroscope _ _); simpl; [|done].
    destruct (for_dofs _ _ _); simpl; [|done].
    by intros [= <-].
  - intros env inf current cmd_vel rl1 rl2 Hd Hcur Hrun Hget.
    apply RunModel_active in Hrun as (rl0 & a & U & _ & S); [|exact Hd].
    rewrite (GetState_obs _ _ _ _ Hget), (store_outputs_commands _ _ _ S).
    exact (update_observations_commands _ _ _ _ Hcur U).
Qed.

(** The key w on the two-joint robot, Locomotion active: the next
    [GetState] erases it from the control target, but an inference step
    that runs first has taken the velocity 0.1 into the observation. *)
Lemma keyboard_velocity_overridden_witness :
  GetState Crossed.low Crossed.joy
    (KeyboardInterface true (char "w") (set_rl_init_done true Crossed.rl))
  = GetState Crossed.low Crossed.joy (set_rl_init_done true Crossed.rl)
  ∧ ∃ rl1 rl2,
      RunModel Sample.env0 (mkInference (λ _, Some (Row [0; 0])) Some)
        "RLFSMStateRL_Locomotion" None
        (KeyboardInterface true (char "w") (set_rl_init_done true Crossed.rl))
      = Some rl1
      ∧ GetState Crossed.low Crossed.joy rl1 = Some rl2
      ∧ control rl2 = mkControl STATE_WAITING 0 0 0
      ∧ commands (obs rl2) = Row [dec 1 10; 0; 0].
Proof.
  pose proof (keyboard_velocity_overridden Crossed.low Crossed.joy true (char "w")
                (set_rl_init_done true Crossed.rl)) as H.
  destruct H as (_ & H2 & _ & H4).
  - unfold mode_keys. rewrite !elem_of_cons, elem_of_nil. vm_compute.
    intros [H|[H|[H|[H|[H|[H|[]]]]]]]; discriminate H.
  - reflexivity.
  - reflexivity.
  - reflexivity.
  - split; [exact H2|].
    eexists _, _. split; [vm_compute; reflexivity|].
    split; [vm_compute; reflexivity|].
    split; [vm_compute; reflexivity|].
    etransitivity;
      [eapply (H4 Sample.env0 (mkInference (λ _, Some (Row [0; 0])) Some)
                 "RLFSMStateRL_Locomotion" None)|].
    + reflexivity.
    + discriminate.
    + vm_compute. reflexivity.
    + vm_compute. reflexivity.
    + vm_compute. reflexivity.
Defined.

(** ** A failed activation *)

Lemma InitRL_policy_missing env robot_path rl rl1 what :
  ReadYamlRL env robot_path rl = Normal rl1 →
  jit_load env
    (CMAKE_CURRENT_SOURCE_DIR env +:+ "/models/" +:+ robot_path +:+ "/"
       +:+ model_name (params rl1)) = JitException what →
  InitRL env robot_path rl
  = Raised what
      (with_history
         (set_params
            (set_observations
               (map (resolve_ang_vel (is_simulation rl1))
                  (observations (params rl1))) (params rl1)) rl1)).
Proof.
  intros Hyaml Hjit. unfold InitRL. rewrite Hyaml.
  cbn [and_then]. cbn zeta.
  fold (with_history
          (set_params
             (set_observations
                (map (resolve_ang_vel (is_simulation rl1))
                   (observations (params rl1))) (params rl1)) rl1)).
  set (rl2 := with_history _).
  assert (P : params rl2
              = set_observations
                  (map (resolve_ang_vel (is_simulation rl1))
                     (observations (params rl1))) (params rl1)).
  { subst rl2. rewrite with_history_frame. reflexivity. }
  rewrite P. cbn [model_name set_observations]. by rewrite Hjit.
Qed.

(** X23. A failed activation keeps the new profile.  When the profile
    loads but the policy it names does not, entering Locomotion or
    Navigation falls back to StandUp with [rl_init_done] false, yet the
    parameters are already those of the profile -- default pose, fixed
    gains, DOF count, torque limits, mappings -- with only the base tick
    period and decimation kept: the StandUp ramp that follows runs on the
    profile that failed to activate.  Observations, outputs, the velocity
    intent and JointCommand are as before. *)
Theorem failed_activation_keeps_profile (env : Env) (s : StateId) (rl : RL)
  (c : ModelParams) (what : string) :
  s = RL_Locomotion ∨ s = RL_Navigation →
  yaml_load env (profile_path env rl)
    (robot_name rl +:+ "/" +:+ default_rl_config rl) = YamlNode c →
  jit_load env (policy_path env rl (model_name c)) = JitException what →
  let rl' := state_enter env s rl in
  rl_init_done rl' = false
  ∧ stdout rl' = stdout rl ++ [ErrorInitRLFailed what]
  ∧ control rl'
    = mkControl STATE_POS_GETUP (ctl_x (control rl)) (ctl_y (control rl))
        (ctl_yaw (control rl))
  ∧ state_checkChange s rl' = getStateName GetUp
  ∧ default_dof_pos (params rl') = default_dof_pos c
  ∧ fixed_kp (params rl') = fixed_kp c
  ∧ fixed_kd (params rl') = fixed_kd c
  ∧ num_of_dofs (params rl') = num_of_dofs c
  ∧ torque_limits (params rl') = torque_limits c
  ∧ state_mapping (params rl') = state_mapping c
  ∧ command_mapping (params rl') = command_mapping c
  ∧ dt (params rl') = dt (params rl)
  ∧ decimation (params rl') = decimation (params rl)
  ∧ obs rl' = obs rl
  ∧ output_dof_pos rl' = output_dof_pos rl
  ∧ robot_command rl' = robot_command rl.
Proof.
  intros Hs Hyaml Hjit rl'.
  assert (E : rl' = learned_enter env rl) by (by destruct Hs as [-> | ->]).
  rewrite learned_enter_unfold in E.
  rewrite (InitRL_policy_missing env _ _
             (set_params
                (mkModelParams (model_name c) (framework c) (dt (params rl))
                   (decimation (params rl)) (num_observations c) (observations c)
                   (observations_history c) (clip_obs c) (clip_actions_lower c)
                   (clip_actions_upper c) (action_scale c) (wheel_indices c)
                   (num_of_dofs c) (lin_vel_scale c) (ang_vel_scale c)
                   (dof_pos_scale c) (dof_vel_scale c) (commands_scale c) (rl_kp c)
                   (rl_kd c) (fixed_kp c) (fixed_kd c) (torque_limits c)
                   (default_dof_pos c) (joint_controller_names c)
                   (command_mapping c) (state_mapping c))
                (set_config_name (default_rl_config rl) rl)) what) in E;
    [|unfold ReadYamlRL; cbn zeta; unfold profile_path in Hyaml;
      cbn [robot_name set_config_name]; by rewrite Hyaml|exact Hjit].
  rewrite with_history_frame in E.
  assert (C : state_checkChange s rl' = getStateName GetUp).
  { rewrite E. by destruct Hs as [-> | ->]. }
  split_and!; try exact C; rewrite E; reflexivity.
Qed.

Lemma failed_activation_keeps_profile_witness :
  let rl' := state_enter Sample.env_no_policy RL_Locomotion
               Sample.locomotion_requested in
  rl_init_done rl' = false
  ∧ state_checkChange RL_Locomotion rl' = getStateName GetUp
  ∧ default_dof_pos (params rl') = Row [0; 0].
Proof.
  pose proof (failed_activation_keeps_profile Sample.env_no_policy RL_Locomotion
                Sample.locomotion_requested Sample.params0 "open file failed") as H.
  cbn zeta in H. destruct H as (H1 & _ & _ & H4 & H5 & _).
  - left. reflexivity.
  - reflexivity.
  - reflexivity.
  - cbn zeta. split_and!; assumption.
Defined.

(** ** The ramp in single precision *)

(** X24. The ramp in single precision.  [running_percent] is a [float]
    and every tick adds the rounded quotient 1.0f / 500.0f.  Replayed
    exactly in binary32, the counter stays within [0, 1] and never
    decreases, but the 500 rounded additions sum to a little less than 1:
    the counter is still below 1.0 after 500 ticks and reaches exactly 1.0
    on tick 501, where it stays.  A transition that waits for
    [running_percent >= 1.0f] therefore becomes possible after 501 ticks
    of the ramp, not 500. *)
Theorem binary32_ramp_takes_501_ticks (n : nat) :
  Binary32.in_range (Binary32.progress n) = true
  ∧ SpecFloat.SFleb (Binary32.progress n) (Binary32.progress (S n)) = true
  ∧ ((n ≤ 500)%nat → SpecFloat.SFltb (Binary32.progress n) Binary32.one = true)
  ∧ ((501 ≤ n)%nat → Binary32.progress n = Binary32.one).
Proof.
  split_and!.
  - apply binary32_progress_in_range.
  - apply binary32_progress_non_decreasing.
  - intros Hn.
    assert (T : forallb (λ p, SpecFloat.SFltb p Binary32.one)
                  (Binary32.trajectory 501 Binary32.zero) = true)
      by (vm_compute; reflexivity).
    rewrite forallb_forall in T. apply T.
    apply (nth_error_In _ n). apply binary32_trajectory_nth. lia.
  - apply binary32_progress_saturates.
Qed.

(** ** The first inference step after an activation *)




(** ** Motors the profile does not use *)

Lemma InitLowCmd_loop (P V : Qc) (k : nat) (m m' : list MotorCmd) :
  for_each
    (λ i m, if decide (i < length m)%nat
            then Some (<[i := mkMotorCmd 1 P V 0 0 0]> m) else None)
    (seq 0 k) m = Some m' →
  length m' = length m ∧ (k ≤ length m)%nat
  ∧ ∀ i, (i < k)%nat → m' !! i = Some (mkMotorCmd 1 P V 0 0 0).
Proof.
  revert m'. induction k as [|k IH]; intros m'.
  - simpl. intros [= <-]. split_and!; [done|lia|]. intros i Hi. lia.
  - rewrite seq_S, for_each_app. simpl.
    destruct (for_each _ (seq 0 k) m) as [m1|] eqn:E1; simpl; [|done].
    destruct (IH m1 eq_refl) as (L1 & K1 & H1).
    case_decide as Hlen; [|done]. intros [= <-].
    rewrite length_insert. split_and!; [done|lia|].
    intros i Hi. destruct (decide (i = k)) as [->|Hne].
    + by rewrite list_lookup_insert_eq by lia.
    + rewrite list_lookup_insert_ne by done. apply H1. lia.
Qed.

(** X26. Unused motors stay stopped.  [InitLowCmd] gives each of the 20
    motors of the message mode 1, the stop sentinels as position and
    velocity, and zero gains and torque.  Whatever commands follow, as long
    as no tick has more than [n] DOFs configured, every motor from [n] to
    19 still carries exactly those values after any number of [SetCommand]
    calls: a motor the profile does not use is never given a gain or a
    torque. *)
Theorem unused_motors_stay_stopped (PosStopF VelStopF : Qc) (n : nat)
  (cmds0 cmds cmds' : list MotorCmd) (ticks : list (RL * RobotCommand)) :
  InitLowCmd PosStopF VelStopF cmds0 = Some cmds →
  Forall (λ tick, (dofs (fst tick) ≤ n)%nat) ticks →
  SetCommands ticks cmds = Some cmds' →
  length cmds' = length cmds0
  ∧ ∀ i, (n ≤ i < 20)%nat →
         cmds' !! i = Some (mkMotorCmd 1 PosStopF VelStopF 0 0 0).
Proof.
  intros Hinit Hticks Hset.
  apply InitLowCmd_loop in Hinit as (L0 & _ & H0).
  rewrite <- L0.
  assert (Hinv : ∀ i, (n ≤ i < 20)%nat →
                      cmds !! i = Some (mkMotorCmd 1 PosStopF VelStopF 0 0 0))
    by (intros i Hi; apply H0; lia).
  clear H0 L0 cmds0.
  revert cmds Hinv Hset.
  induction Hticks as [|[rl command] ticks Hn Hticks IH]; intros cmds Hinv Hset.
  - simpl in Hset. by injection Hset as <-.
  - simpl in Hset, Hn.
    destruct (SetCommand rl command cmds) as [m|] eqn:E; simpl in Hset; [|done].
    unfold SetCommand, for_dofs in E.
    apply send_motor_loop in E as (L & F & _).
    destruct (IH m) as [L' H']; [|done|].
    + intros i Hi. rewrite F; [by apply Hinv|]. unfold dofs in Hn. lia.
    + split; [congruence|done].
Qed.

Lemma unused_motors_stay_stopped_witness :
  ∃ cmds',
    SetCommands [(Crossed.rl, two_joint_command)]
                (replicate 20 (mkMotorCmd 1 (dec 7 1) (dec 8 1) 0 0 0)) = Some cmds'
    ∧ length cmds' = 20%nat
    ∧ ∀ i, (2 ≤ i < 20)%nat → cmds' !! i = Some (mkMotorCmd 1 (dec 7 1) (dec 8 1) 0 0 0).
Proof.
  eexists. split; [vm_compute; reflexivity|].
  apply (unused_motors_stay_stopped (dec 7 1) (dec 8 1) 2 (replicate 20 (mkMotorCmd 0 0 0 0 0 0))
           (replicate 20 (mkMotorCmd 1 (dec 7 1) (dec 8 1) 0 0 0)) _
           [(Crossed.rl, two_joint_command)]).
  - vm_compute; reflexivity.
  - apply Forall_cons_2; [vm_compute; lia | apply Forall_nil_2].
  - vm_compute; reflexivity.
Defined.
